(** * pyExpTools: the composition and statistics pipeline of [SpectTools.py]

    A shallow embedding of the classes [SpectExp] and [SpectGroup] of
    [src/pyExpTools/SpectTools.py], and of the setters of its class
    [plotConf].  Python objects live in a store
    ([world]) and are named by references, so that the aliasing the code
    creates (a group whose data frame is its only experiment's frame, two
    groups holding the same experiments) is visible.  Methods are
    computations in a state-and-exception monad whose exceptions keep the
    store as it was when they were raised, as Python does.

    Cells are IEEE binary64 numbers (the primitive [float]), the
    [float64] columns the reader asks pandas for. *)

From Stdlib Require Import ZArith Floats Uint63 DecimalString DecimalNat Ascii String Lia.
From stdpp Require Import base list strings option.

Local Open Scope string_scope.
Local Open Scope list_scope.

(** ** Python exceptions *)

Inductive exc_kind :=
| AssertionError | ValueError | TypeError | KeyError | IndexError
| UnboundLocalError | FileNotFoundError | ParserError | NotImplementedError
| AttributeError | MergeError
| InvalidRef.

Record pyexc := Raise { exc_type : exc_kind; exc_msg : string }.

Definition result (A : Type) : Type := pyexc + A.

(** [str(n)] for a natural number, as ["{}".format(n)] prints it. *)
Definition str_of_nat (n : nat) : string := NilEmpty.string_of_uint (Nat.to_uint n).

(** ** float64 cells *)

Definition of_nat (n : nat) : float := PrimFloat.of_uint63 (Uint63.of_Z (Z.of_nat n)).

(** Equality of join keys, as the hash tables behind [pd.merge] decide it:
    IEEE equality (so [0.0] and [-0.0] are one key), and NaN equal to NaN. *)
Definition key_eqb (a b : float) : bool :=
  (a =? b)%float || (is_nan a && is_nan b).

Definition key_mem (k : float) (l : list float) : bool := existsb (key_eqb k) l.

(** No key occurs twice in a key column. *)
Fixpoint keys_unique (l : list float) : bool :=
  match l with
  | [] => true
  | k :: r => negb (key_mem k r) && keys_unique r
  end.

(** The keys of the first column that every other column holds too: the
    intersection of the key sets, listed in the order of the first one. *)
Definition key_inter (cols : list (list float)) : list float :=
  match cols with
  | [] => []
  | c0 :: others => List.filter (fun k => forallb (key_mem k) others) c0
  end.

(** *** Row statistics ([axis = 1], [skipna = True])

    pandas leaves NaN cells out of a reduction; a row with no cell left
    gives NaN.  Sums run left to right from [0.0], which is how numpy adds
    fewer than eight values; it adds eight or more contiguous values in
    blocks, which these definitions do not follow: a property that names
    the value of a mean or of a standard deviation is stated for rows of
    fewer than eight values. *)

Definition notnan (v : list float) : list float :=
  List.filter (fun x => negb (is_nan x)) v.

Definition fmin (a b : float) : float := if (b <? a)%float then b else a.
Definition fmax (a b : float) : float := if (a <? b)%float then b else a.

Definition nanmin (v : list float) : float :=
  match notnan v with
  | [] => PrimFloat.nan
  | x :: r => fold_left fmin r x
  end.

Definition nanmax (v : list float) : float :=
  match notnan v with
  | [] => PrimFloat.nan
  | x :: r => fold_left fmax r x
  end.

Definition fsum (v : list float) : float := fold_left PrimFloat.add v PrimFloat.zero.

Definition nanmean (v : list float) : float :=
  let xs := notnan v in
  (fsum xs / of_nat (length xs))%float.

(** [nanvar] with [ddof = 1]: with at most one cell left the divisor
    [count - ddof] is replaced by NaN, and so is the result. *)
Definition nanvar (v : list float) : float :=
  let xs := notnan v in
  let count := length xs in
  if (count <=? 1)%nat then PrimFloat.nan
  else
    let avg := (fsum xs / of_nat count)%float in
    let sqr := map (fun x => ((avg - x) * (avg - x))%float) xs in
    (fsum sqr / of_nat (count - 1))%float.

Definition nanstd (v : list float) : float := PrimFloat.sqrt (nanvar v).

(** ** Data frames

    A frame is its column labels and its rows; every row has one cell per
    label ([frame_rect]).  The row index is not modelled: every frame here
    carries the default range index, and pandas then aligns by position. *)

Record DataFrame := { columns : list string; rows : list (list float) }.

Definition frame_rect (f : DataFrame) : bool :=
  forallb (fun r => (length r =? length (columns f))%nat) (rows f).

Definition WL : string := "Wavelength".

(** Positions of a label among the column labels. *)
Fixpoint positions (lbl : string) (cols : list string) (i : nat) : list nat :=
  match cols with
  | [] => []
  | c :: r => if String.eqb c lbl then i :: positions lbl r (S i) else positions lbl r (S i)
  end.

Definition has_label (lbl : string) (cols : list string) : bool :=
  existsb (fun c => String.eqb c lbl) cols.

(** The position of the one column a join key names. *)
Definition key_pos (cols : list string) : result nat :=
  match positions WL cols 0 with
  | [] => inl (Raise KeyError WL)
  | [i] => inr i
  | _ => inl (Raise ValueError "The column label 'Wavelength' is not unique.")
  end.

Definition cell (r : list float) (i : nat) : float := nth i r PrimFloat.nan.

Definition key_column (f : DataFrame) : list float := map (fun r => cell r 0) (rows f).

(** [Index.duplicated()]: for every label, whether it occurred before. *)
Fixpoint duplicated (seen cols : list string) : list bool :=
  match cols with
  | [] => []
  | c :: r => has_label c seen :: duplicated (c :: seen) r
  end.

(** The labels the suffixes make repeat on one side of a merge: a renamed
    label that occurred before among the renamed labels, at a position
    where the label itself had not occurred before. *)
Definition suffix_dups (cols renamed : list string) : bool :=
  existsb (fun p : bool * bool => fst p && negb (snd p))
          (combine (duplicated [] renamed) (duplicated [] cols)).

(** [pd.merge(x, y, on=["Wavelength"], suffixes=("_", "_"))]: the inner
    join.  Every row of [x] is paired with the rows of [y] that carry an
    equal key; the key column of [y] is dropped; a label that [x] and the
    remaining columns of [y] share takes the suffix on both sides.  The
    package asks for pandas without a version: since pandas 2.0 the merge
    raises a [MergeError] when the suffixes make a label repeat on one
    side (pandas 1.x only warned; the message also names the labels, which
    is left out here); labels that repeat across the two sides are kept.  The rows come in the order of the rows of [x], as
    documented for an inner join (before pandas 2.2 the rows of a repeated
    key of [x] came together). *)
Definition merge (x y : DataFrame) : result DataFrame :=
  match key_pos (columns x), key_pos (columns y) with
  | inl e, _ => inl e
  | _, inl e => inl e
  | inr kx, inr ky =>
    let ycols := delete ky (columns y) in
    let ren (l : string) :=
      if has_label l (columns x) && has_label l ycols then String.append l "_" else l in
    if suffix_dups (columns x) (map ren (columns x)) || suffix_dups ycols (map ren ycols) then
      inl (Raise MergeError "Passing 'suffixes' which cause duplicate columns is not allowed.")
    else
      inr {| columns := map ren (columns x) ++ map ren ycols;
             rows := flat_map (fun rx =>
                                 map (fun ry => rx ++ delete ky ry)
                                     (List.filter (fun ry => key_eqb (cell rx kx) (cell ry ky)) (rows y)))
                              (rows x) |}
  end.

(** [pd.merge] refuses an operand that is [None]. *)
Definition merge_obj (x : DataFrame) (y : option DataFrame) : result DataFrame :=
  match y with
  | Some f => merge x f
  | None => inl (Raise TypeError "Can only merge Series or DataFrame objects, a <class 'NoneType'> was passed")
  end.

(** [functools.reduce(merge, frames)] from its second element on. *)
Fixpoint merge_all (acc : DataFrame) (fs : list (option DataFrame)) : result DataFrame :=
  match fs with
  | [] => inr acc
  | f :: r => match merge_obj acc f with
              | inl e => inl e
              | inr acc' => merge_all acc' r
              end
  end.

(** [df[labels]]: the columns with these labels, as a new frame. *)
Definition select_positions (ps : list nat) (r : list float) : list float :=
  map (cell r) ps.

Definition getitem_cols (f : DataFrame) (lbls : list string) : result DataFrame :=
  if forallb (fun l => has_label l (columns f)) lbls then
    let ps := flat_map (fun l => positions l (columns f) 0) lbls in
    inr {| columns := map (fun p => nth p (columns f) "") ps;
           rows := map (select_positions ps) (rows f) |}
  else inl (Raise KeyError "not in index").

(** [df.drop(label, axis = 1)]: the frame without the columns so labelled. *)
Fixpoint drop_mask {A} (cols : list string) (lbl : string) (r : list A) : list A :=
  match cols, r with
  | c :: cs, x :: xs => if String.eqb c lbl then drop_mask cs lbl xs else x :: drop_mask cs lbl xs
  | _, _ => []
  end.

Definition drop_col (f : DataFrame) (lbl : string) : result DataFrame :=
  if has_label lbl (columns f) then
    inr {| columns := drop_mask (columns f) lbl (columns f);
           rows := map (drop_mask (columns f) lbl) (rows f) |}
  else inl (Raise KeyError "not found in axis").

(** A reduction along [axis = 1]: one value per row. *)
Definition axis1 (red : list float -> float) (f : DataFrame) : list float :=
  map red (rows f).

(** [df[label] = series]: a new last column, or new cells for the columns
    that carry the label already. *)
Fixpoint set_mask (cols : list string) (lbl : string) (r : list float) (x : float) : list float :=
  match cols, r with
  | c :: cs, y :: ys => (if String.eqb c lbl then x else y) :: set_mask cs lbl ys x
  | _, _ => []
  end.

Fixpoint zip_rows (upd : list float -> float -> list float)
         (rs : list (list float)) (s : list float) : list (list float) :=
  match rs, s with
  | r :: rs', x :: s' => upd r x :: zip_rows upd rs' s'
  | _, _ => []
  end.

Definition setitem (f : DataFrame) (lbl : string) (s : list float) : result DataFrame :=
  if (length s =? length (rows f))%nat then
    if has_label lbl (columns f) then
      inr {| columns := columns f; rows := zip_rows (set_mask (columns f) lbl) (rows f) s |}
    else
      inr {| columns := columns f ++ [lbl]; rows := zip_rows (fun r x => r ++ [x]) (rows f) s |}
  else inl (Raise ValueError "Length of values does not match length of index").

(** ** Python values and the store *)

Definition ref := nat.

(** The dynamically typed arguments the methods test with [isinstance]. *)
#[warnings="-register-all"]
Inductive pyval :=
| PyNone
| PyInt (z : Z)
| PyStr (s : string)
| PyList (l : list pyval)
| PyExp (r : ref)
| PyConf (r : ref)
| PyGroup (r : ref).

Definition type_name (v : pyval) : string :=
  match v with
  | PyNone => "<class 'NoneType'>"
  | PyInt _ => "<class 'int'>"
  | PyStr _ => "<class 'str'>"
  | PyList _ => "<class 'list'>"
  | PyExp _ => "<class 'pyExpTools.SpectTools.SpectExp'>"
  | PyConf _ => "<class 'pyExpTools.SpectTools.plotConf'>"
  | PyGroup _ => "<class 'pyExpTools.SpectTools.SpectGroup'>"
  end.

(** The attributes of a [SpectExp] object; [None] is [None]. *)
Record SpectExp := {
  exp_plotConf : ref;
  exp_data : option ref;
  exp_metaInfo : option (list string);
  exp_sourceFile : option string;
  exp_outputPath : option string;
  exp_name : option string;
  exp_saveFormat : string }.

(** The attributes of a [SpectGroup] object.  [grp_expList] holds the
    experiments by reference: groups share them.  The list itself is held
    by value: a list object that a caller hands to two groups, or changes
    after [setExpList], is shared in Python and is not here; the
    properties speak of the list of one group under that group's own
    methods. *)
Record SpectGroup := {
  grp_expList : list ref;
  grp_plotConf : ref;
  grp_data : option ref;
  grp_stats : option ref;
  grp_outPath : option string;
  grp_name : option string }.

(** The store: the objects allocated so far, each kind indexed by its
    references, and the file system the methods read. *)
Record world := {
  frames : list DataFrame;
  exps : list SpectExp;
  groups : list SpectGroup;
  confs : nat;
  files : list (string * list string);
  dirs : list string }.

Definition with_frames (w : world) (fs : list DataFrame) : world :=
  {| frames := fs; exps := exps w; groups := groups w; confs := confs w;
     files := files w; dirs := dirs w |}.

Definition with_exps (w : world) (es : list SpectExp) : world :=
  {| frames := frames w; exps := es; groups := groups w; confs := confs w;
     files := files w; dirs := dirs w |}.

Definition with_groups (w : world) (gs : list SpectGroup) : world :=
  {| frames := frames w; exps := exps w; groups := gs; confs := confs w;
     files := files w; dirs := dirs w |}.

Definition with_confs (w : world) (n : nat) : world :=
  {| frames := frames w; exps := exps w; groups := groups w; confs := n;
     files := files w; dirs := dirs w |}.

(** ** The monad of methods: state, and exceptions that keep the state *)

Definition M (A : Type) : Type := world -> result A * world.

Definition ret {A} (a : A) : M A := fun w => (inr a, w).

Definition raise {A} (k : exc_kind) (msg : string) : M A := fun w => (inl (Raise k msg), w).

Definition bind {A B} (m : M A) (k : A -> M B) : M B :=
  fun w => match m w with
           | (inl e, w') => (inl e, w')
           | (inr a, w') => k a w'
           end.

Notation "'let*' x ':=' m 'in' k" := (bind m (fun x => k))
  (at level 10, x name, m at level 100, k at level 200).
Notation "m ';;' k" := (bind m (fun _ => k))
  (at level 100, k at level 200, right associativity).

Definition lift {A} (r : result A) : M A := fun w => (r, w).

Definition assert (b : bool) (msg : string) : M unit :=
  if b then ret tt else raise AssertionError msg.

Definition get_frame (r : ref) : M DataFrame :=
  fun w => match frames w !! r with
           | Some f => (inr f, w)
           | None => (inl (Raise InvalidRef "frame"), w)
           end.

Definition put_frame (r : ref) (f : DataFrame) : M unit :=
  fun w => (inr tt, with_frames w (<[r := f]> (frames w))).

Definition alloc_frame (f : DataFrame) : M ref :=
  fun w => (inr (length (frames w)), with_frames w (frames w ++ [f])).

Definition get_exp (r : ref) : M SpectExp :=
  fun w => match exps w !! r with
           | Some e => (inr e, w)
           | None => (inl (Raise InvalidRef "experiment"), w)
           end.

Definition put_exp (r : ref) (e : SpectExp) : M unit :=
  fun w => (inr tt, with_exps w (<[r := e]> (exps w))).

Definition get_group (r : ref) : M SpectGroup :=
  fun w => match groups w !! r with
           | Some g => (inr g, w)
           | None => (inl (Raise InvalidRef "group"), w)
           end.

Definition put_group (r : ref) (g : SpectGroup) : M unit :=
  fun w => (inr tt, with_groups w (<[r := g]> (groups w))).

Definition alloc_group (g : SpectGroup) : M ref :=
  fun w => (inr (length (groups w)), with_groups w (groups w ++ [g])).

(** [plotConf()]: a new configurator; what it holds plays no part here. *)
Definition alloc_conf : M ref :=
  fun w => (inr (confs w), with_confs w (S (confs w))).

(** [frame.columns = labels]: pandas refuses a list of another length. *)
Definition set_columns (r : ref) (lbls : list string) : M unit :=
  let* f := get_frame r in
  if (length lbls =? length (columns f))%nat then
    put_frame r {| columns := lbls; rows := rows f |}
  else raise ValueError "Length mismatch".

Fixpoint lookup_file (fs : list (string * list string)) (p : string) : option (list string) :=
  match fs with
  | [] => None
  | (q, ls) :: r => if String.eqb q p then Some ls else lookup_file r p
  end.

(** The lines of a file, each with the newline that ends it. *)
Definition read_lines (p : option string) : M (list string) :=
  fun w => match p with
           | None => (inl (Raise TypeError "expected str, bytes or os.PathLike object, not NoneType"), w)
           | Some q => match lookup_file (files w) q with
                       | Some ls => (inr ls, w)
                       | None => (inl (Raise FileNotFoundError q), w)
                       end
           end.

(** The lines of the file whose path [pd.read_csv] is given: [None] is
    no path. *)
Definition read_path (p : option string) : M (list string) :=
  fun w => match p with
           | None => (inl (Raise ValueError
                             "Invalid file path or buffer object type: <class 'NoneType'>"), w)
           | Some q => match lookup_file (files w) q with
                       | Some ls => (inr ls, w)
                       | None => (inl (Raise FileNotFoundError q), w)
                       end
           end.

(** ** [pd.read_csv(lines, sep = delim, names = col_names, dtype = convert_dict)]

    The reader is pandas', not the package's; this is its documented
    behaviour on quote-free text when names are passed (so no line is a
    header).  Names that repeat are refused before anything is read.
    Empty lines and lines of blanks are skipped.  The expected number of
    fields is that of the first line, or the number of names if that is
    larger: a longer line is an error, a shorter line is filled up with
    missing values, and when the lines are wider than the names the
    leading fields become the row index.

    The frames of this development hold float64 cells, so the reader is
    spelled out for a dictionary that asks for float64 under every name;
    how the text of a field becomes a float64 is left to [cast] ([None]:
    it cannot be cast).  For any other dictionary ([None], other dtypes, or
    keys that are not the names, as in the package's own default) pandas
    infers the types and a column may hold text: the rows the reader then
    returns are left to [other_reader]; their labels are the names. *)

(** A dtype of the dictionary: float64, or another one, by its name. *)
Inductive dtype := Float64 | OtherDtype (name : string).

Fixpoint dict_get (d : list (string * dtype)) (key : string) : option dtype :=
  match d with
  | [] => None
  | (k, t) :: r => if String.eqb k key then Some t else dict_get r key
  end.

(** The dictionary gives float64 for every name. *)
Definition all_float64 (convert_dict : option (list (string * dtype))) (names : list string)
  : bool :=
  match convert_dict with
  | None => false
  | Some d => forallb (fun n => match dict_get d n with Some Float64 => true | _ => false end)
                      names
  end.

(** No label occurs twice. *)
Fixpoint distinct (l : list string) : bool :=
  match l with
  | [] => true
  | a :: r => negb (has_label a r) && distinct r
  end.

Definition check_names (names : list string) : result unit :=
  if distinct names then inr tt else inl (Raise ValueError "Duplicate names are not allowed.").

Section Reader.

Variable cast : string -> option float.
Variable other_reader :
  ascii -> list string -> option (list (string * dtype)) -> list string -> result (list (list float)).

Fixpoint strip_newline (s : string) : string :=
  match s with
  | EmptyString => EmptyString
  | String c r =>
    match r with
    | EmptyString => if Ascii.eqb c "010" then EmptyString else s
    | _ => String c (strip_newline r)
    end
  end.

Fixpoint split_on (d : ascii) (s : string) : list string :=
  match s with
  | EmptyString => [EmptyString]
  | String c r =>
    if Ascii.eqb c d then EmptyString :: split_on d r
    else match split_on d r with
         | f :: fs => String c f :: fs
         | [] => [String c EmptyString]
         end
  end.

(** A blank: a space or a tab that is not the delimiter. *)
Definition blank_char (d c : ascii) : bool :=
  (Ascii.eqb c " " || Ascii.eqb c "009") && negb (Ascii.eqb c d).

(** A line the reader skips: it is empty or holds blanks only. *)
Fixpoint blank_line (d : ascii) (s : string) : bool :=
  match s with
  | EmptyString => true
  | String c r => blank_char d c && blank_line d r
  end.

Definition records (d : ascii) (lines : list string) : list (list string) :=
  map (split_on d) (List.filter (fun l => negb (blank_line d l)) (map strip_newline lines)).

Definition cast_field (s : string) : result float :=
  if String.eqb s "" then inr PrimFloat.nan
  else match cast s with
       | Some x => inr x
       | None => inl (Raise ValueError "could not convert string to float")
       end.

Fixpoint cast_fields (l : list string) : result (list float) :=
  match l with
  | [] => inr []
  | s :: r => match cast_field s, cast_fields r with
              | inl e, _ => inl e
              | _, inl e => inl e
              | inr x, inr xs => inr (x :: xs)
              end
  end.

Fixpoint cast_records (n width : nat) (recs : list (list string)) : result (list (list float)) :=
  match recs with
  | [] => inr []
  | r :: rs =>
    let padded := r ++ replicate (width - length r) "" in
    match cast_fields (drop (width - n) padded), cast_records n width rs with
    | inl e, _ => inl e
    | _, inl e => inl e
    | inr x, inr xs => inr (x :: xs)
    end
  end.

(** The reader under a dictionary that asks for float64 under every name. *)
Definition read_float64 (d : ascii) (names : list string) (lines : list string)
  : result DataFrame :=
  let recs := records d lines in
  let n := length names in
  let width := match recs with [] => n | r :: _ => Nat.max (length r) n end in
  if existsb (fun r => (width <? length r)%nat) recs then
    inl (Raise ParserError "Error tokenizing data")
  else match cast_records n width recs with
       | inl e => inl e
       | inr rs => inr {| columns := names; rows := rs |}
       end.

Definition read_csv (d : ascii) (names : list string)
           (convert_dict : option (list (string * dtype))) (lines : list string)
  : result DataFrame :=
  match check_names names with
  | inl e => inl e
  | inr _ =>
    if all_float64 convert_dict names then read_float64 d names lines
    else match other_reader d names convert_dict lines with
         | inl e => inl e
         | inr rs => inr {| columns := names; rows := rs |}
         end
  end.

(** The loop of [readFile] over the lines of the file: [met] is
    [begin_line_met], [meta] is [meta_list].  The result is the metadata
    gathered and, when the loop reached the call of the reader, the lines
    left in the file for it. *)
Fixpoint scan_header (begin_line : string) (lines : list string) (met : bool)
         (meta : list string) : list string * option (list string) :=
  match lines with
  | [] => (meta, None)
  | line :: rest =>
    if met then (meta, Some rest)
    else scan_header begin_line rest (String.eqb line begin_line) (meta ++ [line])
  end.

End Reader.

Module SpectExp.

(** [SpectExp()]: the default constructor. *)
Definition new : M ref :=
  let* c := alloc_conf in
  fun w => (inr (length (exps w)),
            with_exps w (exps w ++ [{| exp_plotConf := c; exp_data := None; exp_metaInfo := None;
                                        exp_sourceFile := None; exp_outputPath := None;
                                        exp_name := None; exp_saveFormat := "png" |}])).

Definition getData (self : ref) : M (option ref) :=
  let* e := get_exp self in ret (exp_data e).

Definition getSource (self : ref) : M (option string) :=
  let* e := get_exp self in ret (exp_sourceFile e).

Definition getMeta (self : ref) : M (option (list string)) :=
  let* e := get_exp self in ret (exp_metaInfo e).

(** [setData]: the frame must have two columns; its first label becomes
    the key name, on the frame itself. *)
Definition setData (self : ref) (newData : ref) : M unit :=
  let* f := get_frame newData in
  assert (length (columns f) =? 2)%nat
         "The new data must have two columns. One for wavelength, the other for the measurement." ;;
  set_columns newData [WL; nth 1 (columns f) ""] ;;
  let* e := get_exp self in
  put_exp self {| exp_plotConf := exp_plotConf e; exp_data := Some newData;
                  exp_metaInfo := exp_metaInfo e; exp_sourceFile := exp_sourceFile e;
                  exp_outputPath := exp_outputPath e; exp_name := exp_name e;
                  exp_saveFormat := exp_saveFormat e |}.

Definition setMetaInfo (self : ref) (newMeta : list string) : M unit :=
  let* e := get_exp self in
  put_exp self {| exp_plotConf := exp_plotConf e; exp_data := exp_data e;
                  exp_metaInfo := Some newMeta; exp_sourceFile := exp_sourceFile e;
                  exp_outputPath := exp_outputPath e; exp_name := exp_name e;
                  exp_saveFormat := exp_saveFormat e |}.

Definition isLoaded (self : ref) : M bool :=
  let* d := getData self in
  ret (match d with None => false | Some _ => true end).

(** [readFile].  Without [begin_line] the reader is given the path and
    reads the whole file; it tests the names before it opens the file.
    With [begin_line] the file is opened first and the loop gathers lines
    until the one after the sentinel has been read, then hands the rest of
    the file to the reader; when the loop ends before that, [pandas_read]
    was never bound, which shows once the metadata has been stored (the
    message is the one of Python up to 3.10).
    [cast] and [other_reader] are the parameters of the reader. *)
Definition readFile (cast : string -> option float)
           (other_reader : ascii -> list string -> option (list (string * dtype)) ->
                           list string -> result (list (list float)))
           (self : ref) (delim : ascii) (begin_line : option string)
           (convert_dict : option (list (string * dtype))) (col_names : list string)
  : M unit :=
  match begin_line with
  | None =>
    let* src := getSource self in
    lift (check_names col_names) ;;
    let* lines := read_path src in
    let* df := lift (read_csv cast other_reader delim col_names convert_dict lines) in
    let* pandas_read := alloc_frame df in
    setMetaInfo self [] ;;
    setData self pandas_read
  | Some sentinel =>
    let* src := getSource self in
    let* lines := read_lines src in
    match scan_header sentinel lines false [] with
    | (meta_list, Some rest) =>
      let* df := lift (read_csv cast other_reader delim col_names convert_dict rest) in
      let* pandas_read := alloc_frame df in
      setMetaInfo self meta_list ;;
      setData self pandas_read
    | (meta_list, None) =>
      setMetaInfo self meta_list ;;
      raise UnboundLocalError "local variable 'pandas_read' referenced before assignment"
    end
  end.

End SpectExp.

(** ** Python list indexing *)

(** [l[i]]: an integer counts from the end when negative and must be in
    range; a list (or any other object) is no index for a Python list. *)
Definition list_getitem {A} (l : list A) (i : pyval) : result A :=
  match i with
  | PyInt z =>
    let n := Z.of_nat (length l) in
    let z' := if (z <? 0)%Z then (z + n)%Z else z in
    if (z' <? 0)%Z then inl (Raise IndexError "list index out of range")
    else match l !! Z.to_nat z' with
         | Some x => inr x
         | None => inl (Raise IndexError "list index out of range")
         end
  | _ => inl (Raise TypeError
                    (String.append "list indices must be integers or slices, not "
                                   (match i with
                                    | PyList _ => "list" | PyStr _ => "str" | PyNone => "NoneType"
                                    | _ => "object"
                                    end)))
  end.

Definition is_int (v : pyval) : bool := match v with PyInt _ => true | _ => false end.

Definition path_arg (p : option string) : pyval :=
  match p with Some s => PyStr s | None => PyNone end.

(** [str(x)] of an attribute that may be [None]. *)
Definition str_opt (s : option string) : string :=
  match s with Some x => x | None => "None" end.

Definition exp_label (x : nat) : string := String.append "Exp_" (str_of_nat x).

Module SpectGroup.

(** [SpectGroup()]: the default constructor. *)
Definition new : M ref :=
  let* c := alloc_conf in
  alloc_group {| grp_expList := []; grp_plotConf := c; grp_data := None; grp_stats := None;
                 grp_outPath := None; grp_name := None |}.

(** *** Setters *)

Fixpoint check_exps (l : list pyval) (index : nat) : result (list ref) :=
  match l with
  | [] => inr []
  | PyExp r :: rest =>
    match check_exps rest (S index) with
    | inl e => inl e
    | inr rs => inr (r :: rs)
    end
  | v :: _ =>
    inl (Raise TypeError
               (String.append "Each experiment in the new spectral experiments needs to be of type SpectExp. Got "
                 (String.append (type_name v) (String.append " at index" (str_of_nat index)))))
  end.

Definition setExpList (self : ref) (expList : list pyval) : M unit :=
  let* l := lift (check_exps expList 0) in
  let* g := get_group self in
  put_group self {| grp_expList := l; grp_plotConf := grp_plotConf g; grp_data := None;
                    grp_stats := None; grp_outPath := grp_outPath g; grp_name := grp_name g |}.

Definition addExp (self : ref) (exp : pyval) : M unit :=
  match exp with
  | PyExp r =>
    let* g := get_group self in
    put_group self {| grp_expList := grp_expList g ++ [r]; grp_plotConf := grp_plotConf g;
                      grp_data := None; grp_stats := None;
                      grp_outPath := grp_outPath g; grp_name := grp_name g |}
  | _ => raise AssertionError (String.append "Expected a spectral experiment but got " (type_name exp))
  end.

Definition setPlotConf (self : ref) (config : pyval) : M unit :=
  match config with
  | PyConf c =>
    let* g := get_group self in
    put_group self {| grp_expList := grp_expList g; grp_plotConf := c; grp_data := grp_data g;
                      grp_stats := grp_stats g; grp_outPath := grp_outPath g; grp_name := grp_name g |}
  | _ => raise AssertionError "The new plot configurator needs to be a plot configurator."
  end.

(** [setData]: the frame must have a column labelled Wavelength. *)
Definition setData (self : ref) (newData : ref) : M unit :=
  let* f := get_frame newData in
  assert (has_label WL (columns f)) "The new data needs to have a wavelength column" ;;
  let* g := get_group self in
  put_group self {| grp_expList := grp_expList g; grp_plotConf := grp_plotConf g;
                    grp_data := Some newData; grp_stats := grp_stats g;
                    grp_outPath := grp_outPath g; grp_name := grp_name g |}.

Definition setStats (self : ref) (newStats : ref) : M unit :=
  let* g := get_group self in
  put_group self {| grp_expList := grp_expList g; grp_plotConf := grp_plotConf g;
                    grp_data := grp_data g; grp_stats := Some newStats;
                    grp_outPath := grp_outPath g; grp_name := grp_name g |}.

(** [setOutPath]: a path, or a string turned into one, that must name a
    directory. *)
Definition setOutPath (self : ref) (newOutput : pyval) : M unit :=
  match newOutput with
  | PyStr p =>
    fun w =>
      if existsb (String.eqb p) (dirs w) then
        (let* g := get_group self in
         put_group self {| grp_expList := grp_expList g; grp_plotConf := grp_plotConf g;
                           grp_data := grp_data g; grp_stats := grp_stats g;
                           grp_outPath := Some p; grp_name := grp_name g |}) w
      else if existsb (fun q => String.eqb (fst q) p) (files w) then
        raise ValueError "The source path needs to lead to a directory" w
      else raise ValueError "The new Output dir does not exist" w
  | _ => raise TypeError (String.append "Expected a string or path. Got " (type_name newOutput))
  end.

Definition setName (self : ref) (newName : pyval) : M unit :=
  match newName with
  | PyStr n =>
    let* g := get_group self in
    put_group self {| grp_expList := grp_expList g; grp_plotConf := grp_plotConf g;
                      grp_data := grp_data g; grp_stats := grp_stats g;
                      grp_outPath := grp_outPath g; grp_name := Some n |}
  | _ => raise AssertionError "The new name needs to be a string."
  end.

(** [SpectGroup(expList, config, outputPath, name)]: the call is
    dispatched on the types of its arguments.  The root constructor takes a
    list first; a first argument that is an experiment matches no
    signature.  (A path first selects the JSON constructor, which this
    model leaves out.) *)
Definition init (expList config outputPath name : pyval) : M ref :=
  match expList, config, outputPath, name with
  | PyList l, PyConf _, PyStr _, PyStr _ =>
    let* self := new in
    setExpList self l ;;
    setPlotConf self config ;;
    setOutPath self outputPath ;;
    setName self name ;;
    ret self
  | _, _, _, _ => raise NotImplementedError "Could not find signature for __init__"
  end.

(** *** Getters and conditions *)

Definition getExpList (self : ref) : M (list ref) :=
  let* g := get_group self in ret (grp_expList g).

(** [getExpList(colNums)]: the experiments at the given positions. *)
Fixpoint getExpList_at (l : list ref) (colNums : list pyval) (index : nat) : M (list ref) :=
  match colNums with
  | [] => ret []
  | c :: rest =>
    assert (is_int c) (String.append "All indexes must be integers. Got "
                         (String.append (type_name c) (String.append " at index " (str_of_nat index)))) ;;
    assert (match c with PyInt z => (z <? Z.of_nat (length l))%Z | _ => false end)
           (String.append "All indexes must be within range. Index "
                          (String.append (str_of_nat index) " was out of range")) ;;
    let* x := lift (list_getitem l c) in
    let* xs := getExpList_at l rest (S index) in
    ret (x :: xs)
  end.

Definition getExpList_cols (self : ref) (colNums : list pyval) : M (list ref) :=
  let* g := get_group self in getExpList_at (grp_expList g) colNums 0.

Definition getExp (self : ref) (index : pyval) : M ref :=
  let* g := get_group self in lift (list_getitem (grp_expList g) index).

Definition getPlotConf (self : ref) : M ref :=
  let* g := get_group self in ret (grp_plotConf g).

Definition getData (self : ref) : M (option ref) :=
  let* g := get_group self in ret (grp_data g).

Definition getStats (self : ref) : M (option ref) :=
  let* g := get_group self in ret (grp_stats g).

Definition getOutPath (self : ref) : M (option string) :=
  let* g := get_group self in ret (grp_outPath g).

Definition getName (self : ref) : M (option string) :=
  let* g := get_group self in ret (grp_name g).

Definition isComposed (self : ref) : M bool :=
  let* d := getData self in ret (match d with None => false | Some _ => true end).

Definition isStats (self : ref) : M bool :=
  let* s := getStats self in ret (match s with None => false | Some _ => true end).

(** *** Generators *)

(** The inner loop of [genSubgroup]: every entry must be an [int]. *)
Fixpoint check_ints (l : list pyval) : M unit :=
  match l with
  | [] => ret tt
  | v :: rest =>
    assert (is_int v) "The subgroup definition can only have integer indecies" ;;
    check_ints rest
  end.

(** The outer loop of [genSubgroup]; [main_index] counts the index sets
    done.  The experiment list is indexed with the whole index set. *)
Fixpoint genSubgroup_from (self : ref) (groupDef : list (list pyval)) (main_index : nat)
  : M (list ref) :=
  match groupDef with
  | [] => ret []
  | idxs :: rest =>
    check_ints idxs ;;
    let* g := get_group self in
    let* sel := lift (list_getitem (grp_expList g) (PyList idxs)) in
    let* conf := getPlotConf self in
    let* out := getOutPath self in
    let* name := getName self in
    let* sub := init (PyExp sel) (PyConf conf) (path_arg out)
                     (PyStr (String.append "Subgroup #"
                               (String.append (str_of_nat (main_index + 1))
                                  (String.append " of " (str_opt name))))) in
    let* subs := genSubgroup_from self rest (S main_index) in
    ret (sub :: subs)
  end.

Definition genSubgroup (self : ref) (groupDef : list (list pyval)) : M (list ref) :=
  genSubgroup_from self groupDef 0.

(** *** Operations *)

(** The first loop of [__Compose]: every experiment named by [colIndexes]
    must be loaded. *)
Fixpoint check_loaded (self : ref) (colIndexes : list nat) : M unit :=
  match colIndexes with
  | [] => ret tt
  | index :: rest =>
    let* e := getExp self (PyInt (Z.of_nat index)) in
    let* loaded := SpectExp.isLoaded e in
    if loaded then check_loaded self rest
    else raise ValueError (String.append "Experiment at index "
                             (String.append (str_of_nat index) " was not loaded"))
  end.

(** [[x.getData() for x in self.getExpList()]]. *)
Fixpoint data_of (es : list ref) : M (list (option ref)) :=
  match es with
  | [] => ret []
  | e :: rest =>
    let* d := SpectExp.getData e in
    let* ds := data_of rest in
    ret (d :: ds)
  end.

Definition get_frame_opt (d : option ref) : M (option DataFrame) :=
  match d with
  | None => ret None
  | Some r => let* f := get_frame r in ret (Some f)
  end.

Fixpoint get_frames (ds : list (option ref)) : M (list (option DataFrame)) :=
  match ds with
  | [] => ret []
  | d :: rest =>
    let* f := get_frame_opt d in
    let* fs := get_frames rest in
    ret (f :: fs)
  end.

(** [reduce(merge, frames)]: no frame is an error, a single frame is
    returned as it is (the same object), more are merged into a new frame. *)
Definition reduce_merge (ds : list (option ref)) : M (option ref) :=
  match ds with
  | [] => raise TypeError "reduce() of empty iterable with no initial value"
  | [d] => ret d
  | d :: rest =>
    let* f := get_frame_opt d in
    let* fs := get_frames rest in
    match f with
    | None => raise TypeError "Can only merge Series or DataFrame objects, a <class 'NoneType'> was passed"
    | Some x =>
      let* merged := lift (merge_all x fs) in
      let* r := alloc_frame merged in
      ret (Some r)
    end
  end.

(** [__Compose(colIndexes)]. *)
Definition Compose_ (self : ref) (colIndexes : list nat) : M unit :=
  check_loaded self colIndexes ;;
  let* es := getExpList self in
  let* ds := data_of es in
  let* tmp_data := reduce_merge ds in
  match tmp_data with
  | None => raise AttributeError "'NoneType' object has no attribute 'columns'"
  | Some t =>
    set_columns t (WL :: map exp_label colIndexes) ;;
    setData self t
  end.

Definition Compose (self : ref) : M unit :=
  let* es := getExpList self in
  Compose_ self (seq 0 (length es)).

(** The body of [genStats] once the group is composed: the key column
    copied, then one column per statistic, each computed over the data
    without its key column. *)
Definition stats_from_data (self : ref) : M unit :=
  let* d := getData self in
  match d with
  | None => raise TypeError "'NoneType' object is not subscriptable"
  | Some r =>
    let* data := get_frame r in
    let* tmp0 := lift (getitem_cols data [WL]) in
    let* v1 := lift (drop_col data WL) in
    let* tmp1 := lift (setitem tmp0 "min" (axis1 nanmin v1)) in
    let* v2 := lift (drop_col data WL) in
    let* tmp2 := lift (setitem tmp1 "max" (axis1 nanmax v2)) in
    let* v3 := lift (drop_col data WL) in
    let* tmp3 := lift (setitem tmp2 "mean" (axis1 nanmean v3)) in
    let* v4 := lift (drop_col data WL) in
    let* tmp4 := lift (setitem tmp3 "std" (axis1 nanstd v4)) in
    let* tmp_stats := alloc_frame tmp4 in
    setStats self tmp_stats
  end.

(** [genStats]: compose first when the group is not composed. *)
Definition genStats (self : ref) : M unit :=
  let* composed := isComposed self in
  (if composed then ret tt else Compose self) ;;
  stats_from_data self.

End SpectGroup.

(** ** The plot configurator

    The attributes of a [plotConf] that its setters check themselves: the
    title, the list of axis titles and the list of axis ranges.  (The
    style sheet is checked against matplotlib's list of styles and the
    colour cycle against the cycler library; both are left out, with the
    operations on a matplotlib figure.)  A setter is a function from the
    object and the argument to the outcome and the object after the call:
    the lists are updated in place, so what was written before an
    exception stays written. *)

Module plotConf.

Record conf := {
  title : pyval;
  axis_titles : list pyval;
  axis_ranges : list pyval }.

(** [plotConf()]: the default constructor. *)
Definition new : conf :=
  {| title := PyNone;
     axis_titles := [PyNone; PyNone];
     axis_ranges := [PyList [PyNone; PyNone]; PyList [PyNone; PyNone]] |}.

Definition is_str (v : pyval) : bool := match v with PyStr _ => true | _ => false end.

Definition setTitle (self : conf) (new_title : pyval) : result unit * conf :=
  if is_str new_title || (match new_title with PyNone => true | _ => false end) then
    (inr tt, {| title := new_title; axis_titles := axis_titles self;
                axis_ranges := axis_ranges self |})
  else (inl (Raise TypeError
               (String.append "The new title needs to be a string or None."
                  (String "010" (String.append "Got: " (type_name new_title))))), self).

(** [lst[index] = v] on a Python list. *)
Definition list_setitem (lst : list pyval) (index : nat) (v : pyval) : result (list pyval) :=
  if (index <? length lst)%nat then inr (<[index := v]> lst)
  else inl (Raise IndexError "list assignment index out of range").

(** The loop of [setAxisTitles] from [index] on; [todo] are the entries of
    [new_titles] from that index. *)
Fixpoint setAxisTitles_from (titles : list pyval) (todo : list pyval) (index : nat)
  : result unit * list pyval :=
  match todo with
  | [] => (inr tt, titles)
  | v :: rest =>
    if negb (is_str v) then
      (inl (Raise ValueError
              (String.append "All of the input axis titles need to be strings. Got: "
                 (String.append (type_name v) (String.append " at " (str_of_nat index))))),
       titles)
    else match list_setitem titles index v with
         | inl e => (inl e, titles)
         | inr titles' => setAxisTitles_from titles' rest (S index)
         end
  end.

Definition setAxisTitles (self : conf) (new_titles : pyval) : result unit * conf :=
  match new_titles with
  | PyList l =>
    if (2 <? length l)%nat then
      (inl (Raise ValueError "The input axis titles can only be at most length 2"), self)
    else
      let (r, titles) := setAxisTitles_from (axis_titles self) l 0 in
      (r, {| title := title self; axis_titles := titles; axis_ranges := axis_ranges self |})
  | _ => (inl (Raise TypeError "The input axis titles need to be in either a list or tuple"), self)
  end.

(** [len(v)]: lists and strings have a length. *)
Definition py_len (v : pyval) : result nat :=
  match v with
  | PyList l => inr (length l)
  | PyStr s => inr (String.length s)
  | _ => inl (Raise TypeError
                (String.append "object of type '"
                   (String.append (match v with
                                   | PyNone => "NoneType" | PyInt _ => "int"
                                   | PyExp _ => "SpectExp" | PyConf _ => "plotConf"
                                   | _ => "SpectGroup"
                                   end) "' has no len()")))
  end.

(** [v[i]] for an index in range. *)
Definition py_item (v : pyval) (i : nat) : pyval :=
  match v with
  | PyList l => nth i l PyNone
  | PyStr s => match String.get i s with Some c => PyStr (String c EmptyString) | None => PyNone end
  | _ => PyNone
  end.

(** [isinstance(v, float)] and [isinstance(v, int)]; the values of the
    model hold no float. *)
Definition is_float (v : pyval) : bool := false.

(** The truth value of the pair [(a, b)]: a tuple that is not empty is
    true, whatever it holds. *)
Definition pair_truth (a b : bool) : bool := true.

(** The loop of [setAxisRanges]; [total] is [len(new_ranges)], which the
    message about a pair names instead of the index. *)
Fixpoint setAxisRanges_from (ranges : list pyval) (todo : list pyval) (total index : nat)
  : result unit * list pyval :=
  match todo with
  | [] => (inr tt, ranges)
  | v :: rest =>
    match py_len v with
    | inl e => (inl e, ranges)
    | inr n =>
      if negb (n =? 2)%nat then
        (inl (Raise ValueError
                (String.append "The new axis ranges need to be in pairs. Index "
                   (String.append (str_of_nat total) " was not a pair"))), ranges)
      else if negb (pair_truth (is_float (py_item v 0)) (is_int (py_item v 0))) then
        (inl (Raise ValueError
                (String.append "The first value in pair at index "
                   (String.append (str_of_nat index) " was not a float or integer"))), ranges)
      else if negb (pair_truth (is_float (py_item v 1)) (is_int (py_item v 1))) then
        (inl (Raise ValueError
                (String.append "The second value in pair at index "
                   (String.append (str_of_nat index) " was not a float or integer"))), ranges)
      else match list_setitem ranges index v with
           | inl e => (inl e, ranges)
           | inr ranges' => setAxisRanges_from ranges' rest total (S index)
           end
    end
  end.

Definition setAxisRanges (self : conf) (new_ranges : pyval) : result unit * conf :=
  match new_ranges with
  | PyList l =>
    if (2 <? length l)%nat then
      (inl (Raise ValueError "The input axis titles can only be at most length 2"), self)
    else
      let (r, ranges) := setAxisRanges_from (axis_ranges self) l (length l) 0 in
      (r, {| title := title self; axis_titles := axis_titles self; axis_ranges := ranges |})
  | _ => (inl (Raise TypeError "The input axis ranges need to be in either a list or tuple"), self)
  end.

End plotConf.

(** ** The name of the file an experiment is saved to *)

(** [path.name]: the last component of a path, where empty components and
    single dots do not count. *)
Definition path_name (p : string) : string :=
  List.last (List.filter (fun c => negb (String.eqb c "") && negb (String.eqb c "."))
                         (split_on "/" p)) "".

(** [SpectExp.outputNameGen]. *)
Definition outputNameGen (self : ref) : M string :=
  let* e := get_exp self in
  match exp_name e with
  | None =>
    match exp_sourceFile e with
    | None => raise AttributeError "'NoneType' object has no attribute 'name'"
    | Some src =>
      ret (String.append (nth 0 (split_on "." (path_name src)) "") (exp_saveFormat e))
    end
  | Some name => ret (String.append name (String.append "." (exp_saveFormat e)))
  end.

(** * Stating the properties

    What the theorems below speak of: the state of a group and of an
    experiment read off the store, the tables the methods are expected
    to build, and the stores of the examples. *)

(** ** The state of a group, read off the store *)

Definition group_composed (w : world) (g : ref) : option bool :=
  match SpectGroup.isComposed g w with (inr b, _) => Some b | _ => None end.

Definition group_has_stats (w : world) (g : ref) : option bool :=
  match SpectGroup.isStats g w with (inr b, _) => Some b | _ => None end.

(** The frame an experiment holds, if it is loaded. *)
Definition exp_frame_ref (w : world) (e : ref) : option ref :=
  match exps w !! e with Some ex => exp_data ex | None => None end.

Fixpoint loaded_refs (w : world) (es : list ref) : option (list ref) :=
  match es with
  | [] => Some []
  | e :: r => match exp_frame_ref w e, loaded_refs w r with
              | Some d, Some ds => Some (d :: ds)
              | _, _ => None
              end
  end.

Fixpoint lookup_frames (w : world) (ds : list ref) : option (list DataFrame) :=
  match ds with
  | [] => Some []
  | d :: r => match frames w !! d, lookup_frames w r with
              | Some f, Some fs => Some (f :: fs)
              | _, _ => None
              end
  end.

(** The frames of the experiments of a list, when all are loaded. *)
Definition loaded_frames (w : world) (es : list ref) : option (list DataFrame) :=
  match loaded_refs w es with
  | Some ds => lookup_frames w ds
  | None => None
  end.

(** A frame whose first label is the key and is the only such label. *)
Definition keyed (f : DataFrame) : bool :=
  match columns f with
  | c :: vs => String.eqb c WL && negb (has_label WL vs)
  | [] => false
  end && frame_rect f.

(** The table of an experiment as [SpectExp.setData] leaves it: the key
    column and one value column, the latter not itself labelled as the key. *)
Definition exp_table_ok (f : DataFrame) : bool :=
  keyed f && (length (columns f) =? 2)%nat.

(** The rows of the inner join of two tables keyed on their first column. *)
Definition join_rows (xs ys : list (list float)) : list (list float) :=
  flat_map (fun rx => map (fun ry => rx ++ delete 0 ry)
                          (List.filter (fun ry => key_eqb (cell rx 0) (cell ry 0)) ys)) xs.

Definition cell0 (r : list float) : float := cell r 0.

(** The table [__Compose] builds from the tables of the experiments. *)
Definition compose_table (fs : list DataFrame) : option DataFrame :=
  match fs with
  | [] => None
  | f :: rest =>
    match merge_all f (map Some rest) with
    | inr m => Some {| columns := WL :: map exp_label (seq 0 (length fs)); rows := rows m |}
    | inl _ => None
    end
  end.

(** The row of statistics of a row of a composed table: its key, then the
    minimum, the maximum, the mean and the sample standard deviation of its
    other cells. *)
Definition stats_row (r : list float) : list float :=
  [cell r 0; nanmin (tl r); nanmax (tl r); nanmean (tl r); nanstd (tl r)].

Definition stats_labels : list string := [WL; "min"; "max"; "mean"; "std"].

Definition stats_of (t : DataFrame) : DataFrame :=
  {| columns := stats_labels; rows := map stats_row (rows t) |}.



(** The table a group has composed: the frame its data attribute names. *)
Definition composed_table (w : world) (g : ref) : option DataFrame :=
  match groups w !! g with
  | Some grp => match grp_data grp with Some d => frames w !! d | None => None end
  | None => None
  end.

Definition stats_table (w : world) (g : ref) : option DataFrame :=
  match groups w !! g with
  | Some grp => match grp_stats grp with Some d => frames w !! d | None => None end
  | None => None
  end.

Definition loaded_bool (w : world) (e : ref) : bool :=
  match exp_frame_ref w e with Some _ => true | None => false end.

Definition not_loaded_msg (index : nat) : string :=
  String.append "Experiment at index " (String.append (str_of_nat index) " was not loaded").

(** The class of a key: the two zeros are one key. *)
Definition kclass (x : spec_float) : spec_float :=
  match x with S754_zero _ => S754_zero false | _ => x end.

Fixpoint last_char (s : string) : option ascii :=
  match s with
  | EmptyString => None
  | String c r => match last_char r with Some d => Some d | None => Some c end
  end.

Definition set_data (grp : SpectGroup) (d : ref) : SpectGroup :=
  {| grp_expList := grp_expList grp; grp_plotConf := grp_plotConf grp;
     grp_data := Some d; grp_stats := grp_stats grp;
     grp_outPath := grp_outPath grp; grp_name := grp_name grp |}.

(** The store after a successful [Compose]. *)
Definition composed_world (w : world) (g : ref) (grp : SpectGroup) (ds : list ref)
           (t : DataFrame) : world :=
  match ds with
  | [d] => with_groups (with_frames w (<[d := t]> (frames w))) (<[g := set_data grp d]> (groups w))
  | _ => with_groups (with_frames w (frames w ++ [t]))
                     (<[g := set_data grp (length (frames w))]> (groups w))
  end.

(** ** Example stores *)

Definition LF : string := String "010" EmptyString.
Definition TAB : ascii := "009"%char.

(** A line of text, and a data row of two tab-separated fields. *)
Definition text_line (s : string) : string := String.append s LF.
Definition data_row (a b : string) : string :=
  String.append a (String TAB (String.append b LF)).

(** A conversion for the examples: it reads unsigned decimal integers, on
    which the reader's conversion gives the same number, and rejects
    every other text. *)
Fixpoint digits_value (s : string) (acc : nat) : option nat :=
  match s with
  | EmptyString => Some acc
  | String c r =>
    let n := nat_of_ascii c in
    if (48 <=? n)%nat && (n <=? 57)%nat then digits_value r (10 * acc + (n - 48)) else None
  end.

Definition cast_digits (s : string) : option float :=
  match s with
  | EmptyString => None
  | _ => option_map of_nat (digits_value s 0)
  end.

Definition loaded_exp (d : ref) : SpectExp :=
  {| exp_plotConf := 0; exp_data := Some d; exp_metaInfo := Some []; exp_sourceFile := None;
     exp_outputPath := None; exp_name := None; exp_saveFormat := "png" |}.

Definition unloaded_exp (src : string) : SpectExp :=
  {| exp_plotConf := 0; exp_data := None; exp_metaInfo := None; exp_sourceFile := Some src;
     exp_outputPath := None; exp_name := None; exp_saveFormat := "png" |}.

Definition measure_table (rs : list (list float)) : DataFrame :=
  {| columns := [WL; "Measure"]; rows := rs |}.

Definition group_of (es : list ref) (name : string) : SpectGroup :=
  {| grp_expList := es; grp_plotConf := 0; grp_data := None; grp_stats := None;
     grp_outPath := Some "out"; grp_name := Some name |}.

(** A store with one loaded experiment per table and one group of them all. *)
Definition world_of (tables : list (list (list float))) : world :=
  {| frames := map measure_table tables;
     exps := map loaded_exp (seq 0 (length tables));
     groups := [group_of (seq 0 (length tables)) "Run"];
     confs := 1; files := []; dirs := ["out"] |}.

(** Three loaded experiments with the key columns [1,2,3], [2,3,4] and
    [1,2,3,4], three experiments still to be loaded from files, a group of
    the loaded ones, a group of two of them, and a group that holds an
    unloaded experiment. *)
Definition demo_world : world :=
  {| frames := [measure_table [[1; 10]; [2; 20]; [3; 30]]%float;
                measure_table [[2; 21]; [3; 31]; [4; 41]]%float;
                measure_table [[1; 12]; [2; 22]; [3; 32]; [4; 42]]%float];
     exps := [loaded_exp 0; loaded_exp 1; loaded_exp 2;
              unloaded_exp "spectrum.txt"; unloaded_exp "short.txt"; unloaded_exp "bad.txt"];
     groups := [group_of [0; 1; 2] "Run"; group_of [0; 1] "Subgroup #1 of Run";
                group_of [0; 3] "Partial"];
     confs := 1;
     files := [("spectrum.txt", [text_line "meta1"; text_line "meta2"; text_line "BEGIN";
                                 data_row "1" "2"; data_row "3" "4"; data_row "5" "6"]);
               ("short.txt", [data_row "1" "2"; text_line "3"]);
               ("bad.txt", [data_row "1" "2"; data_row "x" "4"])];
     dirs := ["out"] |}.

Definition set_stats (grp : SpectGroup) (s : ref) : SpectGroup :=
  {| grp_expList := grp_expList grp; grp_plotConf := grp_plotConf grp;
     grp_data := grp_data grp; grp_stats := Some s;
     grp_outPath := grp_outPath grp; grp_name := grp_name grp |}.

(** The store after [genStats] on a composed group. *)
Definition stats_world (w : world) (g : ref) (grp : SpectGroup) (t : DataFrame) : world :=
  with_groups (with_frames w (frames w ++ [stats_of t]))
              (<[g := set_stats grp (length (frames w))]> (groups w)).

(** Computations that only read the store. *)
Definition reads {A} (m : M A) : Prop := forall w r w', m w = (r, w') -> w' = w.

(** The one change [Compose] makes to a frame that exists already: the
    two-column frame of the only experiment of the group gets the labels
    of a composed table. *)
Definition relabelled (f f' : DataFrame) : Prop :=
  f' = f \/ (length (columns f) = 2 /\ f' = {| columns := [WL; exp_label 0]; rows := rows f |}).

(** What a method of the group [g] may change in the store. *)
Definition touches_only (g : ref) (w w' : world) : Prop :=
  (forall g', g' <> g -> groups w' !! g' = groups w !! g')
  /\ exps w' = exps w
  /\ (forall l f, frames w !! l = Some f ->
                  exists f', frames w' !! l = Some f' /\ relabelled f f').

(** The parent group of the example store, composed and with statistics,
    before and after [genStats()] on the subgroup of its first two
    experiments. *)
Definition parent_ready : world := snd (SpectGroup.genStats 0 demo_world).

(** The lines [readFile] hands to the reader, if it reaches the call. *)
Definition reader_input (begin_line : option string) (lines : list string) : option (list string) :=
  match begin_line with
  | None => Some lines
  | Some s => snd (scan_header s lines false [])
  end.

(** A line the reader does not skip. *)
Definition nonblank (d : ascii) (line : string) : bool := negb (blank_line d (strip_newline line)).

(** A well-formed data row: two fields, both non-empty and castable. *)
Definition row_cells (cast : string -> option float) (d : ascii) (line : string)
  : option (list float) :=
  match split_on d (strip_newline line) with
  | [a; b] =>
    if String.eqb a "" || String.eqb b "" then None
    else match cast a, cast b with
         | Some x, Some y => Some [x; y]
         | _, _ => None
         end
  | _ => None
  end.

Definition row_ok (cast : string -> option float) (d : ascii) (line : string) : bool :=
  match row_cells cast d line with Some _ => true | None => false end.




Definition set_loaded (ex : SpectExp) (meta : list string) (r : ref) : SpectExp :=
  {| exp_plotConf := exp_plotConf ex; exp_data := Some r; exp_metaInfo := Some meta;
     exp_sourceFile := exp_sourceFile ex; exp_outputPath := exp_outputPath ex;
     exp_name := exp_name ex; exp_saveFormat := exp_saveFormat ex |}.

(** The store after a successful [readFile]. *)
Definition loaded_world (w : world) (e : ref) (ex : SpectExp) (meta names : list string)
           (rs : list (list float)) : world :=
  with_exps (with_frames w (frames w ++ [{| columns := [WL; nth 1 names ""]; rows := rs |}]))
            (<[e := set_loaded ex meta (length (frames w))]> (exps w)).

Definition set_meta (ex : SpectExp) (meta : list string) : SpectExp :=
  {| exp_plotConf := exp_plotConf ex; exp_data := exp_data ex; exp_metaInfo := Some meta;
     exp_sourceFile := exp_sourceFile ex; exp_outputPath := exp_outputPath ex;
     exp_name := exp_name ex; exp_saveFormat := exp_saveFormat ex |}.

Definition set_exp_data (ex : SpectExp) (r : ref) : SpectExp :=
  {| exp_plotConf := exp_plotConf ex; exp_data := Some r; exp_metaInfo := exp_metaInfo ex;
     exp_sourceFile := exp_sourceFile ex; exp_outputPath := exp_outputPath ex;
     exp_name := exp_name ex; exp_saveFormat := exp_saveFormat ex |}.

(** The order of finite numbers of one sign, on exponent and mantissa. *)
Definition lex_le (e1 : Z) (m1 : positive) (e2 : Z) (m2 : positive) : Prop :=
  (e1 < e2)%Z \/ (e1 = e2 /\ (m1 <= m2)%positive).

(** What holds of a row [sr] of statistics of a row [r] of a composed
    table: its minimum and maximum bound every value of the row that is not
    NaN, its standard deviation is NaN or not below zero, and is NaN when
    the row has at most one value. *)
Definition stats_bounds (r sr : list float) : Prop :=
  (forall x, In x (notnan (tl r)) ->
             (cell sr 1 <=? x)%float = true /\ (x <=? cell sr 2)%float = true)
  /\ (notnan (tl r) <> [] -> (cell sr 1 <=? cell sr 2)%float = true)
  /\ (is_nan (cell sr 4) = true \/ (0 <=? cell sr 4)%float = true)
  /\ (length (tl r) <= 1 -> is_nan (cell sr 4) = true).

(** The group of the three loaded experiments of the example store, composed. *)
Definition composed_demo : world := snd (SpectGroup.Compose 0 demo_world).

(** The binary64 number nearest to 0.1. *)
Definition tenth : float := 0x1.999999999999ap-4%float.

(** ** Labels under the suffix of the join *)

(** The label of the value column of an experiment's table. *)
Definition value_label (f : DataFrame) : string := nth 1 (columns f) "".

(** The label [l] of a table joined with a table whose value label is [c]. *)
Definition suffixed (c l : string) : string := if String.eqb c l then String.append l "_" else l.

(** The labels of the join of a table labelled [cols] with an experiment's
    table whose value label is [v]. *)
Definition join_labels (cols : list string) (v : string) : list string :=
  map (suffixed v) cols ++ [if has_label v cols then String.append v "_" else v].

(** The suffix repeats no label when [v] joins [cols]: [v] is not among
    the labels, or [v] with the suffix is not. *)
Definition join_fits (cols : list string) (v : string) : bool :=
  negb (has_label v cols && has_label (String.append v "_") cols).

Fixpoint labels_fit (cols : list string) (vs : list string) : bool :=
  match vs with
  | [] => true
  | v :: r => join_fits cols v && labels_fit (join_labels cols v) r
  end.

(** The tables of a list can be joined one after the other without the
    suffix ever repeating a label. *)
Definition suffixes_fit (fs : list DataFrame) : bool :=
  match fs with
  | [] => true
  | f :: rest => labels_fit (columns f) (map value_label rest)
  end.

(** All the tables carry one and the same value label. *)
Definition same_label (fs : list DataFrame) : bool :=
  match fs with
  | [] => true
  | f :: rest => forallb (fun f' => String.eqb (value_label f') (value_label f)) rest
  end.

(** ** The statistics in the words of the specification *)

(** The values of a row of a composed table that are not NaN. *)
Definition row_values (r : list float) : list float :=
  List.filter (fun x => negb (is_nan x)) (tl r).

(** Written from the specification: the mean of the values is their sum
    divided by their number. *)
Definition spec_mean (xs : list float) : float :=
  (fold_left PrimFloat.add xs 0 / of_nat (length xs))%float.

(** Written from the specification: the sample standard deviation, the
    square root of the sum of the squared deviations from the mean divided
    by the number of values less one. *)
Definition spec_std (xs : list float) : float :=
  PrimFloat.sqrt
    (fold_left PrimFloat.add (map (fun x => ((spec_mean xs - x) * (spec_mean xs - x))%float) xs) 0
     / of_nat (length xs - 1))%float.

(** What the row [sr] of statistics says of the row [r] of a composed
    table: the key is copied; the minimum and the maximum are values of the
    row that bound all its values, NaN cells apart; for a row of fewer than
    eight cells the mean and the standard deviation are those of the
    specification over the values that are not NaN, the latter NaN when
    there is at most one such value. *)
Definition stats_spec (r sr : list float) : Prop :=
  let xs := row_values r in
  length sr = 5
  /\ cell sr 0 = cell r 0
  /\ (xs = [] -> is_nan (cell sr 1) = true /\ is_nan (cell sr 2) = true
                 /\ is_nan (cell sr 3) = true)
  /\ (xs <> [] -> In (cell sr 1) xs /\ In (cell sr 2) xs
                  /\ forall x, In x xs -> (cell sr 1 <=? x)%float = true
                                          /\ (x <=? cell sr 2)%float = true)
  /\ (length (tl r) < 8 -> xs <> [] -> cell sr 3 = spec_mean xs)
  /\ (length xs <= 1 -> is_nan (cell sr 4) = true)
  /\ (length (tl r) < 8 -> 2 <= length xs -> cell sr 4 = spec_std xs).

(** ** Readers and dictionaries of the examples *)

(** The examples ask for float64 under both names, so that the reader for
    other dictionaries is never called: it is given as refusing. *)
Definition no_other_reader (d : ascii) (names : list string)
           (convert_dict : option (list (string * dtype))) (lines : list string)
  : result (list (list float)) :=
  inl (Raise NotImplementedError "dtype").

Definition measure_dtypes : option (list (string * dtype)) :=
  Some [(WL, Float64); ("Measure", Float64)].

(** The dictionary of [SpectExp.default_read_dict]: its keys are not the
    column names. *)
Definition default_convert_dict : option (list (string * dtype)) :=
  Some [("A", Float64); ("B", Float64)].

(** ** What the further properties speak of *)

(** The metadata [readFile] stores: none without a sentinel, else the
    lines the loop gathered. *)
Definition header_meta (begin_line : option string) (lines : list string) : list string :=
  match begin_line with
  | None => []
  | Some s => fst (scan_header s lines false [])
  end.

Definition unbound_read : pyexc :=
  Raise UnboundLocalError "local variable 'pandas_read' referenced before assignment".

(** A store with one experiment still to be loaded from a file of three
    rows, alone in its group. *)
Definition table_world : world :=
  {| frames := []; exps := [unloaded_exp "table.txt"]; groups := [group_of [0] "Single"];
     confs := 1;
     files := [("table.txt", [data_row "1" "2"; data_row "3" "4"; data_row "5" "6"])];
     dirs := ["out"] |}.

(** What a method of an experiment leaves alone: the groups, and every
    frame the store held before the call. *)
Definition keeps_tables (w w' : world) : Prop :=
  groups w' = groups w
  /\ forall l f, frames w !! l = Some f -> frames w' !! l = Some f.

Definition empty_reduce : pyexc :=
  Raise TypeError "reduce() of empty iterable with no initial value".

Definition is_exp (v : pyval) : bool := match v with PyExp _ => true | _ => false end.

(** The message of [setExpList] for the value [v] at position [index]. *)
Definition not_exp_msg (v : pyval) (index : nat) : string :=
  String.append "Each experiment in the new spectral experiments needs to be of type SpectExp. Got "
    (String.append (type_name v) (String.append " at index" (str_of_nat index))).

(** The position a Python list index names in a list of [n] elements: a
    negative index counts from the end. *)
Definition norm_index (n : nat) (z : Z) : nat :=
  Z.to_nat (if (z <? 0)%Z then z + Z.of_nat n else z).

Definition index_ok (n : nat) (z : Z) : Prop := (- Z.of_nat n <= z < Z.of_nat n)%Z.

Definition out_of_range_msg (index : nat) : string :=
  String.append "All indexes must be within range. Index "
                (String.append (str_of_nat index) " was out of range").

(** The example store with one more group, which holds no experiment. *)
Definition empty_group_world : world := snd (SpectGroup.new demo_world).

(** The group the root constructor builds from its four arguments. *)
Definition built_group (es : list ref) (c : ref) (p n : string) : SpectGroup :=
  {| grp_expList := es; grp_plotConf := c; grp_data := None; grp_stats := None;
     grp_outPath := Some p; grp_name := Some n |}.

(** The cell of a row of a composed table for the experiment at position
    [i] comes from the row [ri] of that experiment: the keys are equal, the
    value is the one of [ri]. *)
Definition cell_from (r : list float) (i : nat) (ri : list float) : Prop :=
  key_eqb (cell r 0) (cell ri 0) = true /\ cell r (S i) = cell ri 1.

Definition cells_from (t : DataFrame) (fs : list DataFrame) : Prop :=
  forall r, In r (rows t) ->
    forall i f, fs !! i = Some f -> exists ri, In ri (rows f) /\ cell_from r i ri.

(** The two lists of a configurator have two entries each, and every
    range has two ends.  [preOps] and [postOps] index them so. *)
Definition conf_ok (c : plotConf.conf) : Prop :=
  length (plotConf.axis_titles c) = 2
  /\ length (plotConf.axis_ranges c) = 2
  /\ Forall (fun v => plotConf.py_len v = inr 2) (plotConf.axis_ranges c).

(** The first [k] entries of a list replaced by those of [l]. *)
Definition overwrite {A} (l old : list A) : list A := l ++ drop (length l) old.

Definition range_pair (p : pyval * pyval) : pyval := PyList [fst p; snd p].

Fixpoint has_char (c : ascii) (s : string) : bool :=
  match s with
  | EmptyString => false
  | String a r => Ascii.eqb a c || has_char c r
  end.

Definition add_exp (grp : SpectGroup) (e : ref) : SpectGroup :=
  {| grp_expList := grp_expList grp ++ [e]; grp_plotConf := grp_plotConf grp;
     grp_data := None; grp_stats := None;
     grp_outPath := grp_outPath grp; grp_name := grp_name grp |}.

(** * Properties *)

(** ** Mutators clear the caches *)

(** C8.  After [addExp] or [setExpList] has run on a group, that group has
    neither composed data nor statistics: [isComposed()] and [isStats()]
    both answer [False], and the record list is the appended, respectively
    the replaced, one. *)
Theorem mutators_clear_caches (w : world) (g : ref) (grp : SpectGroup) :
  groups w !! g = Some grp ->
  (forall e : ref,
      exists w', SpectGroup.addExp g (PyExp e) w = (inr tt, w')
                 /\ SpectGroup.getExpList g w' = (inr (grp_expList grp ++ [e]), w')
                 /\ group_composed w' g = Some false
                 /\ group_has_stats w' g = Some false)
  /\ (forall es : list ref,
         exists w', SpectGroup.setExpList g (map PyExp es) w = (inr tt, w')
                    /\ SpectGroup.getExpList g w' = (inr es, w')
                    /\ group_composed w' g = Some false
                    /\ group_has_stats w' g = Some false).
Proof.
  intros Hg.
  assert (Hlt : g < length (groups w)) by (eapply lookup_lt_Some; eauto).
  split.
  - intros e. eexists. split.
    + unfold SpectGroup.addExp, bind, get_group, put_group. rewrite Hg. reflexivity.
    + unfold SpectGroup.getExpList, group_composed, group_has_stats,
        SpectGroup.isComposed, SpectGroup.isStats, SpectGroup.getData, SpectGroup.getStats,
        bind, get_group, ret. simpl.
      rewrite list_lookup_insert_eq by exact Hlt. simpl. auto.
  - intros es.
    assert (Hck : forall i, SpectGroup.check_exps (map PyExp es) i = inr es).
    { induction es as [|e es IH]; intros i; simpl; [reflexivity|]. rewrite IH. reflexivity. }
    eexists. split.
    + unfold SpectGroup.setExpList, bind, lift, get_group, put_group.
      rewrite Hck, Hg. reflexivity.
    + unfold SpectGroup.getExpList, group_composed, group_has_stats,
        SpectGroup.isComposed, SpectGroup.isStats, SpectGroup.getData, SpectGroup.getStats,
        bind, get_group, ret. simpl.
      rewrite list_lookup_insert_eq by exact Hlt. simpl. auto.
Qed.

(** ** Running the small steps *)

Lemma list_getitem_nat {A} (l : list A) (k : nat) (x : A) :
  l !! k = Some x -> list_getitem l (PyInt (Z.of_nat k)) = inr x.
Proof.
  intros H. unfold list_getitem.
  destruct (Z.ltb_spec (Z.of_nat k) 0) as [Hneg|_]; [lia|].
  destruct (Z.ltb_spec (Z.of_nat k) 0) as [Hneg|_]; [lia|].
  rewrite Nat2Z.id, H. reflexivity.
Qed.

Lemma getExp_run (w : world) (g : ref) (grp : SpectGroup) (k : nat) (e : ref) :
  groups w !! g = Some grp -> grp_expList grp !! k = Some e ->
  SpectGroup.getExp g (PyInt (Z.of_nat k)) w = (inr e, w).
Proof.
  intros Hg He. unfold SpectGroup.getExp, bind, get_group, lift.
  rewrite Hg. rewrite (list_getitem_nat _ _ _ He). reflexivity.
Qed.

Lemma isLoaded_run (w : world) (e : ref) (ex : SpectExp) :
  exps w !! e = Some ex -> SpectExp.isLoaded e w = (inr (loaded_bool w e), w).
Proof.
  intros He. unfold SpectExp.isLoaded, SpectExp.getData, bind, get_exp, ret, loaded_bool, exp_frame_ref.
  rewrite He. destruct (exp_data ex); reflexivity.
Qed.

(** The first loop of [__Compose] stops at the first experiment that is
    not loaded and leaves the store alone. *)
Lemma check_loaded_run (w : world) (g : ref) (grp : SpectGroup) :
  groups w !! g = Some grp ->
  Forall (fun e => is_Some (exps w !! e)) (grp_expList grp) ->
  forall n k, k + n <= length (grp_expList grp) ->
    SpectGroup.check_loaded g (seq k n) w =
    match find (fun j => match grp_expList grp !! j with
                         | Some e => negb (loaded_bool w e)
                         | None => true
                         end) (seq k n) with
    | None => (inr tt, w)
    | Some j => (inl (Raise ValueError (not_loaded_msg j)), w)
    end.
Proof.
  intros Hg Hall. induction n as [|n IH]; intros k Hk; [reflexivity|].
  destruct (lookup_lt_is_Some_2 (grp_expList grp) k ltac:(lia)) as [e He].
  assert (Hex : is_Some (exps w !! e)).
  { exact (Forall_lookup_1 _ _ _ _ Hall He). }
  destruct Hex as [ex Hex].
  cbn [seq SpectGroup.check_loaded find]. unfold bind at 1.
  rewrite (getExp_run _ _ _ _ _ Hg He). unfold bind at 1.
  rewrite (isLoaded_run _ _ _ Hex). rewrite He.
  destruct (loaded_bool w e); simpl.
  - apply IH. lia.
  - reflexivity.
Qed.

Lemma find_seq_first (f : nat -> bool) (n k j : nat) :
  find f (seq k n) = Some j ->
  k <= j < k + n /\ f j = true /\ forall j', k <= j' < j -> f j' = false.
Proof.
  revert k. induction n as [|n IH]; intros k; simpl; [discriminate|].
  destruct (f k) eqn:Hfk.
  - intros [= <-]. repeat split; auto; lia.
  - intros H. destruct (IH _ H) as (Hr & Hj & Hfirst).
    repeat split; auto; try lia.
    intros j' Hj'. destruct (Nat.eq_dec j' k) as [->|Hne]; [exact Hfk|].
    apply Hfirst. lia.
Qed.

Lemma find_seq_none (f : nat -> bool) (n k : nat) :
  find f (seq k n) = None -> forall j, k <= j < k + n -> f j = false.
Proof.
  revert k. induction n as [|n IH]; intros k; simpl; [intros; lia|].
  destruct (f k) eqn:Hfk; [discriminate|].
  intros H j Hj. destruct (Nat.eq_dec j k) as [->|Hne]; [exact Hfk|].
  apply (IH _ H). lia.
Qed.

(** ** Composing a group that holds an unloaded experiment *)

(** C5.  When some experiment of the group is not loaded, [Compose()]
    raises a [ValueError] whose message names the index of the first such
    experiment, and the store is exactly what it was before the call; in
    particular the data and the statistics of the group are untouched. *)
Theorem Compose_unloaded_fails (w : world) (g : ref) (grp : SpectGroup) :
  groups w !! g = Some grp ->
  Forall (fun e => is_Some (exps w !! e)) (grp_expList grp) ->
  Exists (fun e => loaded_bool w e = false) (grp_expList grp) ->
  exists (i : nat) (e : ref),
    grp_expList grp !! i = Some e
    /\ loaded_bool w e = false
    /\ (forall j e', j < i -> grp_expList grp !! j = Some e' -> loaded_bool w e' = true)
    /\ SpectGroup.Compose g w = (inl (Raise ValueError (not_loaded_msg i)), w).
Proof.
  intros Hg Hall Hex.
  pose (f := fun j => match grp_expList grp !! j with
                      | Some e => negb (loaded_bool w e)
                      | None => true
                      end).
  assert (Hrun : SpectGroup.Compose g w =
                 match find f (seq 0 (length (grp_expList grp))) with
                 | None => SpectGroup.Compose g w
                 | Some j => (inl (Raise ValueError (not_loaded_msg j)), w)
                 end).
  { destruct (find f (seq 0 (length (grp_expList grp)))) as [j|] eqn:Hf; [|reflexivity].
    unfold SpectGroup.Compose, SpectGroup.getExpList, bind at 1 2, get_group, ret.
    rewrite Hg. unfold SpectGroup.Compose_, bind at 1.
    rewrite (check_loaded_run w g grp Hg Hall _ 0) by lia.
    fold f. rewrite Hf. reflexivity. }
  destruct (find f (seq 0 (length (grp_expList grp)))) as [j|] eqn:Hf.
  - destruct (find_seq_first _ _ _ _ Hf) as (Hr & Hj & Hfirst).
    destruct (lookup_lt_is_Some_2 (grp_expList grp) j ltac:(lia)) as [e He].
    exists j, e. repeat split; auto.
    + unfold f in Hj. rewrite He in Hj. destruct (loaded_bool w e); [discriminate|reflexivity].
    + intros j' e' Hlt He'. specialize (Hfirst j' ltac:(lia)). unfold f in Hfirst.
      rewrite He' in Hfirst. destruct (loaded_bool w e'); [reflexivity|discriminate].
  - exfalso. apply Exists_exists in Hex as (e & Hin & Hun).
    apply list_elem_of_In, list_elem_of_lookup_1 in Hin as [i Hi].
    pose proof (lookup_lt_Some _ _ _ Hi) as Hlt.
    pose proof (find_seq_none _ _ _ Hf i ltac:(lia)) as Hfi.
    unfold f in Hfi. rewrite Hi, Hun in Hfi. discriminate.
Qed.

(** ** Keys: equality of binary64 join keys is an equivalence *)

Lemma SFcompare_refl (x : spec_float) : x <> S754_nan -> SFcompare x x = Some Eq.
Proof.
  destruct x as [s|s| |s m e]; simpl; try congruence; intros _.
  - destruct s; reflexivity.
  - rewrite Z.compare_refl, Pos.compare_cont_refl. destruct s; reflexivity.
Qed.

Lemma SFcompare_Eq_inv (x y : spec_float) :
  SFcompare x y = Some Eq ->
  x = y \/ (exists s1 s2, x = S754_zero s1 /\ y = S754_zero s2).
Proof.
  destruct x as [s1|s1| |s1 m1 e1], y as [s2|s2| |s2 m2 e2]; simpl;
    try discriminate; try (destruct s1; discriminate); try (destruct s2; discriminate).
  - intros _. right. eauto.
  - destruct s1, s2; try discriminate; auto.
  - change (Pos.compare_cont Eq m1 m2) with (Pos.compare m1 m2).
    destruct s1, s2; try discriminate;
      destruct (Z.compare_spec e1 e2); try discriminate; subst;
      destruct (Pos.compare_spec m1 m2); try discriminate; subst; auto.
Qed.

Lemma is_nan_spec (a : float) : is_nan a = true <-> Prim2SF a = S754_nan.
Proof.
  unfold is_nan. rewrite FloatAxioms.eqb_spec. unfold SFeqb.
  destruct (Prim2SF a) as [s|s| |s m e] eqn:E.
  all: try (rewrite SFcompare_refl by discriminate; simpl; split; [discriminate|discriminate]).
  simpl. split; auto.
Qed.

Lemma key_eqb_class (a b : float) :
  key_eqb a b = true <-> kclass (Prim2SF a) = kclass (Prim2SF b).
Proof.
  unfold key_eqb. rewrite orb_true_iff, andb_true_iff, !is_nan_spec, FloatAxioms.eqb_spec.
  unfold SFeqb. split.
  - intros [H|[Ha Hb]].
    + destruct (SFcompare (Prim2SF a) (Prim2SF b)) as [[| |]|] eqn:E; try discriminate.
      apply SFcompare_Eq_inv in E as [->|(s1 & s2 & -> & ->)]; reflexivity.
    + rewrite Ha, Hb. reflexivity.
  - intros H. destruct (Prim2SF a) as [s1|s1| |s1 m1 e1], (Prim2SF b) as [s2|s2| |s2 m2 e2];
      simpl in H; try discriminate; auto.
    + injection H as ->. left. rewrite SFcompare_refl by discriminate. reflexivity.
    + injection H as -> -> ->. left. rewrite SFcompare_refl by discriminate. reflexivity.
Qed.

Lemma key_eqb_refl a : key_eqb a a = true.
Proof. apply key_eqb_class. reflexivity. Qed.

Lemma key_eqb_euclid a b c : key_eqb a b = true -> key_eqb a c = true -> key_eqb b c = true.
Proof. rewrite !key_eqb_class. congruence. Qed.

Lemma last_char_append (l : string) (c : ascii) :
  last_char (String.append l (String c EmptyString)) = Some c.
Proof. induction l as [|a l IH]; simpl; [reflexivity|]. rewrite IH. reflexivity. Qed.

Lemma suffixed_not_key (l : string) : String.append l "_" <> WL.
Proof.
  intros H. apply (f_equal last_char) in H. rewrite last_char_append in H.
  vm_compute in H. discriminate.
Qed.

(** ** The inner join of keyed tables *)

Lemma positions_absent lbl cols i : has_label lbl cols = false -> positions lbl cols i = [].
Proof.
  revert i. induction cols as [|c cols IH]; intros i; simpl; [reflexivity|].
  intros H. apply orb_false_iff in H as [-> H]. auto.
Qed.

Lemma keyed_inv f :
  keyed f = true ->
  exists vs, columns f = WL :: vs /\ has_label WL vs = false /\ frame_rect f = true.
Proof.
  unfold keyed. intros H. apply andb_true_iff in H as [H Hr].
  destruct (columns f) as [|c vs]; [discriminate|].
  apply andb_true_iff in H as [Hc Hv]. apply String.eqb_eq in Hc. subst c.
  exists vs. repeat split; auto. destruct (has_label WL vs); [discriminate|reflexivity].
Qed.

Lemma key_pos_keyed f : keyed f = true -> key_pos (columns f) = inr 0.
Proof.
  intros H. destruct (keyed_inv _ H) as (vs & -> & Hv & _).
  unfold key_pos. simpl. rewrite (positions_absent _ _ _ Hv). reflexivity.
Qed.

Lemma has_label_map_ren (ren : string -> string) vs :
  (forall l, ren l = l \/ ren l = String.append l "_") ->
  has_label WL vs = false -> has_label WL (map ren vs) = false.
Proof.
  intros Hren. induction vs as [|v vs IH]; simpl; [reflexivity|].
  intros H. apply orb_false_iff in H as [Hv H]. rewrite (IH H), orb_false_r.
  destruct (Hren v) as [->| ->]; [exact Hv|].
  apply String.eqb_neq. apply suffixed_not_key.
Qed.

Lemma has_label_app lbl a b : has_label lbl (a ++ b) = has_label lbl a || has_label lbl b.
Proof. unfold has_label. apply existsb_app. Qed.

Lemma exp_table_ok_keyed f : exp_table_ok f = true -> keyed f = true.
Proof. unfold exp_table_ok. intros H. apply andb_true_iff in H as [H _]. exact H. Qed.

Lemma merge_keyed (x y m : DataFrame) :
  keyed x = true -> exp_table_ok y = true -> merge x y = inr m ->
  keyed m = true
  /\ length (columns m) = S (length (columns x))
  /\ rows m = join_rows (rows x) (rows y).
Proof.
  intros Hx Hy. unfold exp_table_ok in Hy. apply andb_true_iff in Hy as [Hy Hy2].
  apply Nat.eqb_eq in Hy2.
  unfold merge. rewrite (key_pos_keyed _ Hx), (key_pos_keyed _ Hy).
  destruct (keyed_inv _ Hx) as (vx & Ex & Hvx & Rx).
  destruct (keyed_inv _ Hy) as (vy & Ey & Hvy & Ry).
  rewrite Ey in Hy2. destruct vy as [|c [|? ?]]; try discriminate. clear Hy2.
  destruct (_ || _); [discriminate|]. intros [= <-].
  rewrite Ex, Ey. cbn [delete list_delete].
  set (ren := fun l : string => if has_label l (WL :: vx) && has_label l [c] then String.append l "_" else l).
  assert (Hren : forall l, ren l = l \/ ren l = String.append l "_").
  { intros l. unfold ren. destruct (_ && _); auto. }
  assert (HW : ren WL = WL).
  { unfold ren. rewrite Hvy, andb_false_r. reflexivity. }
  repeat split.
  - unfold keyed. cbn [columns rows].
    change (map ren (WL :: vx) ++ map ren [c]) with (ren WL :: (map ren vx ++ map ren [c])).
    rewrite HW, String.eqb_refl. cbn [andb].
    rewrite has_label_app, (has_label_map_ren ren vx Hren Hvx), (has_label_map_ren ren [c] Hren Hvy).
    cbn [orb negb andb].
    unfold frame_rect. cbn [columns rows]. apply forallb_forall. intros r Hr.
    apply in_flat_map in Hr as (rx & Hrx & Hr). apply in_map_iff in Hr as (ry & <- & Hry).
    apply filter_In in Hry as [Hry _].
    unfold frame_rect in Rx, Ry. rewrite forallb_forall in Rx, Ry.
    specialize (Rx _ Hrx). specialize (Ry _ Hry). apply Nat.eqb_eq in Rx, Ry.
    rewrite Ex in Rx. rewrite Ey in Ry. apply Nat.eqb_eq.
    destruct ry as [|k ry]; [discriminate|]. cbn [delete list_delete].
    cbn [length] in *. rewrite !length_app, !length_map. cbn [length]. lia.
  - cbn [columns]. rewrite !length_app, !length_map. simpl. lia.
Qed.

(** *** When the suffix repeats no label *)

Lemma append_underscore_neq (c : string) : String.append c "_" <> c.
Proof.
  induction c as [|a c IH]; simpl; [discriminate|]. intros [= H]. auto.
Qed.

Lemma suffixed_clash (c a b : string) :
  suffixed c b = suffixed c a -> b <> a ->
  (a = c /\ b = String.append c "_") \/ (b = c /\ a = String.append c "_").
Proof.
  unfold suffixed. intros H Hne.
  destruct (String.eqb c b) eqn:Eb; destruct (String.eqb c a) eqn:Ea.
  - apply String.eqb_eq in Ea, Eb. congruence.
  - apply String.eqb_eq in Eb. subst b. right. auto.
  - apply String.eqb_eq in Ea. subst a. left. auto.
  - congruence.
Qed.

Lemma has_label_In (l : string) (cols : list string) : has_label l cols = true <-> In l cols.
Proof.
  unfold has_label. rewrite existsb_exists. split.
  - intros (x & Hx & E). apply String.eqb_eq in E. subst. exact Hx.
  - intros H. exists l. split; [exact H|apply String.eqb_refl].
Qed.

Lemma suffix_dups_both (c : string) (cols : list string) :
  forall seen,
    existsb (fun p : bool * bool => fst p && negb (snd p))
            (combine (duplicated (map (suffixed c) seen) (map (suffixed c) cols))
                     (duplicated seen cols)) = true ->
    In c (seen ++ cols) /\ In (String.append c "_") (seen ++ cols).
Proof.
  induction cols as [|a r IH]; intros seen H; [discriminate|].
  cbn [map duplicated combine existsb fst snd] in H. apply orb_true_iff in H as [H|H].
  - apply andb_true_iff in H as [H1 H2]. apply negb_true_iff in H2.
    apply has_label_In in H1. apply in_map_iff in H1 as (b & Hb & Hin).
    assert (Hne : b <> a).
    { intros ->. apply has_label_In in Hin. congruence. }
    destruct (suffixed_clash c a b Hb Hne) as [[-> ->]|[-> ->]];
      split; apply in_or_app; simpl; auto.
  - change (suffixed c a :: map (suffixed c) seen) with (map (suffixed c) (a :: seen)) in H.
    destruct (IH _ H) as [H1 H2]. split.
    + apply in_app_or in H1 as [[->|H1]|H1]; apply in_or_app; simpl; auto.
    + apply in_app_or in H2 as [[->|H2]|H2]; apply in_or_app; simpl; auto.
Qed.

Lemma value_label_ok (y : DataFrame) :
  exp_table_ok y = true ->
  columns y = [WL; value_label y] /\ String.eqb (value_label y) WL = false.
Proof.
  intros Hy. unfold exp_table_ok in Hy. apply andb_true_iff in Hy as [Hy Hy2].
  apply Nat.eqb_eq in Hy2. destruct (keyed_inv _ Hy) as (vy & Ey & Hvy & _).
  unfold value_label. rewrite Ey in *. destruct vy as [|c [|? ?]]; try discriminate.
  split; [reflexivity|]. simpl in Hvy. apply orb_false_iff in Hvy as [Hvy _]. exact Hvy.
Qed.

(** The join of a keyed table with the table of an experiment, when the
    suffix repeats no label. *)
Lemma merge_fits (x y : DataFrame) :
  keyed x = true -> exp_table_ok y = true ->
  join_fits (columns x) (value_label y) = true ->
  merge x y = inr {| columns := join_labels (columns x) (value_label y);
                     rows := join_rows (rows x) (rows y) |}.
Proof.
  intros Hx Hy Hfit. destruct (value_label_ok y Hy) as [Ey Hc].
  set (c := value_label y) in *.
  unfold merge. rewrite (key_pos_keyed _ Hx), (key_pos_keyed _ (exp_table_ok_keyed _ Hy)).
  rewrite Ey. cbn [delete list_delete].
  assert (Hmap : map (fun l : string => if has_label l (columns x) && has_label l [c]
                                        then String.append l "_" else l) (columns x)
                 = map (suffixed c) (columns x)).
  { apply map_ext_in. intros l Hl. apply has_label_In in Hl. rewrite Hl.
    unfold has_label, suffixed. cbn [existsb andb]. rewrite orb_false_r. reflexivity. }
  rewrite Hmap.
  assert (Hone : map (fun l : string => if has_label l (columns x) && has_label l [c]
                                        then String.append l "_" else l) [c]
                 = [if has_label c (columns x) then String.append c "_" else c]).
  { cbn [map has_label existsb]. rewrite String.eqb_refl. cbn [orb]. rewrite andb_true_r.
    reflexivity. }
  rewrite Hone.
  assert (Hleft : suffix_dups (columns x) (map (suffixed c) (columns x)) = false).
  { destruct (suffix_dups _ _) eqn:E; [|reflexivity].
    destruct (suffix_dups_both c (columns x) [] E) as [H1 H2]. simpl in H1, H2.
    apply has_label_In in H1, H2. unfold join_fits in Hfit. rewrite H1, H2 in Hfit.
    discriminate. }
  rewrite Hleft. reflexivity.
Qed.

Lemma key_mem_euclid k a l : key_eqb k a = true -> key_mem k l = true -> key_mem a l = true.
Proof.
  unfold key_mem. intros Hka H. apply existsb_exists in H as (b & Hb & Hkb).
  apply existsb_exists. exists b. split; [exact Hb|]. eapply key_eqb_euclid; eauto.
Qed.

Lemma matches_unique (k : float) (ys : list (list float)) :
  keys_unique (map cell0 ys) = true ->
  map (fun _ : list float => k) (List.filter (fun ry => key_eqb k (cell ry 0)) ys)
  = if key_mem k (map cell0 ys) then [k] else [].
Proof.
  induction ys as [|a ys IH]; simpl; [reflexivity|].
  intros H. apply andb_true_iff in H as [Ha Hu]. apply negb_true_iff in Ha.
  specialize (IH Hu). fold (cell0 a).
  destruct (key_eqb k (cell0 a)) eqn:Hk; simpl.
  - rewrite IH. destruct (key_mem k (map cell0 ys)) eqn:Hm; [|reflexivity].
    rewrite (key_mem_euclid _ _ _ Hk Hm) in Ha. discriminate.
  - exact IH.
Qed.

Lemma key_column_join (xs ys : list (list float)) :
  forallb (fun r => negb (length r =? 0)%nat) xs = true ->
  keys_unique (map cell0 ys) = true ->
  map cell0 (join_rows xs ys) = List.filter (fun k => key_mem k (map cell0 ys)) (map cell0 xs).
Proof.
  intros Hne Hu. induction xs as [|rx xs IH]; [reflexivity|].
  simpl in Hne. apply andb_true_iff in Hne as [Hrx Hne].
  unfold join_rows in *. cbn [flat_map map List.filter]. rewrite map_app, (IH Hne), map_map.
  destruct rx as [|k rx]; [discriminate|].
  change (map (fun ry => cell0 ((k :: rx) ++ delete 0 ry)))
    with (map (fun _ : list float => k)).
  change (cell (k :: rx) 0) with k. change (cell0 (k :: rx)) with k.
  rewrite (matches_unique k ys Hu).
  destruct (key_mem k (map cell0 ys)); reflexivity.
Qed.

Lemma filter_filter_and {A} (p q : A -> bool) (l : list A) :
  List.filter q (List.filter p l) = List.filter (fun x => p x && q x) l.
Proof.
  induction l as [|x l IH]; simpl; [reflexivity|].
  destruct (p x); simpl; [destruct (q x)|]; rewrite ?IH; reflexivity.
Qed.

Lemma keyed_rows_nonempty f :
  keyed f = true -> forallb (fun r => negb (length r =? 0)%nat) (rows f) = true.
Proof.
  intros H. destruct (keyed_inv _ H) as (vs & E & _ & R).
  unfold frame_rect in R. rewrite E in R. rewrite forallb_forall in R |- *.
  intros r Hr. specialize (R r Hr). apply Nat.eqb_eq in R. rewrite R. reflexivity.
Qed.

Lemma merge_all_keyed (fs : list DataFrame) :
  forall acc m, keyed acc = true -> forallb exp_table_ok fs = true ->
  merge_all acc (map Some fs) = inr m ->
  keyed m = true
  /\ length (columns m) = length (columns acc) + length fs
  /\ (forallb (fun f => keys_unique (key_column f)) fs = true ->
      key_column m = List.filter (fun k => forallb (key_mem k) (map key_column fs))
                                 (key_column acc)).
Proof.
  induction fs as [|f fs IH]; intros acc m Hacc Hfs Hm.
  - injection Hm as <-. repeat split; auto. intros _. simpl.
    induction (key_column acc) as [|k l IHl]; simpl; [reflexivity|]. rewrite <- IHl. reflexivity.
  - simpl in Hfs. apply andb_true_iff in Hfs as [Hf Hfs].
    cbn [map merge_all merge_obj] in Hm.
    destruct (merge acc f) as [e|m1] eqn:Hm1; [discriminate|].
    destruct (merge_keyed acc f m1 Hacc Hf Hm1) as (Hk1 & Hl1 & Hr1).
    destruct (IH m1 m Hk1 Hfs Hm) as (Hk & Hl & Hkeys).
    repeat split; auto.
    + rewrite Hl, Hl1. simpl. lia.
    + intros Hu. simpl in Hu. apply andb_true_iff in Hu as [Hu1 Hu].
      assert (E : key_column m1 = List.filter (fun k => key_mem k (key_column f)) (key_column acc)).
      { unfold key_column. rewrite Hr1.
        apply (key_column_join _ _ (keyed_rows_nonempty _ Hacc) Hu1). }
      rewrite (Hkeys Hu), E, filter_filter_and. reflexivity.
Qed.

Lemma merge_all_fits (fs : list DataFrame) :
  forall acc, keyed acc = true -> forallb exp_table_ok fs = true ->
  labels_fit (columns acc) (map value_label fs) = true ->
  exists m, merge_all acc (map Some fs) = inr m.
Proof.
  induction fs as [|f fs IH]; intros acc Hacc Hfs Hfit.
  - exists acc. reflexivity.
  - simpl in Hfs. apply andb_true_iff in Hfs as [Hf Hfs].
    cbn [map labels_fit] in Hfit. apply andb_true_iff in Hfit as [Hfit1 Hfit].
    pose proof (merge_fits acc f Hacc Hf Hfit1) as Hm1.
    destruct (merge_keyed acc f _ Hacc Hf Hm1) as (Hk1 & _ & _).
    destruct (IH _ Hk1 Hfs Hfit) as (m & Hm).
    exists m. cbn [map merge_all merge_obj]. rewrite Hm1. exact Hm.
Qed.

Lemma loaded_refs_lookup (w : world) (es : list ref) (ds : list ref) :
  loaded_refs w es = Some ds ->
  forall j e, es !! j = Some e -> loaded_bool w e = true /\ is_Some (exps w !! e).
Proof.
  revert ds. induction es as [|e0 es IH]; intros ds H j e Hj; [discriminate|].
  simpl in H. destruct (exp_frame_ref w e0) as [d|] eqn:Hd; [|discriminate].
  destruct (loaded_refs w es) as [ds'|] eqn:Hds; [|discriminate].
  destruct j as [|j]; simpl in Hj.
  - injection Hj as <-. unfold loaded_bool. rewrite Hd. split; [reflexivity|].
    unfold exp_frame_ref in Hd. destruct (exps w !! e0); [eauto|discriminate].
  - eapply IH; eauto.
Qed.

Lemma check_loaded_pass (w : world) (g : ref) (grp : SpectGroup) (ds : list ref) :
  groups w !! g = Some grp ->
  loaded_refs w (grp_expList grp) = Some ds ->
  SpectGroup.check_loaded g (seq 0 (length (grp_expList grp))) w = (inr tt, w).
Proof.
  intros Hg Hds.
  assert (Hall : Forall (fun e => is_Some (exps w !! e)) (grp_expList grp)).
  { apply Forall_lookup_2. intros j e Hj. eapply loaded_refs_lookup; eauto. }
  rewrite (check_loaded_run w g grp Hg Hall _ 0) by lia.
  match goal with |- context [find ?f ?l] => destruct (find f l) as [j|] eqn:Hf end; [|reflexivity].
  apply find_seq_first in Hf as (Hr & Hj & _).
  destruct (lookup_lt_is_Some_2 (grp_expList grp) j ltac:(lia)) as [e He].
  rewrite He in Hj. destruct (loaded_refs_lookup _ _ _ Hds _ _ He) as [Hl _].
  rewrite Hl in Hj. discriminate.
Qed.

Lemma data_of_run (w : world) (es ds : list ref) :
  loaded_refs w es = Some ds -> SpectGroup.data_of es w = (inr (map Some ds), w).
Proof.
  revert ds. induction es as [|e es IH]; intros ds H; simpl in H.
  - injection H as <-. reflexivity.
  - destruct (exp_frame_ref w e) as [d|] eqn:Hd; [|discriminate].
    destruct (loaded_refs w es) as [ds'|] eqn:Hds; [|discriminate].
    injection H as <-. cbn [SpectGroup.data_of]. unfold bind at 1.
    unfold SpectExp.getData, bind at 1, get_exp, ret. unfold exp_frame_ref in Hd.
    destruct (exps w !! e) as [ex|]; [|discriminate]. rewrite Hd.
    unfold bind. rewrite (IH _ eq_refl). reflexivity.
Qed.

Lemma get_frames_run (w : world) (ds : list ref) (fs : list DataFrame) :
  lookup_frames w ds = Some fs -> SpectGroup.get_frames (map Some ds) w = (inr (map Some fs), w).
Proof.
  revert fs. induction ds as [|d ds IH]; intros fs H; simpl in H.
  - injection H as <-. reflexivity.
  - destruct (frames w !! d) as [f|] eqn:Hf; [|discriminate].
    destruct (lookup_frames w ds) as [fs'|] eqn:Hfs; [|discriminate].
    injection H as <-. cbn [map SpectGroup.get_frames]. unfold bind at 1.
    unfold SpectGroup.get_frame_opt, bind at 1, get_frame, ret. rewrite Hf.
    unfold bind. rewrite (IH _ eq_refl). reflexivity.
Qed.

(** ** Running [Compose] on loaded experiments *)

Lemma insert_at_end {A} (l : list A) (x y : A) : <[length l := y]> (l ++ [x]) = l ++ [y].
Proof. rewrite insert_app_r_alt by lia. rewrite Nat.sub_diag. reflexivity. Qed.

Lemma lookup_at_end {A} (l : list A) (x : A) : (l ++ [x]) !! length l = Some x.
Proof. rewrite lookup_app_r by lia. rewrite Nat.sub_diag. reflexivity. Qed.

Lemma compose_table_ok (fs : list DataFrame) :
  fs <> [] -> forallb exp_table_ok fs = true -> suffixes_fit fs = true ->
  exists f rest m, fs = f :: rest /\ merge_all f (map Some rest) = inr m
    /\ keyed m = true /\ length (columns m) = S (length fs)
    /\ compose_table fs = Some {| columns := WL :: map exp_label (seq 0 (length fs)); rows := rows m |}.
Proof.
  destruct fs as [|f rest]; [congruence|]. intros _ H Hfit. simpl in H.
  apply andb_true_iff in H as [Hf Hrest]. cbn [suffixes_fit] in Hfit.
  destruct (merge_all_fits rest f (exp_table_ok_keyed _ Hf) Hrest Hfit) as (m & Hm).
  destruct (merge_all_keyed rest f m (exp_table_ok_keyed _ Hf) Hrest Hm) as (Hk & Hl & _).
  exists f, rest, m. repeat split; auto.
  - rewrite Hl. unfold exp_table_ok in Hf. apply andb_true_iff in Hf as [_ Hf].
    apply Nat.eqb_eq in Hf. rewrite Hf. simpl. lia.
  - unfold compose_table. rewrite Hm. reflexivity.
Qed.

(** The same facts from a table that was built. *)
Lemma compose_table_built (fs : list DataFrame) (t : DataFrame) :
  forallb exp_table_ok fs = true -> compose_table fs = Some t ->
  exists f rest m, fs = f :: rest /\ merge_all f (map Some rest) = inr m
    /\ keyed m = true /\ length (columns m) = S (length fs)
    /\ t = {| columns := WL :: map exp_label (seq 0 (length fs)); rows := rows m |}.
Proof.
  destruct fs as [|f rest]; [discriminate|]. intros H Ht. simpl in H.
  apply andb_true_iff in H as [Hf Hrest]. unfold compose_table in Ht.
  destruct (merge_all f (map Some rest)) as [e|m] eqn:Hm; [discriminate|]. injection Ht as <-.
  destruct (merge_all_keyed rest f m (exp_table_ok_keyed _ Hf) Hrest Hm) as (Hk & Hl & _).
  exists f, rest, m. repeat split; auto.
  rewrite Hl. unfold exp_table_ok in Hf. apply andb_true_iff in Hf as [_ Hf].
  apply Nat.eqb_eq in Hf. rewrite Hf. simpl. lia.
Qed.

(** *** Two cases in which the suffix repeats no label *)

Lemma suffixed_absent (v : string) (cols : list string) :
  has_label v cols = false -> map (suffixed v) cols = cols.
Proof.
  induction cols as [|c cols IH]; [reflexivity|]. cbn [has_label existsb map]. intros H.
  apply orb_false_iff in H as [Hc H]. fold (has_label v cols) in H. rewrite (IH H).
  unfold suffixed. rewrite String.eqb_sym, Hc. reflexivity.
Qed.

Lemma distinct_mid (pre : list string) (v : string) (r : list string) :
  distinct (pre ++ v :: r) = true -> has_label v pre = false.
Proof.
  induction pre as [|a pre IH]; [reflexivity|]. cbn [app distinct has_label existsb]. intros H.
  apply andb_true_iff in H as [Ha H]. apply negb_true_iff in Ha.
  fold (has_label v pre). rewrite (IH H), orb_false_r.
  rewrite has_label_app in Ha. apply orb_false_iff in Ha as [_ Ha].
  cbn [has_label existsb] in Ha. apply orb_false_iff in Ha as [Ha _].
  rewrite String.eqb_sym. exact Ha.
Qed.

Lemma labels_fit_distinct (vs : list string) :
  forall pre, has_label WL vs = false -> distinct (pre ++ vs) = true ->
              labels_fit (WL :: pre) vs = true.
Proof.
  induction vs as [|v r IH]; intros pre Hk Hd; [reflexivity|].
  cbn [has_label existsb] in Hk. apply orb_false_iff in Hk as [Hv Hk]. fold (has_label WL r) in Hk.
  assert (Hno : has_label v (WL :: pre) = false).
  { cbn [has_label existsb]. fold (has_label v pre).
    rewrite (distinct_mid pre v r Hd), orb_false_r, String.eqb_sym. exact Hv. }
  cbn [labels_fit]. unfold join_fits, join_labels. rewrite Hno, (suffixed_absent _ _ Hno).
  cbn [andb negb app]. apply (IH (pre ++ [v]) Hk). rewrite <- app_assoc. exact Hd.
Qed.

(** Tables with pairwise distinct value labels can be joined. *)
Lemma suffixes_fit_distinct (fs : list DataFrame) :
  forallb exp_table_ok fs = true -> distinct (map value_label fs) = true ->
  suffixes_fit fs = true.
Proof.
  destruct fs as [|f rest]; [reflexivity|]. cbn [forallb map suffixes_fit]. intros Hok Hd.
  apply andb_true_iff in Hok as [Hf Hrest].
  destruct (value_label_ok f Hf) as [Ef _]. rewrite Ef.
  apply (labels_fit_distinct (map value_label rest) [value_label f]); [|exact Hd].
  clear -Hrest. induction rest as [|y rest IH]; [reflexivity|].
  cbn [forallb] in Hrest. apply andb_true_iff in Hrest as [Hy Hrest].
  cbn [map has_label existsb]. destruct (value_label_ok y Hy) as [_ ->]. exact (IH Hrest).
Qed.

(** Up to three tables with one and the same value label can be joined:
    the joins label the value columns [c_], [c_] and [c]. *)
Lemma suffixes_fit_same_label (fs : list DataFrame) :
  forallb exp_table_ok fs = true -> same_label fs = true -> length fs <= 3 ->
  suffixes_fit fs = true.
Proof.
  destruct fs as [|f rest]; [reflexivity|]. cbn [forallb same_label suffixes_fit length].
  intros Hok Hsame Hlen. apply andb_true_iff in Hok as [Hf _].
  destruct (value_label_ok f Hf) as [Ef Hc]. rewrite Ef.
  set (c := value_label f) in *.
  assert (Hvals : map value_label rest = map (fun _ => c) rest).
  { clear -Hsame. induction rest as [|y rest IH]; [reflexivity|].
    cbn [forallb] in Hsame. apply andb_true_iff in Hsame as [Hy Hsame].
    apply String.eqb_eq in Hy. cbn [map]. rewrite Hy, (IH Hsame). reflexivity. }
  rewrite Hvals.
  assert (H1 : String.eqb WL (String.append c "_") = false).
  { apply String.eqb_neq. intros H. exact (suffixed_not_key c (eq_sym H)). }
  assert (H2 : String.eqb c (String.append c "_") = false).
  { apply String.eqb_neq. intros H. exact (append_underscore_neq c (eq_sym H)). }
  assert (H3 : String.eqb (String.append c "_") c = false) by (rewrite String.eqb_sym; exact H2).
  assert (H4 : String.eqb WL c = false) by (rewrite String.eqb_sym; exact Hc).
  destruct rest as [|y1 [|y2 [|y3 rest]]]; [reflexivity| | |cbn [length] in Hlen; lia].
  - cbn [map labels_fit]. unfold join_fits. cbn [has_label existsb].
    rewrite H1, H2, H4, String.eqb_refl. reflexivity.
  - cbn [map labels_fit]. unfold join_fits, join_labels, suffixed.
    cbn [has_label existsb map app]. rewrite ?H1, ?H2, ?H3, ?H4, ?Hc, ?String.eqb_refl.
    cbn [orb andb negb has_label existsb]. rewrite ?H1, ?H2, ?H3, ?H4, ?Hc, ?String.eqb_refl.
    reflexivity.
Qed.

Lemma set_columns_run (w : world) (r : ref) (f : DataFrame) (lbls : list string) :
  frames w !! r = Some f -> length lbls = length (columns f) ->
  set_columns r lbls w
  = (inr tt, with_frames w (<[r := {| columns := lbls; rows := rows f |}]> (frames w))).
Proof.
  intros Hf Hl. unfold set_columns, bind, get_frame. rewrite Hf.
  apply Nat.eqb_eq in Hl. rewrite Hl. reflexivity.
Qed.

Lemma group_setData_run (w : world) (g : ref) (grp : SpectGroup) (r : ref) (f : DataFrame) :
  frames w !! r = Some f -> has_label WL (columns f) = true -> groups w !! g = Some grp ->
  SpectGroup.setData g r w = (inr tt, with_groups w (<[g := set_data grp r]> (groups w))).
Proof.
  intros Hf Hl Hg. unfold SpectGroup.setData, bind, get_frame, get_group, assert, put_group.
  rewrite Hf, Hl. simpl. rewrite Hg. reflexivity.
Qed.

Lemma loaded_refs_length (w : world) (es ds : list ref) :
  loaded_refs w es = Some ds -> length ds = length es.
Proof.
  revert ds. induction es as [|e es IH]; intros ds H; simpl in H.
  - injection H as <-. reflexivity.
  - destruct (exp_frame_ref w e); [|discriminate].
    destruct (loaded_refs w es); [|discriminate].
    injection H as <-. simpl. f_equal. auto.
Qed.

Lemma lookup_frames_length (w : world) (ds : list ref) (fs : list DataFrame) :
  lookup_frames w ds = Some fs -> length fs = length ds.
Proof.
  revert fs. induction ds as [|d ds IH]; intros fs H; simpl in H.
  - injection H as <-. reflexivity.
  - destruct (frames w !! d); [|discriminate].
    destruct (lookup_frames w ds); [|discriminate].
    injection H as <-. simpl. f_equal. auto.
Qed.

Lemma reduce_merge_many (w : world) (d0 d1 : ref) (ds : list ref)
      (f : DataFrame) (rest : list DataFrame) (m : DataFrame) :
  lookup_frames w (d0 :: d1 :: ds) = Some (f :: rest) ->
  merge_all f (map Some rest) = inr m ->
  SpectGroup.reduce_merge (map Some (d0 :: d1 :: ds)) w
  = (inr (Some (length (frames w))), with_frames w (frames w ++ [m])).
Proof.
  intros Hfs Hm. cbn [lookup_frames] in Hfs.
  destruct (frames w !! d0) as [f0|] eqn:Hf0; [|discriminate].
  destruct (frames w !! d1) as [f1|] eqn:Hf1; [|discriminate].
  destruct (lookup_frames w ds) as [fs'|] eqn:Hfs'; [|discriminate].
  injection Hfs as -> <-.
  cbn [map SpectGroup.reduce_merge].
  unfold bind at 1. unfold SpectGroup.get_frame_opt, bind at 1, get_frame, ret. rewrite Hf0.
  unfold bind at 1. change (Some d1 :: map Some ds) with (map Some (d1 :: ds)).
  rewrite (get_frames_run w (d1 :: ds) (f1 :: fs'))
    by (cbn [lookup_frames]; rewrite Hf1, Hfs'; reflexivity).
  unfold bind, lift, alloc_frame, ret. rewrite Hm. reflexivity.
Qed.

Lemma Compose_built (w : world) (g : ref) (grp : SpectGroup) (ds : list ref)
      (fs : list DataFrame) (t : DataFrame) :
  groups w !! g = Some grp ->
  loaded_refs w (grp_expList grp) = Some ds ->
  lookup_frames w ds = Some fs ->
  forallb exp_table_ok fs = true ->
  compose_table fs = Some t ->
  SpectGroup.Compose g w = (inr tt, composed_world w g grp ds t).
Proof.
  intros Hg Hds Hfs Hok Ht.
  destruct (compose_table_built fs t Hok Ht) as (f & rest & m & -> & Hm & Hkm & Hlm & ->).
  pose proof (loaded_refs_length _ _ _ Hds) as Hl1.
  pose proof (lookup_frames_length _ _ _ Hfs) as Hl2.
  unfold SpectGroup.Compose, SpectGroup.getExpList, bind at 1 2, get_group, ret. rewrite Hg.
  unfold SpectGroup.Compose_, bind at 1. rewrite (check_loaded_pass w g grp ds Hg Hds).
  unfold bind at 1, SpectGroup.getExpList, bind at 1, get_group, ret. rewrite Hg.
  unfold bind at 1. rewrite (data_of_run _ _ _ Hds).
  replace (length (grp_expList grp)) with (length (f :: rest)) by congruence.
  set (lbls := WL :: map exp_label (seq 0 (length (f :: rest)))).
  assert (Hlbl : has_label WL lbls = true) by reflexivity.
  destruct ds as [|d0 [|d1 ds']]; [discriminate| |].
  - (* one experiment: its own frame is relabelled *)
    simpl in Hfs. destruct (frames w !! d0) as [f0|] eqn:Hf0; [|discriminate].
    injection Hfs as -> <-. simpl in Hm. injection Hm as <-.
    cbn [map SpectGroup.reduce_merge]. unfold bind at 1, ret.
    assert (Hlen : length lbls = length (columns f)).
    { simpl in Hok. rewrite andb_true_r in Hok. unfold exp_table_ok in Hok.
      apply andb_true_iff in Hok as [_ Hok]. apply Nat.eqb_eq in Hok. rewrite Hok. reflexivity. }
    unfold bind at 1. rewrite (set_columns_run w d0 f lbls Hf0 Hlen).
    rewrite (group_setData_run _ g grp d0 {| columns := lbls; rows := rows f |});
      [reflexivity| |exact Hlbl|exact Hg].
    cbn [frames with_frames]. apply list_lookup_insert_eq. eapply lookup_lt_Some; eauto.
  - (* several experiments: a new frame holds the join *)
    unfold bind at 1. rewrite (reduce_merge_many w d0 d1 ds' f rest m Hfs Hm).
    set (w1 := with_frames w (frames w ++ [m])).
    assert (Hm1 : frames w1 !! length (frames w) = Some m) by apply lookup_at_end.
    assert (Hlen : length lbls = length (columns m)).
    { rewrite Hlm. unfold lbls. simpl. rewrite length_map, length_seq. reflexivity. }
    unfold bind at 1. rewrite (set_columns_run w1 _ m lbls Hm1 Hlen).
    rewrite (group_setData_run _ g grp (length (frames w)) {| columns := lbls; rows := rows m |});
      [|cbn [frames with_frames]; apply list_lookup_insert_eq|exact Hlbl|exact Hg].
    + unfold composed_world, w1. cbn [frames with_frames]. rewrite insert_at_end. reflexivity.
    + unfold w1. cbn [frames with_frames]. rewrite length_app. simpl. lia.
Qed.

Lemma Compose_run (w : world) (g : ref) (grp : SpectGroup) (ds : list ref) (fs : list DataFrame) :
  groups w !! g = Some grp ->
  loaded_refs w (grp_expList grp) = Some ds ->
  lookup_frames w ds = Some fs ->
  fs <> [] ->
  forallb exp_table_ok fs = true ->
  suffixes_fit fs = true ->
  exists t, compose_table fs = Some t
            /\ SpectGroup.Compose g w = (inr tt, composed_world w g grp ds t).
Proof.
  intros Hg Hds Hfs Hne Hok Hfit.
  destruct (compose_table_ok fs Hne Hok Hfit) as (f & rest & m & _ & _ & _ & _ & Ht).
  eexists. split; [exact Ht|]. eapply Compose_built; eauto.
Qed.

(** When the join raises, [Compose] raises the same error and the store
    is as it was: calling it again does the same. *)
Lemma Compose_join_raises (w : world) (g : ref) (grp : SpectGroup)
      (f : DataFrame) (rest : list DataFrame) (e : pyexc) :
  groups w !! g = Some grp ->
  loaded_frames w (grp_expList grp) = Some (f :: rest) ->
  merge_all f (map Some rest) = inl e ->
  SpectGroup.Compose g w = (inl e, w).
Proof.
  intros Hg Hl Hm. unfold loaded_frames in Hl.
  destruct (loaded_refs w (grp_expList grp)) as [ds|] eqn:Hds; [|discriminate].
  unfold SpectGroup.Compose, SpectGroup.getExpList, bind at 1 2, get_group, ret. rewrite Hg.
  unfold SpectGroup.Compose_, bind at 1. rewrite (check_loaded_pass w g grp ds Hg Hds).
  unfold bind at 1, SpectGroup.getExpList, bind at 1, get_group, ret. rewrite Hg.
  unfold bind at 1. rewrite (data_of_run _ _ _ Hds).
  destruct ds as [|d0 [|d1 ds']]; [discriminate| |].
  - simpl in Hl. destruct (frames w !! d0); [|discriminate]. injection Hl as _ <-.
    discriminate.
  - cbn [lookup_frames] in Hl.
    destruct (frames w !! d0) as [f0|] eqn:Hf0; [|discriminate].
    destruct (frames w !! d1) as [f1|] eqn:Hf1; [|discriminate].
    destruct (lookup_frames w ds') as [fs'|] eqn:Hfs'; [|discriminate].
    injection Hl as -> <-.
    cbn [map SpectGroup.reduce_merge].
    unfold bind at 1. unfold bind at 1.
    unfold SpectGroup.get_frame_opt, bind at 1, get_frame, ret. rewrite Hf0.
    unfold bind at 1. change (Some d1 :: map Some ds') with (map Some (d1 :: ds')).
    rewrite (get_frames_run w (d1 :: ds') (f1 :: fs'))
      by (cbn [lookup_frames]; rewrite Hf1, Hfs'; reflexivity).
    unfold bind, lift. rewrite Hm. reflexivity.
Qed.

Lemma composed_world_table (w : world) (g : ref) (grp : SpectGroup) (ds : list ref)
      (fs : list DataFrame) (t : DataFrame) :
  groups w !! g = Some grp -> lookup_frames w ds = Some fs ->
  composed_table (composed_world w g grp ds t) g = Some t.
Proof.
  intros Hg Hfs. pose proof (lookup_lt_Some _ _ _ Hg) as Hlt.
  unfold composed_table, composed_world.
  destruct ds as [|d0 [|d1 ds']]; cbn [groups frames with_groups with_frames];
    rewrite list_lookup_insert_eq by exact Hlt; cbn [grp_data set_data];
    try apply lookup_at_end.
  cbn [lookup_frames] in Hfs. destruct (frames w !! d0) eqn:Hf0; [|discriminate].
  apply list_lookup_insert_eq. eapply lookup_lt_Some; eauto.
Qed.




(** Membership in the intersection: a key of the first column that every
    other column holds. *)
Lemma key_inter_spec (c0 : list float) (others : list (list float)) (k : float) :
  In k (key_inter (c0 :: others)) <-> In k c0 /\ Forall (fun c => key_mem k c = true) others.
Proof.
  unfold key_inter. rewrite filter_In, forallb_forall, List.Forall_forall. reflexivity.
Qed.

(** ** Composition is the inner join on the key column *)




(** A fourth table with the value label of the other three makes the
    suffix repeat a label: the join raises, and nothing is stored. *)
Example Compose_four_same_label :
  suffixes_fit (map measure_table [[[1; 10]]; [[1; 11]]; [[1; 12]]; [[1; 13]]]%float) = false
  /\ SpectGroup.Compose 0 (world_of [[[1; 10]]; [[1; 11]]; [[1; 12]]; [[1; 13]]]%float)
     = (inl (Raise MergeError "Passing 'suffixes' which cause duplicate columns is not allowed."),
        world_of [[[1; 10]]; [[1; 11]]; [[1; 12]]; [[1; 13]]]%float).
Proof. split; vm_compute; reflexivity. Qed.

(** ** Composing twice *)

Lemma loaded_refs_exps (w w' : world) (es : list ref) :
  exps w' = exps w -> loaded_refs w' es = loaded_refs w es.
Proof.
  intros E. induction es as [|e es IH]; simpl; [reflexivity|].
  unfold exp_frame_ref. rewrite E, IH. reflexivity.
Qed.

Lemma lookup_frames_app (w w' : world) (ds : list ref) (fs l : list DataFrame) :
  frames w' = frames w ++ l -> lookup_frames w ds = Some fs -> lookup_frames w' ds = Some fs.
Proof.
  intros E. revert fs. induction ds as [|d ds IH]; intros fs H; simpl in *; [exact H|].
  destruct (frames w !! d) as [f|] eqn:Hf; [|discriminate].
  destruct (lookup_frames w ds) as [fs'|]; [|discriminate].
  rewrite E, (lookup_app_l_Some _ _ _ _ Hf), (IH _ eq_refl). exact H.
Qed.

(** What the second call finds: the same experiments, loaded, and tables
    that compose to the same table. *)
Lemma composed_world_again (w : world) (g : ref) (grp : SpectGroup) (ds : list ref)
      (fs : list DataFrame) (t : DataFrame) :
  lookup_frames w ds = Some fs -> fs <> [] -> forallb exp_table_ok fs = true ->
  compose_table fs = Some t ->
  exists fs', lookup_frames (composed_world w g grp ds t) ds = Some fs'
              /\ fs' <> [] /\ forallb exp_table_ok fs' = true
              /\ compose_table fs' = Some t.
Proof.
  intros Hfs Hne Hok Ht.
  destruct ds as [|d0 [|d1 ds']].
  - simpl in Hfs. injection Hfs as <-. congruence.
  - cbn [lookup_frames] in Hfs. destruct (frames w !! d0) as [f|] eqn:Hf0; [|discriminate].
    injection Hfs as <-. exists [t].
    unfold compose_table in Ht. cbn [map merge_all] in Ht. injection Ht as <-.
    cbn [composed_world lookup_frames frames with_groups with_frames].
    rewrite list_lookup_insert_eq by (eapply lookup_lt_Some; eauto).
    repeat split; [discriminate|].
    cbn [forallb] in Hok |- *. rewrite andb_true_r in Hok |- *.
    unfold exp_table_ok, keyed, frame_rect in Hok |- *. cbn [columns rows].
    apply andb_true_iff in Hok as [Hok Hlen]. apply andb_true_iff in Hok as [_ Hrect].
    apply Nat.eqb_eq in Hlen. rewrite Hlen in Hrect.
    change (length [WL; exp_label 0]) with 2. rewrite Hrect. reflexivity.
  - exists fs. repeat split; auto.
    eapply lookup_frames_app; [|exact Hfs]. reflexivity.
Qed.

(** C7.  On a group of loaded experiments whose tables can be joined (the
    suffix of the join makes no label repeat, [suffixes_fit]: so for
    pairwise distinct value labels, and for up to three tables with one
    and the same value label), two calls of [Compose()] in a row both
    succeed, and the group holds the same composed table (labels, rows and
    values) after the second call as after the first. *)
Theorem Compose_twice_same_table (w : world) (g : ref) (grp : SpectGroup) (fs : list DataFrame) :
  groups w !! g = Some grp ->
  loaded_frames w (grp_expList grp) = Some fs ->
  fs <> [] ->
  forallb exp_table_ok fs = true ->
  suffixes_fit fs = true ->
  exists (w1 w2 : world) (t : DataFrame),
    SpectGroup.Compose g w = (inr tt, w1)
    /\ SpectGroup.Compose g w1 = (inr tt, w2)
    /\ composed_table w1 g = Some t
    /\ composed_table w2 g = Some t.
Proof.
  intros Hg Hl Hne Hok Hfit. unfold loaded_frames in Hl.
  destruct (loaded_refs w (grp_expList grp)) as [ds|] eqn:Hds; [|discriminate].
  destruct (Compose_run w g grp ds fs Hg Hds Hl Hne Hok Hfit) as (t & Ht & Hrun).
  destruct (composed_world_again w g grp ds fs t Hl Hne Hok Ht) as (fs' & Hl' & Hne' & Hok' & Ht').
  set (w1 := composed_world w g grp ds t) in *.
  assert (Hg1 : exists d, groups w1 !! g = Some (set_data grp d)).
  { pose proof (lookup_lt_Some _ _ _ Hg) as Hlt. unfold w1, composed_world.
    destruct ds as [|d0 [|d1 ds']]; eexists; cbn [groups with_groups];
      apply list_lookup_insert_eq; exact Hlt. }
  destruct Hg1 as [d Hg1].
  assert (Hds1 : loaded_refs w1 (grp_expList (set_data grp d)) = Some ds).
  { rewrite <- Hds. apply loaded_refs_exps. unfold w1, composed_world.
    destruct ds as [|d0 [|d1 ds']]; reflexivity. }
  pose proof (Compose_built w1 g (set_data grp d) ds fs' t Hg1 Hds1 Hl' Hok' Ht') as Hrun2.
  exists w1, (composed_world w1 g (set_data grp d) ds t), t.
  repeat split; auto.
  - eapply composed_world_table; eauto.
  - eapply composed_world_table; eauto.
Qed.

Lemma Compose_twice_same_table_witness :
  exists (w1 w2 : world) (t : DataFrame),
    SpectGroup.Compose 0 demo_world = (inr tt, w1)
    /\ SpectGroup.Compose 0 w1 = (inr tt, w2)
    /\ composed_table w1 0 = Some t
    /\ composed_table w2 0 = Some t.
Proof.
  exact (Compose_twice_same_table demo_world 0 (group_of [0; 1; 2] "Run")
           [measure_table [[1; 10]; [2; 20]; [3; 30]]%float;
            measure_table [[2; 21]; [3; 31]; [4; 41]]%float;
            measure_table [[1; 12]; [2; 22]; [3; 32]; [4; 42]]%float]
           eq_refl eq_refl ltac:(discriminate) eq_refl eq_refl).
Defined.

(** ** Statistics of a composed table *)

Lemma drop_mask_absent {A} (lbl : string) (vs : list string) (xs : list A) :
  has_label lbl vs = false -> length xs = length vs -> drop_mask vs lbl xs = xs.
Proof.
  revert xs. induction vs as [|v vs IH]; intros [|x xs] H Hl; simpl in *; try discriminate; auto.
  apply orb_false_iff in H as [-> H]. f_equal. apply IH; auto.
Qed.

Lemma zip_rows_map {A} (upd : list float -> float -> list float)
      (f : A -> list float) (h : A -> float) (l : list A) :
  zip_rows upd (map f l) (map h l) = map (fun a => upd (f a) (h a)) l.
Proof. induction l as [|a l IH]; simpl; [reflexivity|]. rewrite IH. reflexivity. Qed.

Lemma getitem_key (t : DataFrame) (vs : list string) :
  columns t = WL :: vs -> has_label WL vs = false ->
  getitem_cols t [WL] = inr {| columns := [WL]; rows := map (fun r => [cell r 0]) (rows t) |}.
Proof.
  intros E Hv. unfold getitem_cols. rewrite E. cbn [forallb has_label existsb].
  rewrite String.eqb_refl. cbn [orb andb flat_map positions].
  rewrite String.eqb_refl, (positions_absent _ _ _ Hv). reflexivity.
Qed.

Lemma drop_key (t : DataFrame) (vs : list string) :
  columns t = WL :: vs -> has_label WL vs = false -> frame_rect t = true ->
  drop_col t WL = inr {| columns := vs; rows := map (@tl float) (rows t) |}.
Proof.
  intros E Hv Hr. unfold drop_col. rewrite E. cbn [has_label existsb].
  rewrite String.eqb_refl. cbn [orb drop_mask]. rewrite String.eqb_refl.
  rewrite (drop_mask_absent WL vs vs Hv eq_refl).
  match goal with
  | |- inr {| columns := _; rows := map ?f ?l |} = _ =>
    assert (Hrows : map f l = map (@tl float) l); [|rewrite Hrows; reflexivity]
  end.
  apply map_ext_in. intros r Hin.
  unfold frame_rect in Hr. rewrite forallb_forall in Hr. specialize (Hr r Hin).
  apply Nat.eqb_eq in Hr. rewrite E in Hr.
  destruct r as [|k r]; [discriminate|]. cbn [tl].
  apply drop_mask_absent; [exact Hv|]. cbn [length] in Hr. lia.
Qed.

Lemma setitem_append {A} (cols : list string) (l : list A) (fr : A -> list float)
      (h : A -> float) (lbl : string) :
  has_label lbl cols = false ->
  setitem {| columns := cols; rows := map fr l |} lbl (map h l)
  = inr {| columns := cols ++ [lbl]; rows := map (fun a => fr a ++ [h a]) l |}.
Proof.
  intros H. unfold setitem. cbn [columns rows]. rewrite !length_map, Nat.eqb_refl, H.
  rewrite zip_rows_map. reflexivity.
Qed.

Lemma bind_ok {A B} (m : M A) (k : A -> M B) (w w' : world) (a : A) :
  m w = (inr a, w') -> bind m k w = k a w'.
Proof. intros H. unfold bind. rewrite H. reflexivity. Qed.

Lemma bind_err {A B} (m : M A) (k : A -> M B) (w w' : world) (e : pyexc) :
  m w = (inl e, w') -> bind m k w = (inl e, w').
Proof. intros H. unfold bind. rewrite H. reflexivity. Qed.

Lemma group_getData_run (w : world) (g : ref) (grp : SpectGroup) :
  groups w !! g = Some grp -> SpectGroup.getData g w = (inr (grp_data grp), w).
Proof. intros Hg. unfold SpectGroup.getData, bind, get_group, ret. rewrite Hg. reflexivity. Qed.

Lemma isComposed_run (w : world) (g : ref) (grp : SpectGroup) :
  groups w !! g = Some grp ->
  SpectGroup.isComposed g w = (inr (match grp_data grp with None => false | Some _ => true end), w).
Proof.
  intros Hg. unfold SpectGroup.isComposed.
  rewrite (bind_ok _ _ _ _ _ (group_getData_run w g grp Hg)). reflexivity.
Qed.

Lemma get_frame_run (w : world) (d : ref) (t : DataFrame) :
  frames w !! d = Some t -> get_frame d w = (inr t, w).
Proof. intros H. unfold get_frame. rewrite H. reflexivity. Qed.

Ltac run_with H := rewrite (bind_ok _ _ _ _ _ H); cbv beta.
Ltac run_pure := erewrite bind_ok by reflexivity; cbv beta.

Lemma stats_from_data_run (w : world) (g : ref) (grp : SpectGroup) (d : ref) (t : DataFrame) :
  groups w !! g = Some grp -> grp_data grp = Some d -> frames w !! d = Some t ->
  keyed t = true ->
  SpectGroup.stats_from_data g w
  = (inr tt, with_groups (with_frames w (frames w ++ [stats_of t]))
                         (<[g := set_stats grp (length (frames w))]> (groups w))).
Proof.
  intros Hg Hd Ht Hk. destruct (keyed_inv _ Hk) as (vs & E & Hv & Hr).
  unfold SpectGroup.stats_from_data.
  run_with (group_getData_run w g grp Hg). rewrite Hd.
  run_with (get_frame_run w d t Ht).
  unfold lift. rewrite (getitem_key t vs E Hv), (drop_key t vs E Hv Hr).
  unfold axis1.
  run_pure. run_pure. cbn [rows]. rewrite map_map.
  erewrite setitem_append by reflexivity.
  run_pure. run_pure. cbn [rows]. rewrite map_map.
  erewrite setitem_append by reflexivity.
  run_pure. run_pure. cbn [rows]. rewrite map_map.
  erewrite setitem_append by reflexivity.
  run_pure. run_pure. cbn [rows]. rewrite map_map.
  erewrite setitem_append by reflexivity.
  run_pure.
  unfold SpectGroup.setStats, alloc_frame, get_group, put_group, bind.
  cbn [groups with_frames]. rewrite Hg. reflexivity.
Qed.

Lemma exp_labels_not_key (l : list nat) : has_label WL (map exp_label l) = false.
Proof. induction l as [|x l IH]; simpl; [reflexivity|exact IH]. Qed.

Lemma compose_table_keyed (fs : list DataFrame) (t : DataFrame) :
  fs <> [] -> forallb exp_table_ok fs = true -> compose_table fs = Some t -> keyed t = true.
Proof.
  intros Hne Hok Ht.
  destruct (compose_table_built fs t Hok Ht) as (f & rest & m & E & Hm & Hkm & Hlm & ->).
  destruct (keyed_inv _ Hkm) as (vs & Em & _ & Hr).
  unfold keyed. cbn [columns]. rewrite String.eqb_refl, exp_labels_not_key. cbn [negb andb].
  unfold frame_rect in *. cbn [columns rows]. rewrite Hlm in Hr.
  cbn [length]. rewrite length_map, length_seq. exact Hr.
Qed.

Lemma stats_world_tables (w : world) (g : ref) (grp : SpectGroup) (d : ref) (t : DataFrame) :
  groups w !! g = Some grp -> grp_data grp = Some d -> frames w !! d = Some t ->
  composed_table (stats_world w g grp t) g = Some t
  /\ stats_table (stats_world w g grp t) g = Some (stats_of t).
Proof.
  intros Hg Hd Ht. pose proof (lookup_lt_Some _ _ _ Hg) as Hlt.
  unfold composed_table, stats_table, stats_world. cbn [groups frames with_groups with_frames].
  rewrite list_lookup_insert_eq by exact Hlt. cbn [grp_data grp_stats set_stats].
  rewrite Hd. split; [apply lookup_app_l_Some; exact Ht|apply lookup_at_end].
Qed.

(** [genStats] on a composed group. *)
Lemma genStats_on_composed (w : world) (g : ref) (grp : SpectGroup) (d : ref) (t : DataFrame) :
  groups w !! g = Some grp -> grp_data grp = Some d -> frames w !! d = Some t ->
  keyed t = true ->
  SpectGroup.genStats g w = (inr tt, stats_world w g grp t)
  /\ composed_table (stats_world w g grp t) g = Some t
  /\ stats_table (stats_world w g grp t) g = Some (stats_of t).
Proof.
  intros Hg Hd Ht Hk.
  destruct (stats_world_tables w g grp d t Hg Hd Ht) as [H1 H2].
  split; [|split; [exact H1|exact H2]].
  unfold SpectGroup.genStats.
  run_with (isComposed_run w g grp Hg). rewrite Hd. run_pure.
  apply (stats_from_data_run w g grp d t Hg Hd Ht Hk).
Qed.

(** ** Two groups do not write each other's attributes *)

Lemma bind_inv {A B} (m : M A) (k : A -> M B) (w w' : world) (r : result B) :
  bind m k w = (r, w') ->
  (exists e, m w = (inl e, w') /\ r = inl e)
  \/ (exists a w1, m w = (inr a, w1) /\ k a w1 = (r, w')).
Proof.
  unfold bind. destruct (m w) as [[e|a] w1]; intros H.
  - injection H as <- <-. left. eauto.
  - right. eauto.
Qed.

Lemma reads_ret {A} (a : A) : reads (ret a).
Proof. intros w r w' [= _ <-]. reflexivity. Qed.

Lemma reads_raise {A} k msg : reads (@raise A k msg).
Proof. intros w r w' [= _ <-]. reflexivity. Qed.

Lemma reads_lift {A} (x : result A) : reads (lift x).
Proof. intros w r w' [= _ <-]. reflexivity. Qed.

Lemma reads_bind {A B} (m : M A) (k : A -> M B) :
  reads m -> (forall a, reads (k a)) -> reads (bind m k).
Proof.
  intros Hm Hk w r w' H. apply bind_inv in H as [(e & H & _)|(a & w1 & H1 & H2)].
  - eapply Hm; eauto.
  - apply Hm in H1. subst w1. eapply Hk; eauto.
Qed.

Lemma reads_get_group g : reads (get_group g).
Proof. intros w r w'. unfold get_group. destruct (groups w !! g); intros [= _ <-]; reflexivity. Qed.

Lemma reads_get_exp e : reads (get_exp e).
Proof. intros w r w'. unfold get_exp. destruct (exps w !! e); intros [= _ <-]; reflexivity. Qed.

Lemma reads_get_frame d : reads (get_frame d).
Proof. intros w r w'. unfold get_frame. destruct (frames w !! d); intros [= _ <-]; reflexivity. Qed.

Lemma reads_check_loaded g idxs : reads (SpectGroup.check_loaded g idxs).
Proof.
  induction idxs as [|i idxs IH]; [apply reads_ret|].
  cbn [SpectGroup.check_loaded]. apply reads_bind.
  - unfold SpectGroup.getExp. apply reads_bind; [apply reads_get_group|intros; apply reads_lift].
  - intros e. apply reads_bind.
    + unfold SpectExp.isLoaded, SpectExp.getData.
      repeat (apply reads_bind; [|intros]); try apply reads_get_exp; apply reads_ret.
    + intros [|]; [exact IH|apply reads_raise].
Qed.

Lemma reads_data_of es : reads (SpectGroup.data_of es).
Proof.
  induction es as [|e es IH]; [apply reads_ret|].
  cbn [SpectGroup.data_of]. apply reads_bind.
  - unfold SpectExp.getData. apply reads_bind; [apply reads_get_exp|intros; apply reads_ret].
  - intros d. apply reads_bind; [exact IH|intros; apply reads_ret].
Qed.

Lemma reads_get_frame_opt d : reads (SpectGroup.get_frame_opt d).
Proof.
  destruct d; [|apply reads_ret]. cbn. apply reads_bind; [apply reads_get_frame|intros; apply reads_ret].
Qed.

Lemma reads_get_frames ds : reads (SpectGroup.get_frames ds).
Proof.
  induction ds as [|d ds IH]; [apply reads_ret|].
  cbn [SpectGroup.get_frames]. apply reads_bind; [apply reads_get_frame_opt|].
  intros f. apply reads_bind; [exact IH|intros; apply reads_ret].
Qed.

Lemma data_of_length es w ds w' : SpectGroup.data_of es w = (inr ds, w') -> length ds = length es.
Proof.
  revert ds w w'. induction es as [|e es IH]; intros ds w w'; cbn [SpectGroup.data_of].
  - intros [= <- _]. reflexivity.
  - intros H. apply bind_inv in H as [(? & _ & [=])|(d & w1 & _ & H)].
    apply bind_inv in H as [(? & _ & [=])|(ds' & w2 & H2 & H)].
    injection H as <- _. simpl. f_equal. eapply IH; eauto.
Qed.

Lemma touches_only_refl g w : touches_only g w w.
Proof. repeat split; auto. intros l f H. exists f. split; [exact H|left; reflexivity]. Qed.

Lemma touches_only_trans g w1 w2 w3 :
  touches_only g w1 w2 -> touches_only g w2 w3 -> touches_only g w1 w3.
Proof.
  intros (G1 & E1 & F1) (G2 & E2 & F2). repeat split.
  - intros g' H. rewrite (G2 g' H). auto.
  - congruence.
  - intros l f H. destruct (F1 l f H) as (f' & H' & R1).
    destruct (F2 l f' H') as (f'' & H'' & R2). exists f''. split; [exact H''|].
    destruct R1 as [->|[L1 ->]]; [exact R2|].
    destruct R2 as [->|[_ ->]]; right; auto.
Qed.

Lemma touches_put_group g grp w : touches_only g w (with_groups w (<[g := grp]> (groups w))).
Proof.
  repeat split; auto.
  - intros g' H. cbn [groups with_groups]. apply list_lookup_insert_ne. congruence.
  - intros l f H. exists f. split; [exact H|left; reflexivity].
Qed.

Lemma touches_alloc_frame g f w : touches_only g w (with_frames w (frames w ++ [f])).
Proof.
  repeat split; auto. intros l f0 H. exists f0. split; [|left; reflexivity].
  cbn [frames with_frames]. apply lookup_app_l_Some. exact H.
Qed.

Lemma group_setData_touches g t w r w' :
  SpectGroup.setData g t w = (r, w') -> touches_only g w w'.
Proof.
  unfold SpectGroup.setData. intros H.
  apply bind_inv in H as [(e & H & _)|(f & w1 & H1 & H)].
  { apply reads_get_frame in H. subst. apply touches_only_refl. }
  apply reads_get_frame in H1. subst w1.
  apply bind_inv in H as [(e & H & _)|(u & w1 & H1 & H)].
  { unfold assert in H. destruct (has_label WL (columns f)); injection H as _ <-; apply touches_only_refl. }
  assert (w1 = w) as ->.
  { unfold assert in H1. destruct (has_label WL (columns f)); injection H1 as _ <-; reflexivity. }
  apply bind_inv in H as [(e & H & _)|(grp & w1 & H1' & H)].
  { apply reads_get_group in H. subst. apply touches_only_refl. }
  apply reads_get_group in H1'. subst w1.
  unfold put_group in H. injection H as _ <-. apply touches_put_group.
Qed.

Lemma group_setStats_touches g t w r w' :
  SpectGroup.setStats g t w = (r, w') -> touches_only g w w'.
Proof.
  unfold SpectGroup.setStats. intros H.
  apply bind_inv in H as [(e & H & _)|(grp & w1 & H1' & H)].
  { apply reads_get_group in H. subst. apply touches_only_refl. }
  apply reads_get_group in H1'. subst w1.
  unfold put_group in H. injection H as _ <-. apply touches_put_group.
Qed.

(** What [reduce] leaves: the store as it was, with the frame of the only
    experiment as its result if it has one, or the store with one more
    frame, which is the result. *)
Lemma reduce_merge_inv ds w r w' :
  SpectGroup.reduce_merge ds w = (r, w') ->
  (w' = w /\ forall t, r = inr t -> ds = [t])
  \/ (exists m, w' = with_frames w (frames w ++ [m]) /\ r = inr (Some (length (frames w)))).
Proof.
  destruct ds as [|d [|d1 rest]].
  - cbn. intros [= <- <-]. left. split; [reflexivity|discriminate].
  - cbn. intros [= <- <-]. left. split; [reflexivity|]. intros t [= <-]. reflexivity.
  - cbn [SpectGroup.reduce_merge]. intros H.
    apply bind_inv in H as [(e & H & ->)|(f & w1 & H1 & H)].
    { apply reads_get_frame_opt in H. left. split; [exact H|discriminate]. }
    apply reads_get_frame_opt in H1. subst w1.
    apply bind_inv in H as [(e & H & ->)|(fs & w1 & H1 & H)].
    { apply reads_get_frames in H. left. split; [exact H|discriminate]. }
    apply reads_get_frames in H1. subst w1.
    destruct f as [x|]; [|injection H as <- <-; left; split; [reflexivity|discriminate]].
    apply bind_inv in H as [(e & H & ->)|(m & w1 & H1 & H)].
    { apply reads_lift in H. left. split; [exact H|discriminate]. }
    apply reads_lift in H1. subst w1.
    unfold bind, alloc_frame, ret in H. injection H as <- <-. right. eauto.
Qed.

Lemma set_columns_inv t lbls w r w' :
  set_columns t lbls w = (r, w') ->
  w' = w \/ (exists f, frames w !! t = Some f /\ length lbls = length (columns f)
                       /\ w' = with_frames w (<[t := {| columns := lbls; rows := rows f |}]> (frames w))).
Proof.
  unfold set_columns, bind, get_frame. destruct (frames w !! t) as [f|] eqn:Hf.
  - destruct (Nat.eqb_spec (length lbls) (length (columns f))) as [E|E].
    + unfold put_frame. intros [= _ <-]. right. eauto.
    + intros [= _ <-]. left. reflexivity.
  - intros [= _ <-]. left. reflexivity.
Qed.

Lemma reads_getExpList g : reads (SpectGroup.getExpList g).
Proof. apply reads_bind; [apply reads_get_group|intros; apply reads_ret]. Qed.

Lemma relabel_touches g t f lbls w :
  frames w !! t = Some f -> length (columns f) = 2 -> lbls = [WL; exp_label 0] ->
  touches_only g w (with_frames w (<[t := {| columns := lbls; rows := rows f |}]> (frames w))).
Proof.
  intros Hf Hl ->. repeat split; auto. intros l f0 H0. cbn [frames with_frames].
  destruct (Nat.eq_dec l t) as [->|Hne].
  - rewrite list_lookup_insert_eq by (eapply lookup_lt_Some; eauto).
    eexists. split; [reflexivity|]. right. split; congruence.
  - rewrite list_lookup_insert_ne by congruence. exists f0. split; [exact H0|left; reflexivity].
Qed.

Lemma fresh_put_touches g f m w :
  touches_only g w (with_frames (with_frames w (frames w ++ [m]))
                                (<[length (frames w) := f]> (frames (with_frames w (frames w ++ [m]))))).
Proof.
  repeat split; auto. intros l f0 H0. cbn [frames with_frames].
  exists f0. split; [|left; reflexivity].
  rewrite list_lookup_insert_ne by (apply lookup_lt_Some in H0; lia).
  apply lookup_app_l_Some. exact H0.
Qed.

Lemma Compose_touches g w r w' :
  SpectGroup.Compose g w = (r, w') -> touches_only g w w'.
Proof.
  unfold SpectGroup.Compose. intros H.
  apply bind_inv in H as [(e & H & _)|(es & w1 & Hes & H)].
  { apply reads_getExpList in H. subst. apply touches_only_refl. }
  pose proof (reads_getExpList _ _ _ _ Hes). subst w1.
  unfold SpectGroup.Compose_ in H.
  apply bind_inv in H as [(e & H & _)|(u & w1 & H1 & H)].
  { apply reads_check_loaded in H. subst. apply touches_only_refl. }
  apply reads_check_loaded in H1. subst w1.
  apply bind_inv in H as [(e & H & _)|(es' & w1 & Hes' & H)].
  { apply reads_getExpList in H. subst. apply touches_only_refl. }
  pose proof (reads_getExpList _ _ _ _ Hes'). subst w1.
  assert (es' = es) as -> by congruence.
  apply bind_inv in H as [(e & H & _)|(ds & w1 & H1 & H)].
  { apply reads_data_of in H. subst. apply touches_only_refl. }
  pose proof (data_of_length _ _ _ _ H1) as Hlen.
  apply reads_data_of in H1. subst w1.
  apply bind_inv in H as [(e & H & _)|(tmp & w1 & H1 & H)].
  { apply reduce_merge_inv in H as [[-> _]|(m & -> & [=])]. apply touches_only_refl. }
  apply reduce_merge_inv in H1 as [[-> Hone]|(m & -> & [= ->])].
  - (* the frame of the only experiment *)
    specialize (Hone tmp eq_refl). subst ds. simpl in Hlen. rewrite <- Hlen in H.
    destruct tmp as [t|]; [|injection H as _ <-; apply touches_only_refl].
    apply bind_inv in H as [(e & H & _)|(u' & w1 & H1 & H)].
    + apply set_columns_inv in H as [->|(f & Hf & Hl & ->)]; [apply touches_only_refl|].
      apply (relabel_touches g t f _ w Hf); [simpl in Hl; congruence|reflexivity].
    + apply group_setData_touches in H.
      apply set_columns_inv in H1 as [->|(f & Hf & Hl & ->)]; [exact H|].
      eapply touches_only_trans; [|exact H].
      apply (relabel_touches g t f _ w Hf); [simpl in Hl; congruence|reflexivity].
  - (* a new frame *)
    apply bind_inv in H as [(e & H & _)|(u' & w1 & H1 & H)].
    + apply set_columns_inv in H as [->|(f & Hf & Hl & ->)]; [apply touches_alloc_frame|].
      apply fresh_put_touches.
    + apply group_setData_touches in H.
      eapply touches_only_trans; [|exact H].
      apply set_columns_inv in H1 as [->|(f & Hf & Hl & ->)]; [apply touches_alloc_frame|].
      apply fresh_put_touches.
Qed.

Lemma stats_from_data_touches g w r w' :
  SpectGroup.stats_from_data g w = (r, w') -> touches_only g w w'.
Proof.
  unfold SpectGroup.stats_from_data. intros H.
  apply bind_inv in H as [(e & H & _)|(d & w1 & H1 & H)].
  { apply (reads_bind _ _ (reads_get_group g) (fun a => reads_ret _)) in H.
    subst. apply touches_only_refl. }
  apply (reads_bind _ _ (reads_get_group g) (fun a => reads_ret _)) in H1. subst w1.
  destruct d as [d|]; [|injection H as _ <-; apply touches_only_refl].
  apply bind_inv in H as [(e & H & _)|(data & w1 & H1 & H)].
  { apply reads_get_frame in H. subst. apply touches_only_refl. }
  apply reads_get_frame in H1. subst w1.
  do 9 (apply bind_inv in H as [(e & H & _)|(? & w1 & H1 & H)];
        [apply reads_lift in H; subst; apply touches_only_refl|];
        apply reads_lift in H1; subst w1).
  apply bind_inv in H as [(e & H & _)|(s & w1 & H1 & H)].
  { unfold alloc_frame in H. discriminate. }
  unfold alloc_frame in H1. injection H1 as _ <-.
  apply group_setStats_touches in H.
  eapply touches_only_trans; [apply touches_alloc_frame|exact H].
Qed.

Lemma genStats_touches g w r w' :
  SpectGroup.genStats g w = (r, w') -> touches_only g w w'.
Proof.
  unfold SpectGroup.genStats. intros H.
  apply bind_inv in H as [(e & H & _)|(c & w1 & H1 & H)].
  { unfold SpectGroup.isComposed, SpectGroup.getData in H.
    apply (reads_bind _ _ (reads_bind _ _ (reads_get_group g) (fun a => reads_ret _))
                      (fun a => reads_ret _)) in H.
    subst. apply touches_only_refl. }
  unfold SpectGroup.isComposed, SpectGroup.getData in H1.
  apply (reads_bind _ _ (reads_bind _ _ (reads_get_group g) (fun a => reads_ret _))
                    (fun a => reads_ret _)) in H1. subst w1.
  apply bind_inv in H as [(e & H & _)|(u & w1 & H1 & H)].
  - destruct c; [discriminate|]. eapply Compose_touches; eauto.
  - apply stats_from_data_touches in H. destruct c.
    + injection H1 as _ <-. exact H.
    + eapply touches_only_trans; [eapply Compose_touches; eauto|exact H].
Qed.

(** C10.  [Compose()] and [genStats()] on one group, whatever their
    outcome, leave every other group as it was: its attributes (among them
    the references to its data and statistics) are the same, and so are the
    composed table and the statistics table it holds.  This covers a
    subgroup and its parent in both directions, whichever experiments the
    two share. *)
Theorem other_group_untouched (w : world) (g other : ref) (r : result unit) (w' : world) :
  other <> g ->
  SpectGroup.Compose g w = (r, w') \/ SpectGroup.genStats g w = (r, w') ->
  groups w' !! other = groups w !! other
  /\ (forall (t : DataFrame) (n : nat),
         composed_table w other = Some t ->
         columns t = WL :: map exp_label (seq 0 n) ->
         composed_table w' other = Some t)
  /\ (forall s : DataFrame,
         stats_table w other = Some s ->
         columns s = [WL; "min"; "max"; "mean"; "std"] ->
         stats_table w' other = Some s).
Proof.
  intros Hne Hrun.
  assert (Ht : touches_only g w w').
  { destruct Hrun as [H|H]; [eapply Compose_touches|eapply genStats_touches]; eauto. }
  destruct Ht as (Hg & _ & Hf). specialize (Hg other Hne).
  split; [exact Hg|]. split.
  - intros t n Ht Hc. unfold composed_table in *. rewrite Hg.
    destruct (groups w !! other) as [grp|]; [|discriminate].
    destruct (grp_data grp) as [d|]; [|discriminate].
    destruct (Hf d t Ht) as (f' & Hf' & [->|[Hl ->]]); [exact Hf'|].
    etrans; [exact Hf'|]. f_equal. destruct t as [cols rs]. cbn [columns rows] in *.
    subst cols. cbn [length] in Hl. rewrite length_map, length_seq in Hl.
    assert (n = 1) as -> by lia. reflexivity.
  - intros s Hs Hc. unfold stats_table in *. rewrite Hg.
    destruct (groups w !! other) as [grp|]; [|discriminate].
    destruct (grp_stats grp) as [d|]; [|discriminate].
    destruct (Hf d s Hs) as (f' & Hf' & [->|[Hl _]]); [exact Hf'|].
    rewrite Hc in Hl. discriminate.
Qed.

Lemma other_group_untouched_witness :
  let w' := snd (SpectGroup.genStats 1 parent_ready) in
  groups w' !! 0 = groups parent_ready !! 0
  /\ (forall (t : DataFrame) (n : nat),
         composed_table parent_ready 0 = Some t ->
         columns t = WL :: map exp_label (seq 0 n) ->
         composed_table w' 0 = Some t)
  /\ (forall s : DataFrame,
         stats_table parent_ready 0 = Some s ->
         columns s = [WL; "min"; "max"; "mean"; "std"] ->
         stats_table w' 0 = Some s).
Proof.
  exact (other_group_untouched parent_ready 1 0
           (fst (SpectGroup.genStats 1 parent_ready)) (snd (SpectGroup.genStats 1 parent_ready))
           ltac:(discriminate) (or_intror (surjective_pairing _))).
Defined.

(** ** Subgroups *)

Lemma check_ints_run (idxs : list pyval) (w : world) :
  SpectGroup.check_ints idxs w
  = if forallb is_int idxs then (inr tt, w)
    else (inl (Raise AssertionError "The subgroup definition can only have integer indecies"), w).
Proof.
  induction idxs as [|v idxs IH]; [reflexivity|].
  cbn [SpectGroup.check_ints forallb]. unfold bind, assert.
  destruct (is_int v); [exact IH|reflexivity].
Qed.

(** [genSubgroup] indexes the experiment list with the index set itself,
    which a Python list does not accept: whenever the definition names at
    least one subgroup the call raises, and builds nothing. *)
Lemma genSubgroup_raises (w : world) (g : ref) (grp : SpectGroup)
      (idxs : list pyval) (rest : list (list pyval)) :
  groups w !! g = Some grp ->
  SpectGroup.genSubgroup g (idxs :: rest) w
  = (inl (if forallb is_int idxs
          then Raise TypeError "list indices must be integers or slices, not list"
          else Raise AssertionError "The subgroup definition can only have integer indecies"), w).
Proof.
  intros Hg. unfold SpectGroup.genSubgroup. cbn [SpectGroup.genSubgroup_from].
  unfold bind at 1. rewrite check_ints_run.
  destruct (forallb is_int idxs); [|reflexivity].
  unfold bind, get_group, lift. rewrite Hg. reflexivity.
Qed.

(** C4, on the example store: the index set [[0, 1]] of the group of three
    experiments gives no subgroup but a [TypeError], and the store is
    unchanged. *)
Lemma genSubgroup_demo :
  SpectGroup.genSubgroup 0 [[PyInt 0; PyInt 1]] demo_world
  = (inl (Raise TypeError "list indices must be integers or slices, not list"), demo_world).
Proof. exact (genSubgroup_raises demo_world 0 _ [PyInt 0; PyInt 1] [] eq_refl). Qed.

(** The overload [getExpList(colNums)], which [genSubgroup] does not call,
    does select the experiments at the given positions. *)
Lemma getExpList_at_selects (l : list ref) (ixs : list nat) (k : nat) (w : world) :
  Forall (fun i => i < length l) ixs ->
  exists sel, SpectGroup.getExpList_at l (map (fun i => PyInt (Z.of_nat i)) ixs) k w = (inr sel, w)
              /\ Forall2 (fun i e => l !! i = Some e) ixs sel.
Proof.
  intros H. revert k. induction H as [|i ixs Hi His IH]; intros k.
  - exists []. split; [reflexivity|constructor].
  - destruct (IH (S k)) as (sel & Hrun & Hsel).
    destruct (lookup_lt_is_Some_2 l i Hi) as [e He].
    exists (e :: sel). split; [|constructor; assumption].
    cbn [map SpectGroup.getExpList_at is_int]. unfold assert at 1. run_pure.
    destruct (Z.ltb_spec (Z.of_nat i) (Z.of_nat (length l))) as [_|Hge]; [|lia].
    unfold assert. run_pure. unfold lift. rewrite (list_getitem_nat l i e He).
    run_pure. rewrite (bind_ok _ _ _ _ _ Hrun). reflexivity.
Qed.

(** ** Loading an experiment *)

Lemma scan_header_sentinel (s : string) (meta : list string) (first : string) (rest acc : list string) :
  forallb (fun l => negb (String.eqb l s)) meta = true ->
  scan_header s (meta ++ s :: first :: rest) false acc = (acc ++ meta ++ [s], Some rest).
Proof.
  revert acc. induction meta as [|l meta IH]; intros acc H.
  - cbn. rewrite String.eqb_refl. reflexivity.
  - cbn [forallb] in H. apply andb_true_iff in H as [Hl H]. apply negb_true_iff in Hl.
    cbn [app scan_header]. rewrite Hl, (IH _ H), <- app_assoc. reflexivity.
Qed.

Section ReaderFacts.

Variable cast : string -> option float.
Variable other :
  ascii -> list string -> option (list (string * dtype)) -> list string -> result (list (list float)).
Variable d : ascii.
Variable convert_dict : option (list (string * dtype)).

Lemma split_nonempty (s : string) : split_on d s <> [].
Proof.
  destruct s as [|c s]; cbn; [discriminate|].
  destruct (Ascii.eqb c d); [discriminate|]. destruct (split_on d s); discriminate.
Qed.

(** A line of blanks holds no delimiter: it is one field. *)
Lemma blank_line_one_field (s : string) : blank_line d s = true -> split_on d s = [s].
Proof.
  induction s as [|c s IH]; [reflexivity|]. cbn [blank_line split_on]. intros H.
  apply andb_true_iff in H as [Hc Hs]. unfold blank_char in Hc.
  apply andb_true_iff in Hc as [_ Hc]. apply negb_true_iff in Hc. rewrite Hc, (IH Hs).
  reflexivity.
Qed.

Lemma row_ok_nonblank (line : string) : row_ok cast d line = true -> nonblank d line = true.
Proof.
  unfold row_ok, row_cells, nonblank. intros H.
  destruct (blank_line d (strip_newline line)) eqn:E; [|reflexivity].
  rewrite (blank_line_one_field _ E) in H. discriminate.
Qed.

Lemma records_cons (line : string) (lines : list string) :
  nonblank d line = true ->
  records d (line :: lines) = split_on d (strip_newline line) :: records d lines.
Proof. unfold records, nonblank. intros H. cbn [map List.filter]. rewrite H. reflexivity. Qed.

(** Under names that differ and a dictionary that asks for float64 under
    each of them, the reader is the one spelled out. *)
Lemma read_csv_float64 (names lines : list string) :
  distinct names = true -> all_float64 convert_dict names = true ->
  read_csv cast other d names convert_dict lines = read_float64 cast d names lines.
Proof. intros Hd Hf. unfold read_csv, check_names. rewrite Hd, Hf. reflexivity. Qed.

(** The reader tests the names before anything else. *)
Lemma read_csv_names (names lines : list string) (df : DataFrame) :
  read_csv cast other d names convert_dict lines = inr df -> check_names names = inr tt.
Proof.
  unfold read_csv. destruct (check_names names) as [e|[]]; [discriminate|reflexivity].
Qed.


Lemma cast_fields_ok (a b : string) (x y : float) :
  String.eqb a "" = false -> String.eqb b "" = false -> cast a = Some x -> cast b = Some y ->
  cast_fields cast [a; b] = inr [x; y].
Proof. intros Ha Hb Hx Hy. cbn. unfold cast_field. rewrite Ha, Hb, Hx, Hy. reflexivity. Qed.

(** The reader on well-formed rows: one table row per line. *)
Lemma cast_records_ok (lines : list string) :
  forallb (row_ok cast d) lines = true ->
  exists rs, cast_records cast 2 2 (records d lines) = inr rs
             /\ length rs = length lines
             /\ forallb (fun r => (length r =? 2)%nat) rs = true
             /\ forallb (fun r => (length r <=? 2)%nat) (records d lines) = true.
Proof.
  induction lines as [|l lines IH]; intros H.
  - exists []. repeat split; reflexivity.
  - cbn [forallb] in H. apply andb_true_iff in H as [Hl H].
    destruct (IH H) as (rs & Hrs & Hlen & Hrect & Hw).
    rewrite (records_cons _ _ (row_ok_nonblank _ Hl)).
    unfold row_ok, row_cells in Hl.
    destruct (split_on d (strip_newline l)) as [|a [|b [|? ?]]]; try discriminate.
    destruct (String.eqb a "") eqn:Ha; [discriminate|].
    destruct (String.eqb b "") eqn:Hb; [discriminate|]. cbn [orb] in Hl.
    destruct (cast a) as [x|] eqn:Hx; [|discriminate].
    destruct (cast b) as [y|] eqn:Hy; [|discriminate].
    exists ([x; y] :: rs). cbn [cast_records length Nat.sub replicate app drop].
    rewrite (cast_fields_ok a b x y Ha Hb Hx Hy), Hrs.
    repeat split; cbn; auto.
Qed.

Lemma read_csv_ok (names lines : list string) :
  length names = 2 -> distinct names = true -> all_float64 convert_dict names = true ->
  forallb (row_ok cast d) lines = true ->
  exists rs, read_csv cast other d names convert_dict lines = inr {| columns := names; rows := rs |}
             /\ length rs = length lines
             /\ forallb (fun r => (length r =? 2)%nat) rs = true.
Proof.
  intros Hn Hd Hf H. destruct (cast_records_ok lines H) as (rs & Hrs & Hlen & Hrect & Hw).
  exists rs. repeat split; auto. rewrite (read_csv_float64 _ _ Hd Hf).
  unfold read_float64. rewrite Hn.
  assert (Hwidth : match records d lines with [] => 2 | r :: _ => Nat.max (length r) 2 end = 2).
  { destruct (records d lines) as [|r recs]; [reflexivity|].
    cbn [forallb] in Hw. apply andb_true_iff in Hw as [Hr _]. apply Nat.leb_le in Hr. lia. }
  rewrite Hwidth.
  assert (Hno : existsb (fun r => (2 <? length r)%nat) (records d lines) = false).
  { clear -Hw. induction (records d lines) as [|r recs IH]; [reflexivity|].
    cbn [forallb existsb] in *. apply andb_true_iff in Hw as [Hr Hw].
    rewrite (IH Hw), orb_false_r. apply Nat.leb_le in Hr. apply Nat.ltb_ge. exact Hr. }
  rewrite Hno, Hrs. reflexivity.
Qed.

End ReaderFacts.

Lemma getSource_run (w : world) (e : ref) (ex : SpectExp) :
  exps w !! e = Some ex -> SpectExp.getSource e w = (inr (exp_sourceFile ex), w).
Proof. intros H. unfold SpectExp.getSource, bind, get_exp, ret. rewrite H. reflexivity. Qed.

Lemma read_lines_run (w : world) (src : string) (lines : list string) :
  lookup_file (files w) src = Some lines -> read_lines (Some src) w = (inr lines, w).
Proof. intros H. unfold read_lines. rewrite H. reflexivity. Qed.

Lemma read_path_run (w : world) (src : string) (lines : list string) :
  lookup_file (files w) src = Some lines -> read_path (Some src) w = (inr lines, w).
Proof. intros H. unfold read_path. rewrite H. reflexivity. Qed.

Lemma setMetaInfo_run (w : world) (e : ref) (ex : SpectExp) (meta : list string) :
  exps w !! e = Some ex ->
  SpectExp.setMetaInfo e meta w = (inr tt, with_exps w (<[e := set_meta ex meta]> (exps w))).
Proof. intros H. unfold SpectExp.setMetaInfo, bind, get_exp, put_exp. rewrite H. reflexivity. Qed.

Lemma exp_setData_run (w : world) (e : ref) (ex : SpectExp) (r : ref) (f : DataFrame) :
  frames w !! r = Some f -> length (columns f) = 2 -> exps w !! e = Some ex ->
  SpectExp.setData e r w
  = (inr tt, with_exps (with_frames w (<[r := {| columns := [WL; nth 1 (columns f) ""];
                                                 rows := rows f |}]> (frames w)))
                       (<[e := set_exp_data ex r]> (exps w))).
Proof.
  intros Hf Hl He. unfold SpectExp.setData.
  run_with (get_frame_run w r f Hf). rewrite Hl. unfold assert. cbn [Nat.eqb]. run_pure.
  rewrite (bind_ok _ _ _ _ _ (set_columns_run w r f [WL; nth 1 (columns f) ""] Hf (eq_sym Hl))).
  cbv beta. unfold bind, get_exp, put_exp. cbn [exps with_frames]. rewrite He. reflexivity.
Qed.

(** Storing what the reader returned: the metadata, then the table. *)
Lemma store_loaded (w : world) (e : ref) (ex : SpectExp) (meta names : list string)
      (rs : list (list float)) :
  exps w !! e = Some ex -> length names = 2 ->
  (let* pandas_read := alloc_frame {| columns := names; rows := rs |} in
   SpectExp.setMetaInfo e meta ;; SpectExp.setData e pandas_read) w
  = (inr tt, loaded_world w e ex meta names rs).
Proof.
  intros He Hn. pose proof (lookup_lt_Some _ _ _ He) as Hlt.
  unfold alloc_frame. run_pure.
  set (w1 := with_frames w (frames w ++ [{| columns := names; rows := rs |}])).
  run_with (setMetaInfo_run w1 e ex meta He).
  rewrite (exp_setData_run _ e (set_meta ex meta) (length (frames w))
                           {| columns := names; rows := rs |}).
  - unfold loaded_world, w1. cbn [exps frames with_exps with_frames columns rows].
    rewrite list_insert_insert_eq, insert_at_end. reflexivity.
  - apply lookup_at_end.
  - exact Hn.
  - cbn [exps with_exps]. apply list_lookup_insert_eq. exact Hlt.
Qed.

Lemma readFile_loads (cast : string -> option float)
      (other : ascii -> list string -> option (list (string * dtype)) -> list string
               -> result (list (list float)))
      (w : world) (e : ref) (ex : SpectExp)
      (src : string) (d : ascii) (begin_line : option string)
      (convert_dict : option (list (string * dtype)))
      (names lines given meta : list string) (rs : list (list float)) :
  exps w !! e = Some ex -> exp_sourceFile ex = Some src ->
  lookup_file (files w) src = Some lines ->
  match begin_line with
  | None => given = lines /\ meta = []
  | Some s => scan_header s lines false [] = (meta, Some given)
  end ->
  read_csv cast other d names convert_dict given = inr {| columns := names; rows := rs |} ->
  length names = 2 ->
  SpectExp.readFile cast other e d begin_line convert_dict names w
  = (inr tt, loaded_world w e ex meta names rs).
Proof.
  intros He Hsrc Hfile Hin Hread Hn. unfold SpectExp.readFile.
  destruct begin_line as [s|].
  - run_with (getSource_run w e ex He). rewrite Hsrc.
    run_with (read_lines_run w src lines Hfile).
    rewrite Hin. unfold lift. rewrite Hread. run_pure.
    apply store_loaded; assumption.
  - destruct Hin as [-> ->].
    run_with (getSource_run w e ex He). rewrite Hsrc.
    unfold lift. rewrite (read_csv_names _ _ _ _ _ _ _ Hread). run_pure.
    run_with (read_path_run w src lines Hfile).
    rewrite Hread. run_pure.
    apply store_loaded; assumption.
Qed.


Section ReaderRejects.

Variable cast : string -> option float.
Variable other :
  ascii -> list string -> option (list (string * dtype)) -> list string -> result (list (list float)).
Variable d : ascii.
Variable convert_dict : option (list (string * dtype)).






Lemma records_no_long (recs : list (list string)) :
  forallb (fun r => (length r <=? 2)%nat) recs = true ->
  existsb (fun r => (2 <? length r)%nat) recs = false.
Proof.
  induction recs as [|r recs IH]; [reflexivity|]. cbn [forallb existsb]. intros H.
  apply andb_true_iff in H as [Hr H]. rewrite (IH H), orb_false_r.
  apply Nat.leb_le in Hr. apply Nat.ltb_ge. exact Hr.
Qed.




End ReaderRejects.

(** C3, amended.  For a file of k metadata lines, none of them the
    sentinel, then the sentinel line, then m >= 1 well-formed rows, loading
    with that sentinel, two column names that differ and a dictionary that
    asks for float64 under both succeeds; the metadata stored are the k
    metadata lines followed by the sentinel line itself, so k + 1 lines,
    and the experiment is loaded with a rectangular table labelled
    [Wavelength] and the second name given. *)
Theorem readFile_sentinel_metadata (cast : string -> option float)
        (other : ascii -> list string -> option (list (string * dtype)) -> list string
                 -> result (list (list float)))
        (w : world) (e : ref)
        (ex : SpectExp) (src : string) (d : ascii) (sentinel : string)
        (convert_dict : option (list (string * dtype)))
        (names meta : list string) (first : string) (rest : list string) :
  exps w !! e = Some ex -> exp_sourceFile ex = Some src ->
  lookup_file (files w) src = Some (meta ++ sentinel :: first :: rest) ->
  forallb (fun l => negb (String.eqb l sentinel)) meta = true ->
  forallb (row_ok cast d) (first :: rest) = true ->
  length names = 2 -> distinct names = true -> all_float64 convert_dict names = true ->
  exists (w' : world) (ex' : SpectExp) (r : ref) (t : DataFrame),
    SpectExp.readFile cast other e d (Some sentinel) convert_dict names w = (inr tt, w')
    /\ exps w' !! e = Some ex'
    /\ exp_metaInfo ex' = Some (meta ++ [sentinel])
    /\ length (meta ++ [sentinel]) = S (length meta)
    /\ exp_data ex' = Some r
    /\ frames w' !! r = Some t
    /\ columns t = [WL; nth 1 names ""]
    /\ frame_rect t = true.
Proof.
  intros He Hsrc Hfile Hmeta Hrows Hn Hd Hf.
  cbn [forallb] in Hrows. apply andb_true_iff in Hrows as [_ Hrest].
  destruct (read_csv_ok cast other d convert_dict names rest Hn Hd Hf Hrest)
    as (rs & Hread & _ & Hrect).
  pose proof (lookup_lt_Some _ _ _ He) as Hlt.
  exists (loaded_world w e ex (meta ++ [sentinel]) names rs),
         (set_loaded ex (meta ++ [sentinel]) (length (frames w))),
         (length (frames w)),
         {| columns := [WL; nth 1 names ""]; rows := rs |}.
  split.
  { apply (readFile_loads cast other w e ex src d (Some sentinel) convert_dict names _ rest
                          (meta ++ [sentinel]) rs He Hsrc Hfile); auto.
    exact (scan_header_sentinel sentinel meta first rest [] Hmeta). }
  unfold loaded_world. cbn [exps frames with_exps with_frames].
  split; [apply list_lookup_insert_eq; exact Hlt|].
  split; [reflexivity|]. split; [rewrite length_app; simpl; lia|].
  split; [reflexivity|]. split; [apply lookup_at_end|].
  split; [reflexivity|exact Hrect].
Qed.

Lemma readFile_sentinel_metadata_witness :
  exists (w' : world) (ex' : SpectExp) (r : ref) (t : DataFrame),
    SpectExp.readFile cast_digits no_other_reader 3 TAB (Some (text_line "BEGIN"))
                      measure_dtypes [WL; "Measure"] demo_world
    = (inr tt, w')
    /\ exps w' !! 3 = Some ex'
    /\ exp_metaInfo ex' = Some [text_line "meta1"; text_line "meta2"; text_line "BEGIN"]
    /\ length ([text_line "meta1"; text_line "meta2"] ++ [text_line "BEGIN"]) = 3
    /\ exp_data ex' = Some r
    /\ frames w' !! r = Some t
    /\ columns t = [WL; "Measure"]
    /\ frame_rect t = true.
Proof.
  exact (readFile_sentinel_metadata cast_digits no_other_reader demo_world 3
           (unloaded_exp "spectrum.txt")
           "spectrum.txt" TAB (text_line "BEGIN") measure_dtypes [WL; "Measure"]
           [text_line "meta1"; text_line "meta2"] (data_row "1" "2")
           [data_row "3" "4"; data_row "5" "6"]
           eq_refl eq_refl eq_refl eq_refl eq_refl eq_refl eq_refl eq_refl).
Defined.

(** C3 as stated fails on the scenario of the specification: with the
    sentinel ["BEGIN\n"], two metadata lines and three rows, the metadata
    stored have three lines, not two, and the table has two rows, not
    three. *)
Lemma readFile_sentinel_counts :
  exists (w' : world) (ex' : SpectExp) (r : ref) (t : DataFrame),
    SpectExp.readFile cast_digits no_other_reader 3 TAB (Some (text_line "BEGIN"))
                      measure_dtypes [WL; "Measure"] demo_world
    = (inr tt, w')
    /\ exps w' !! 3 = Some ex'
    /\ exp_metaInfo ex' = Some [text_line "meta1"; text_line "meta2"; text_line "BEGIN"]
    /\ exp_data ex' = Some r
    /\ frames w' !! r = Some t
    /\ rows t = [[3; 4]; [5; 6]]%float
    /\ ~ (option_map (@length string) (exp_metaInfo ex') = Some 2 /\ length (rows t) = 3).
Proof.
  eexists. eexists. eexists. eexists.
  split; [vm_compute; reflexivity|].
  split; [vm_compute; reflexivity|].
  split; [vm_compute; reflexivity|].
  split; [reflexivity|].
  split; [vm_compute; reflexivity|].
  split; [reflexivity|].
  cbn. intros [H _]. discriminate.
Qed.



(** The dictionary of [SpectExp.default_read_dict] asks for float64 under
    the keys [A] and [B], which are not the names it gives the columns. *)
Example default_dict_names_no_column :
  all_float64 default_convert_dict [WL; "Measure"] = false.
Proof. reflexivity. Qed.


(** ** The order of binary64 numbers, and the bounds of the statistics *)

Lemma SFleb_refl (x : spec_float) : x <> S754_nan -> SFleb x x = true.
Proof. intros H. unfold SFleb. rewrite (SFcompare_refl x H). reflexivity. Qed.

Lemma SFltb_leb (x y : spec_float) : SFltb x y = true -> SFleb x y = true.
Proof. unfold SFltb, SFleb. destruct (SFcompare x y) as [[| |]|]; auto. Qed.

Lemma SFcompare_swap (x y : spec_float) :
  SFcompare y x = option_map CompOpp (SFcompare x y).
Proof.
  destruct x as [s1|s1| |s1 m1 e1], y as [s2|s2| |s2 m2 e2]; simpl; try reflexivity;
    try (destruct s1; reflexivity); try (destruct s2; reflexivity);
    try (destruct s1, s2; reflexivity).
  change (Pos.compare_cont Eq m1 m2) with (Pos.compare m1 m2).
  change (Pos.compare_cont Eq m2 m1) with (Pos.compare m2 m1).
  rewrite (Z.compare_antisym e1 e2), (Pos.compare_antisym m1 m2).
  destruct s1, s2; try reflexivity;
    destruct (Z.compare e1 e2); simpl; try reflexivity;
    destruct (Pos.compare m1 m2); reflexivity.
Qed.

Lemma SFnot_ltb_leb (x y : spec_float) :
  x <> S754_nan -> y <> S754_nan -> SFltb y x = false -> SFleb x y = true.
Proof.
  intros Hx Hy. unfold SFltb, SFleb. rewrite (SFcompare_swap x y).
  destruct (SFcompare x y) as [[| |]|] eqn:E; simpl; try reflexivity; try discriminate.
  destruct x, y; try congruence; simpl in E; discriminate.
Qed.

Lemma lex_cmp_le e1 m1 e2 m2 :
  match Z.compare e1 e2 with Lt => Lt | Gt => Gt | Eq => Pos.compare_cont Eq m1 m2 end <> Gt
  <-> lex_le e1 m1 e2 m2.
Proof.
  change (Pos.compare_cont Eq m1 m2) with (Pos.compare m1 m2). unfold lex_le.
  destruct (Z.compare_spec e1 e2); destruct (Pos.compare_spec m1 m2); split; intros Hgoal;
    try congruence; try lia.
Qed.

Lemma lex_cmp_ge e1 m1 e2 m2 :
  match Z.compare e1 e2 with Lt => Gt | Gt => Lt | Eq => CompOpp (Pos.compare_cont Eq m1 m2) end <> Gt
  <-> lex_le e2 m2 e1 m1.
Proof.
  change (Pos.compare_cont Eq m1 m2) with (Pos.compare m1 m2). unfold lex_le.
  destruct (Z.compare_spec e1 e2); destruct (Pos.compare_spec m1 m2); simpl; split; intros Hgoal;
    try congruence; try lia.
Qed.

Lemma lex_le_trans e1 m1 e2 m2 e3 m3 :
  lex_le e1 m1 e2 m2 -> lex_le e2 m2 e3 m3 -> lex_le e1 m1 e3 m3.
Proof. unfold lex_le. lia. Qed.

Lemma SFleb_not_gt (x y : spec_float) :
  SFleb x y = true <-> (exists c, SFcompare x y = Some c /\ c <> Gt).
Proof.
  unfold SFleb. destruct (SFcompare x y) as [[| |]|]; split; intros H;
    try discriminate; try reflexivity; try (eexists; split; [reflexivity|discriminate]);
    destruct H as (c & [= <-] & Hc); congruence.
Qed.

Lemma SFleb_trans (x y z : spec_float) :
  SFleb x y = true -> SFleb y z = true -> SFleb x z = true.
Proof.
  destruct x as [s1|s1| |s1 m1 e1], y as [s2|s2| |s2 m2 e2], z as [s3|s3| |s3 m3 e3];
    unfold SFleb; cbn [SFcompare];
    try discriminate; try reflexivity;
    try (destruct s1; try discriminate; try reflexivity; fail);
    try (destruct s2; try discriminate; try reflexivity; fail);
    try (destruct s3; try discriminate; try reflexivity; fail);
    try (destruct s1, s2; try discriminate; try reflexivity; fail);
    try (destruct s1, s3; try discriminate; try reflexivity; fail);
    try (destruct s2, s3; try discriminate; try reflexivity; fail);
    try (destruct s1, s2, s3; try discriminate; try reflexivity; fail).
  all: destruct s1, s2, s3; try discriminate; try reflexivity.
  all: change (PosDef.Pos.compare_cont Eq m1 m2) with (Pos.compare m1 m2);
    change (PosDef.Pos.compare_cont Eq m2 m3) with (Pos.compare m2 m3);
    change (PosDef.Pos.compare_cont Eq m1 m3) with (Pos.compare m1 m3);
    destruct (Z.compare_spec e1 e2); destruct (Z.compare_spec e2 e3);
    destruct (Z.compare_spec e1 e3); try lia;
    destruct (Pos.compare_spec m1 m2); destruct (Pos.compare_spec m2 m3);
    destruct (Pos.compare_spec m1 m3); cbn; intros; try reflexivity; try discriminate; lia.
Qed.

Lemma Prim2SF_zero : Prim2SF PrimFloat.zero = S754_zero false.
Proof. reflexivity. Qed.

(** A square root is NaN or not below zero. *)
Lemma SFsqrt_sign (y : spec_float) :
  SF64sqrt y = S754_nan \/ SFleb (S754_zero false) (SF64sqrt y) = true.
Proof.
  unfold SF64sqrt, SFsqrt. destruct y as [s|[|]| |[|] m e]; auto.
  destruct (SFsqrt_core_binary prec emax (Z.pos m) e) as [[mz ez] lz].
  unfold binary_round_aux.
  destruct (shr_fexp prec emax mz ez lz) as [mrs' e'].
  destruct (shr_fexp prec emax _ e' loc_Exact) as [mrs'' e''].
  destruct (shr_m mrs'') as [|p|p]; auto.
  destruct (Z.leb e'' (Z.sub emax prec)); auto.
Qed.

Lemma float_leb_refl (x : float) : is_nan x = false -> (x <=? x)%float = true.
Proof.
  intros H. rewrite FloatAxioms.leb_spec. apply SFleb_refl. intros E.
  apply is_nan_spec in E. congruence.
Qed.

Lemma float_leb_trans (x y z : float) :
  (x <=? y)%float = true -> (y <=? z)%float = true -> (x <=? z)%float = true.
Proof. rewrite !FloatAxioms.leb_spec. apply SFleb_trans. Qed.

Lemma not_nan_spec (x : float) : is_nan x = false -> Prim2SF x <> S754_nan.
Proof. intros H E. apply is_nan_spec in E. congruence. Qed.

Lemma fmin_spec (a b : float) :
  is_nan a = false -> is_nan b = false ->
  is_nan (fmin a b) = false /\ (fmin a b <=? a)%float = true /\ (fmin a b <=? b)%float = true.
Proof.
  intros Ha Hb. unfold fmin. destruct (b <? a)%float eqn:E.
  - repeat split; auto; [|apply float_leb_refl; auto].
    rewrite FloatAxioms.leb_spec. apply SFltb_leb. rewrite <- FloatAxioms.ltb_spec. exact E.
  - repeat split; auto; [apply float_leb_refl; auto|].
    rewrite FloatAxioms.leb_spec. apply SFnot_ltb_leb; try apply not_nan_spec; auto.
    rewrite <- FloatAxioms.ltb_spec. exact E.
Qed.

Lemma fmax_spec (a b : float) :
  is_nan a = false -> is_nan b = false ->
  is_nan (fmax a b) = false /\ (a <=? fmax a b)%float = true /\ (b <=? fmax a b)%float = true.
Proof.
  intros Ha Hb. unfold fmax. destruct (a <? b)%float eqn:E.
  - repeat split; auto; [|apply float_leb_refl; auto].
    rewrite FloatAxioms.leb_spec. apply SFltb_leb. rewrite <- FloatAxioms.ltb_spec. exact E.
  - repeat split; auto; [apply float_leb_refl; auto|].
    rewrite FloatAxioms.leb_spec. apply SFnot_ltb_leb; try apply not_nan_spec; auto.
    rewrite <- FloatAxioms.ltb_spec. exact E.
Qed.

Lemma fold_fmin_le (r : list float) :
  forall x0, is_nan x0 = false -> Forall (fun y => is_nan y = false) r ->
  is_nan (fold_left fmin r x0) = false
  /\ (fold_left fmin r x0 <=? x0)%float = true
  /\ Forall (fun y => (fold_left fmin r x0 <=? y)%float = true) r.
Proof.
  induction r as [|y r IH]; intros x0 Hx Hr.
  - cbn. repeat split; auto. apply float_leb_refl; auto.
  - inversion Hr as [|? ? Hy Hr']; subst.
    destruct (fmin_spec x0 y Hx Hy) as (Hn & Hle0 & Hley).
    destruct (IH (fmin x0 y) Hn Hr') as (Hn' & Hle & Hall).
    cbn [fold_left]. repeat split; auto.
    + eapply float_leb_trans; eauto.
    + constructor; [eapply float_leb_trans; eauto|exact Hall].
Qed.

Lemma fold_fmax_ge (r : list float) :
  forall x0, is_nan x0 = false -> Forall (fun y => is_nan y = false) r ->
  is_nan (fold_left fmax r x0) = false
  /\ (x0 <=? fold_left fmax r x0)%float = true
  /\ Forall (fun y => (y <=? fold_left fmax r x0)%float = true) r.
Proof.
  induction r as [|y r IH]; intros x0 Hx Hr.
  - cbn. repeat split; auto. apply float_leb_refl; auto.
  - inversion Hr as [|? ? Hy Hr']; subst.
    destruct (fmax_spec x0 y Hx Hy) as (Hn & Hle0 & Hley).
    destruct (IH (fmax x0 y) Hn Hr') as (Hn' & Hle & Hall).
    cbn [fold_left]. repeat split; auto.
    + eapply float_leb_trans; eauto.
    + constructor; [eapply float_leb_trans; eauto|exact Hall].
Qed.

Lemma notnan_all (v : list float) : Forall (fun y => is_nan y = false) (notnan v).
Proof.
  apply List.Forall_forall. intros x Hx. unfold notnan in Hx.
  apply filter_In in Hx as [_ Hx]. apply negb_true_iff in Hx. exact Hx.
Qed.

Lemma nanmin_le (v : list float) (x : float) :
  In x (notnan v) -> (nanmin v <=? x)%float = true.
Proof.
  unfold nanmin. pose proof (notnan_all v) as Hall.
  destruct (notnan v) as [|x0 r]; [intros []|].
  inversion Hall as [|? ? H0 Hr]; subst.
  destruct (fold_fmin_le r x0 H0 Hr) as (_ & Hle & Hrest).
  intros [<-|Hin]; [exact Hle|].
  rewrite List.Forall_forall in Hrest. auto.
Qed.

Lemma nanmax_ge (v : list float) (x : float) :
  In x (notnan v) -> (x <=? nanmax v)%float = true.
Proof.
  unfold nanmax. pose proof (notnan_all v) as Hall.
  destruct (notnan v) as [|x0 r]; [intros []|].
  inversion Hall as [|? ? H0 Hr]; subst.
  destruct (fold_fmax_ge r x0 H0 Hr) as (_ & Hle & Hrest).
  intros [<-|Hin]; [exact Hle|].
  rewrite List.Forall_forall in Hrest. auto.
Qed.

Lemma nanstd_sign (v : list float) :
  is_nan (nanstd v) = true \/ (0 <=? nanstd v)%float = true.
Proof.
  unfold nanstd. rewrite is_nan_spec, FloatAxioms.leb_spec, FloatAxioms.sqrt_spec.
  change (Prim2SF 0) with (S754_zero false). apply SFsqrt_sign.
Qed.

Lemma nanstd_single (v : list float) : length v <= 1 -> is_nan (nanstd v) = true.
Proof.
  intros H. unfold nanstd, nanvar.
  assert (Hc : (length (notnan v) <=? 1)%nat = true).
  { apply Nat.leb_le. unfold notnan. destruct v as [|a [|b v]]; simpl in *; try lia.
    destruct (negb (is_nan a)); simpl; lia. }
  rewrite Hc. reflexivity.
Qed.

Lemma stats_row_bounds (r : list float) : stats_bounds r (stats_row r).
Proof.
  unfold stats_bounds, stats_row, cell. cbn [nth]. repeat split.
  - apply nanmin_le. assumption.
  - apply nanmax_ge. assumption.
  - intros Hne. destruct (notnan (tl r)) as [|x rest] eqn:E; [congruence|].
    assert (Hin : In x (notnan (tl r))) by (rewrite E; left; reflexivity).
    eapply float_leb_trans; [apply nanmin_le|apply nanmax_ge]; exact Hin.
  - apply nanstd_sign.
  - apply nanstd_single.
Qed.

(** C9, amended.  In the statistics [genStats()] stores for a composed
    table, row by row: the minimum is at most, and the maximum at least,
    every value of the row that is not NaN, so min <= max whenever the row
    has such a value; the standard deviation is NaN for a single value
    column and otherwise NaN or at least zero.  (The mean is a rounded
    quotient and is not bounded by the two.) *)
Theorem genStats_row_bounds (w : world) (g : ref) (grp : SpectGroup) (d : ref) (t : DataFrame) :
  groups w !! g = Some grp -> grp_data grp = Some d -> frames w !! d = Some t ->
  keyed t = true ->
  exists (w' : world) (s : DataFrame),
    SpectGroup.genStats g w = (inr tt, w')
    /\ stats_table w' g = Some s
    /\ Forall2 stats_bounds (rows t) (rows s).
Proof.
  intros Hg Hd Ht Hk.
  destruct (genStats_on_composed w g grp d t Hg Hd Ht Hk) as (Hrun & _ & Hs).
  eexists. eexists. split; [exact Hrun|]. split; [exact Hs|].
  unfold stats_of. cbn [rows].
  induction (rows t) as [|r rs IH]; cbn [map]; constructor; [apply stats_row_bounds|exact IH].
Qed.

Lemma genStats_row_bounds_witness :
  exists (w' : world) (s : DataFrame),
    SpectGroup.genStats 0 composed_demo = (inr tt, w')
    /\ stats_table w' 0 = Some s
    /\ Forall2 stats_bounds [[2; 20; 21; 22]; [3; 30; 31; 32]]%float (rows s).
Proof.
  exact (genStats_row_bounds composed_demo 0 (set_data (group_of [0; 1; 2] "Run") 3) 3
           {| columns := [WL; "Exp_0"; "Exp_1"; "Exp_2"];
              rows := [[2; 20; 21; 22]; [3; 30; 31; 32]]%float |}
           eq_refl eq_refl eq_refl eq_refl).
Defined.

(** C9 as stated fails for the mean: three experiments with the value 0.1
    at one key have min = max = 0.1, and the mean, the rounded sum
    0.30000000000000004 divided by 3, is 0.10000000000000002: above the
    maximum. *)
Lemma genStats_mean_above_max :
  exists (w' : world) (s : DataFrame) (r : list float),
    SpectGroup.genStats 0 (world_of [[[1%float; tenth]]; [[1%float; tenth]]; [[1%float; tenth]]])
    = (inr tt, w')
    /\ stats_table w' 0 = Some s
    /\ rows s = [r]
    /\ cell r 1 = tenth
    /\ cell r 2 = tenth
    /\ cell r 3 = 0x1.999999999999bp-4%float
    /\ (cell r 3 <=? cell r 2)%float = false.
Proof.
  eexists. eexists. eexists.
  split; [vm_compute; reflexivity|].
  split; [vm_compute; reflexivity|].
  split; [reflexivity|].
  repeat split; vm_compute; reflexivity.
Qed.

(** ** The statistics, value by value *)

Lemma fold_fmin_In (r : list float) : forall x0, In (fold_left fmin r x0) (x0 :: r).
Proof.
  induction r as [|y r IH]; intros x0; cbn [fold_left]; [left; reflexivity|].
  destruct (IH (fmin x0 y)) as [H|H]; [|right; right; exact H].
  rewrite <- H. unfold fmin. destruct (y <? x0)%float; [right; left|left]; reflexivity.
Qed.

Lemma fold_fmax_In (r : list float) : forall x0, In (fold_left fmax r x0) (x0 :: r).
Proof.
  induction r as [|y r IH]; intros x0; cbn [fold_left]; [left; reflexivity|].
  destruct (IH (fmax x0 y)) as [H|H]; [|right; right; exact H].
  rewrite <- H. unfold fmax. destruct (x0 <? y)%float; [right; left|left]; reflexivity.
Qed.

Lemma nanmin_In (v : list float) : notnan v <> [] -> In (nanmin v) (notnan v).
Proof.
  unfold nanmin. destruct (notnan v) as [|x r]; [congruence|]. intros _. apply fold_fmin_In.
Qed.

Lemma nanmax_In (v : list float) : notnan v <> [] -> In (nanmax v) (notnan v).
Proof.
  unfold nanmax. destruct (notnan v) as [|x r]; [congruence|]. intros _. apply fold_fmax_In.
Qed.

Lemma nanstd_few (v : list float) : length (notnan v) <= 1 -> is_nan (nanstd v) = true.
Proof.
  intros H. unfold nanstd, nanvar. apply Nat.leb_le in H. rewrite H. reflexivity.
Qed.

Lemma nanstd_spec (v : list float) : 2 <= length (notnan v) -> nanstd v = spec_std (notnan v).
Proof.
  intros H. unfold nanstd, nanvar.
  destruct (length (notnan v) <=? 1)%nat eqn:E; [apply Nat.leb_le in E; lia|]. reflexivity.
Qed.

(** The row [genStats] computes is the row the specification describes,
    over the values that are not NaN. *)
Lemma stats_row_spec (r : list float) : stats_spec r (stats_row r).
Proof.
  unfold stats_spec, stats_row, row_values, cell. cbn [nth length].
  fold (notnan (tl r)).
  split; [reflexivity|]. split; [reflexivity|]. split; [|split; [|split; [|split]]].
  - intros E. unfold nanmin, nanmax, nanmean. rewrite E. repeat split; reflexivity.
  - intros Hne. split; [apply nanmin_In; exact Hne|]. split; [apply nanmax_In; exact Hne|].
    intros x Hx. split; [apply nanmin_le|apply nanmax_ge]; exact Hx.
  - intros _ _. reflexivity.
  - apply nanstd_few.
  - intros _. apply nanstd_spec.
Qed.

Lemma stats_rows_spec (rs : list (list float)) : Forall2 stats_spec rs (map stats_row rs).
Proof. induction rs as [|r rs IH]; cbn [map]; constructor; [apply stats_row_spec|exact IH]. Qed.

(** C2, amended.  On a group whose composed table has the key column
    [Wavelength] first and any number of value columns, [genStats()]
    succeeds, leaves the composed table as it is, and stores a table with
    the labels [Wavelength], [min], [max], [mean], [std] that has one row
    for every row of the composed table, in the same order: the key is
    copied; the minimum and the maximum are values of the row that bound
    all its values, NaN cells left out; for up to seven value columns the
    mean is the sum of the values that are not NaN divided by their
    number n, and the standard deviation the square root of the sum of
    their squared deviations from the mean divided by n - 1; the standard
    deviation is NaN when n <= 1, so always with a single value column,
    and the other three are NaN when n = 0.  On a group that is not
    composed yet and whose loaded experiments compose, [genStats()]
    composes first and then does the same with the table composed. *)
Theorem genStats_table (w : world) (g : ref) (grp : SpectGroup) :
  groups w !! g = Some grp ->
  (forall (d : ref) (t : DataFrame),
      grp_data grp = Some d -> frames w !! d = Some t -> keyed t = true ->
      exists (w' : world) (s : DataFrame),
        SpectGroup.genStats g w = (inr tt, w')
        /\ composed_table w' g = Some t
        /\ stats_table w' g = Some s
        /\ columns s = [WL; "min"; "max"; "mean"; "std"]
        /\ Forall2 stats_spec (rows t) (rows s))
  /\ (forall (fs : list DataFrame) (t : DataFrame),
         grp_data grp = None ->
         loaded_frames w (grp_expList grp) = Some fs ->
         forallb exp_table_ok fs = true -> compose_table fs = Some t ->
         exists (w' : world) (s : DataFrame),
           SpectGroup.genStats g w = (inr tt, w')
           /\ composed_table w' g = Some t
           /\ stats_table w' g = Some s
           /\ columns s = [WL; "min"; "max"; "mean"; "std"]
           /\ Forall2 stats_spec (rows t) (rows s)).
Proof.
  intros Hg. split.
  - intros d t Hd Ht Hk. exists (stats_world w g grp t), (stats_of t).
    destruct (genStats_on_composed w g grp d t Hg Hd Ht Hk) as (Hrun & Hc & Hs).
    repeat split; auto. apply stats_rows_spec.
  - intros fs t Hd Hl Hok Ht. unfold loaded_frames in Hl.
    destruct (loaded_refs w (grp_expList grp)) as [ds|] eqn:Hds; [|discriminate].
    assert (Hne : fs <> []) by (intros ->; discriminate).
    pose proof (Compose_built w g grp ds fs t Hg Hds Hl Hok Ht) as Hrun.
    set (w1 := composed_world w g grp ds t) in *.
    pose proof (composed_world_table w g grp ds fs t Hg Hl) as Htab. fold w1 in Htab.
    unfold composed_table in Htab.
    destruct (groups w1 !! g) as [grp1|] eqn:Hg1; [|discriminate].
    destruct (grp_data grp1) as [d1|] eqn:Hd1; [|discriminate].
    pose proof (compose_table_keyed fs t Hne Hok Ht) as Hk.
    exists (stats_world w1 g grp1 t), (stats_of t).
    destruct (stats_world_tables w1 g grp1 d1 t Hg1 Hd1 Htab) as [H1 H2].
    split; [|split; [exact H1|split; [exact H2|split; [reflexivity|apply stats_rows_spec]]]].
    unfold SpectGroup.genStats.
    run_with (isComposed_run w g grp Hg). rewrite Hd.
    run_with Hrun.
    apply (stats_from_data_run w1 g grp1 d1 t Hg1 Hd1 Htab Hk).
Qed.

(** Three experiments that share the keys 2 and 3, not composed yet: the
    statistics describe the rows [2; 20; 21; 22] and [3; 30; 31; 32]. *)
Lemma genStats_table_witness :
  exists (w' : world) (s : DataFrame),
    SpectGroup.genStats 0 demo_world = (inr tt, w')
    /\ composed_table w' 0
       = Some {| columns := [WL; "Exp_0"; "Exp_1"; "Exp_2"];
                 rows := [[2; 20; 21; 22]; [3; 30; 31; 32]]%float |}
    /\ stats_table w' 0 = Some s
    /\ columns s = [WL; "min"; "max"; "mean"; "std"]
    /\ Forall2 stats_spec [[2; 20; 21; 22]; [3; 30; 31; 32]]%float (rows s).
Proof.
  exact (proj2 (genStats_table demo_world 0 (group_of [0; 1; 2] "Run") eq_refl)
               [measure_table [[1; 10]; [2; 20]; [3; 30]]%float;
                measure_table [[2; 21]; [3; 31]; [4; 41]]%float;
                measure_table [[1; 12]; [2; 22]; [3; 32]; [4; 42]]%float]
               {| columns := [WL; "Exp_0"; "Exp_1"; "Exp_2"];
                  rows := [[2; 20; 21; 22]; [3; 30; 31; 32]]%float |}
               eq_refl eq_refl eq_refl eq_refl).
Defined.

(** C2 as stated fails for a row with a NaN cell.  Three experiments hold
    the key 1, with the values 1, 2 and NaN (a missing field of the file):
    the mean is 1.5 and the standard deviation the square root of 0.5,
    over the two values present with the divisor 1, whereas the mean and
    the sample standard deviation of the N = 3 cells are NaN, and the
    divisor N - 1 = 2 over the values present gives 0.5. *)
Lemma genStats_skips_missing :
  exists (w' : world) (s : DataFrame) (r : list float),
    SpectGroup.genStats 0 (world_of [[[1; 1]]; [[1; 2]]; [[1; PrimFloat.nan]]]%float) = (inr tt, w')
    /\ composed_table w' 0
       = Some {| columns := [WL; "Exp_0"; "Exp_1"; "Exp_2"];
                 rows := [[1; 1; 2; PrimFloat.nan]%float] |}
    /\ stats_table w' 0 = Some s
    /\ rows s = [r]
    /\ cell r 1 = 1%float /\ cell r 2 = 2%float
    /\ cell r 3 = 1.5%float
    /\ cell r 4 = PrimFloat.sqrt 0.5
    /\ is_nan (spec_mean [1; 2; PrimFloat.nan]%float) = true
    /\ is_nan (spec_std [1; 2; PrimFloat.nan]%float) = true
    /\ (cell r 4 =? PrimFloat.sqrt (0.5 / 2))%float = false.
Proof.
  eexists. eexists. eexists.
  split; [vm_compute; reflexivity|].
  split; [vm_compute; reflexivity|].
  split; [vm_compute; reflexivity|].
  split; [reflexivity|].
  repeat split; vm_compute; reflexivity.
Qed.

(** The scenario of the specification: one experiment with the value 5.0
    at the key 1.0, not composed yet, gets the statistics row
    min = 5.0, max = 5.0, mean = 5.0, std = NaN. *)
Example genStats_single_value :
  exists w', SpectGroup.genStats 0 (world_of [[[1; 5]%float]]) = (inr tt, w')
             /\ composed_table w' 0 = Some {| columns := [WL; "Exp_0"]; rows := [[1; 5]%float] |}
             /\ stats_table w' 0
                = Some {| columns := [WL; "min"; "max"; "mean"; "std"];
                          rows := [[1; 5; 5; 5; PrimFloat.nan]%float] |}.
Proof. eexists. repeat split; vm_compute; reflexivity. Qed.

(** Values 20, 21 and 22 at one key: min = 20, max = 22, mean = 21 and
    std = 1. *)
Example genStats_three_values :
  exists w', SpectGroup.genStats 0 (world_of [[[1; 20]]; [[1; 21]]; [[1; 22]]]%float) = (inr tt, w')
             /\ stats_table w' 0
                = Some {| columns := [WL; "min"; "max"; "mean"; "std"];
                          rows := [[1; 20; 22; 21; 1]%float] |}.
Proof. eexists. repeat split; vm_compute; reflexivity. Qed.

(** ** The remaining examples *)

Lemma mutators_clear_caches_witness :
  (forall e : ref,
      exists w', SpectGroup.addExp 0 (PyExp e) parent_ready = (inr tt, w')
                 /\ SpectGroup.getExpList 0 w' = (inr ([0; 1; 2] ++ [e]), w')
                 /\ group_composed w' 0 = Some false
                 /\ group_has_stats w' 0 = Some false)
  /\ (forall es : list ref,
         exists w', SpectGroup.setExpList 0 (map PyExp es) parent_ready = (inr tt, w')
                    /\ SpectGroup.getExpList 0 w' = (inr es, w')
                    /\ group_composed w' 0 = Some false
                    /\ group_has_stats w' 0 = Some false).
Proof.
  exact (mutators_clear_caches parent_ready 0
           (set_stats (set_data (group_of [0; 1; 2] "Run") 3) 4) eq_refl).
Defined.

Lemma Compose_unloaded_fails_witness :
  exists (i : nat) (e : ref),
    [0; 3] !! i = Some e
    /\ loaded_bool demo_world e = false
    /\ (forall j e', j < i -> [0; 3] !! j = Some e' -> loaded_bool demo_world e' = true)
    /\ SpectGroup.Compose 2 demo_world = (inl (Raise ValueError (not_loaded_msg i)), demo_world).
Proof.
  apply (Compose_unloaded_fails demo_world 2 (group_of [0; 3] "Partial")).
  - reflexivity.
  - repeat constructor; eexists; reflexivity.
  - right. left. reflexivity.
Defined.

(** * Further properties of the code *)

(** ** Reading a file *)

Section ReaderRows.

Variable cast : string -> option float.
Variable other :
  ascii -> list string -> option (list (string * dtype)) -> list string -> result (list (list float)).
Variable d : ascii.
Variable convert_dict : option (list (string * dtype)).

(** The reader on well-formed rows: the cells of each line, in file order. *)
Lemma cast_records_rows (lines : list string) :
  forallb (row_ok cast d) lines = true ->
  exists rs, cast_records cast 2 2 (records d lines) = inr rs
             /\ Forall2 (fun line row => row_cells cast d line = Some row) lines rs.
Proof.
  induction lines as [|l lines IH]; intros H.
  - exists []. split; [reflexivity|constructor].
  - cbn [forallb] in H. apply andb_true_iff in H as [Hl H].
    destruct (IH H) as (rs & Hrs & Hrows).
    rewrite (records_cons _ _ _ (row_ok_nonblank _ _ _ Hl)).
    unfold row_ok in Hl. destruct (row_cells cast d l) as [row|] eqn:Hrow; [|discriminate].
    exists (row :: rs). split; [|constructor; assumption].
    unfold row_cells in Hrow.
    destruct (split_on d (strip_newline l)) as [|a [|b [|? ?]]]; try discriminate.
    destruct (String.eqb a "") eqn:Ha; [discriminate|].
    destruct (String.eqb b "") eqn:Hb; [discriminate|]. cbn [orb] in Hrow.
    destruct (cast a) as [x|] eqn:Hx; [|discriminate].
    destruct (cast b) as [y|] eqn:Hy; [|discriminate].
    injection Hrow as <-.
    cbn [cast_records length Nat.sub replicate app drop].
    rewrite (cast_fields_ok cast a b x y Ha Hb Hx Hy), Hrs. reflexivity.
Qed.

Lemma read_csv_rows (names lines : list string) :
  length names = 2 -> distinct names = true -> all_float64 convert_dict names = true ->
  forallb (row_ok cast d) lines = true ->
  exists rs, read_csv cast other d names convert_dict lines = inr {| columns := names; rows := rs |}
             /\ Forall2 (fun line row => row_cells cast d line = Some row) lines rs.
Proof.
  intros Hn Hd Hf H.
  destruct (read_csv_ok cast other d convert_dict names lines Hn Hd Hf H) as (rs & Hread & _).
  destruct (cast_records_rows lines H) as (rs' & Hrs' & Hrows).
  exists rs. split; [exact Hread|].
  assert (rs = rs'); [|subst; exact Hrows].
  rewrite (read_csv_float64 cast other d convert_dict _ _ Hd Hf) in Hread.
  unfold read_float64 in Hread.
  destruct (existsb _ _); [discriminate|].
  rewrite Hn in Hread.
  destruct (cast_records_ok cast d lines H) as (rs2 & Hrs2 & _ & _ & Hw).
  assert (Hwidth : match records d lines with [] => 2 | r :: _ => Nat.max (length r) 2 end = 2).
  { destruct (records d lines) as [|r recs]; [reflexivity|].
    cbn [forallb] in Hw. apply andb_true_iff in Hw as [Hr _]. apply Nat.leb_le in Hr. lia. }
  rewrite Hwidth, Hrs' in Hread. injection Hread as ->. reflexivity.
Qed.

Lemma read_csv_columns (names lines : list string) (df : DataFrame) :
  read_csv cast other d names convert_dict lines = inr df -> columns df = names.
Proof.
  unfold read_csv. destruct (check_names names); [discriminate|].
  destruct (all_float64 convert_dict names).
  - unfold read_float64. destruct (existsb _ _); [discriminate|].
    destruct (cast_records _ _ _ _); [discriminate|]. intros [= <-]. reflexivity.
  - destruct (other _ _ _ _); [discriminate|]. intros [= <-]. reflexivity.
Qed.

Lemma row_cells_length (line : string) (row : list float) :
  row_cells cast d line = Some row -> length row = 2.
Proof.
  unfold row_cells. destruct (split_on d (strip_newline line)) as [|a [|b [|? ?]]]; try discriminate.
  destruct (_ || _); [discriminate|].
  destruct (cast a); [|discriminate]. destruct (cast b); [|discriminate].
  intros [= <-]. reflexivity.
Qed.

End ReaderRows.

(** The loop of [readFile] when the sentinel is no line of the file but
    possibly its last one: every line is gathered, the reader is never
    reached. *)
Lemma scan_header_unmet (s : string) (lines acc : list string) :
  forallb (fun l => negb (String.eqb l s)) (removelast lines) = true ->
  scan_header s lines false acc = (acc ++ lines, None).
Proof.
  revert acc. induction lines as [|l lines IH]; intros acc H.
  - cbn. rewrite app_nil_r. reflexivity.
  - destruct lines as [|l' lines].
    + cbn. reflexivity.
    + cbn [removelast forallb] in H. apply andb_true_iff in H as [Hl H].
      apply negb_true_iff in Hl.
      change (scan_header s (l :: l' :: lines) false acc)
        with (scan_header s (l' :: lines) (String.eqb l s) (acc ++ [l])).
      rewrite Hl, (IH _ H), <- app_assoc. reflexivity.
Qed.

Lemma loaded_world_exp (w : world) (e : ref) (ex : SpectExp) (meta names : list string)
      (rs : list (list float)) :
  exps w !! e = Some ex ->
  exps (loaded_world w e ex meta names rs) !! e = Some (set_loaded ex meta (length (frames w)))
  /\ frames (loaded_world w e ex meta names rs) !! length (frames w)
     = Some {| columns := [WL; nth 1 names ""]; rows := rs |}.
Proof.
  intros He. unfold loaded_world. cbn [exps frames with_exps with_frames]. split.
  - apply list_lookup_insert_eq. eapply lookup_lt_Some; eauto.
  - apply lookup_at_end.
Qed.

(** X1.  With a sentinel, two column names that differ and a dictionary
    that asks for float64 under both, the line that follows the sentinel
    line is read by the loop and never reaches the reader: whatever it
    holds, the table has one row per line after it, with the cells of those
    lines in file order. *)
Theorem readFile_skips_line_after_sentinel (cast : string -> option float)
        (other : ascii -> list string -> option (list (string * dtype)) -> list string
                 -> result (list (list float)))
        (w : world) (e : ref)
        (ex : SpectExp) (src : string) (d : ascii) (sentinel : string)
        (convert_dict : option (list (string * dtype)))
        (names meta : list string) (first : string) (rest : list string) :
  exps w !! e = Some ex -> exp_sourceFile ex = Some src ->
  lookup_file (files w) src = Some (meta ++ sentinel :: first :: rest) ->
  forallb (fun l => negb (String.eqb l sentinel)) meta = true ->
  forallb (row_ok cast d) rest = true ->
  length names = 2 -> distinct names = true -> all_float64 convert_dict names = true ->
  exists (w' : world) (ex' : SpectExp) (r : ref) (t : DataFrame),
    SpectExp.readFile cast other e d (Some sentinel) convert_dict names w = (inr tt, w')
    /\ exps w' !! e = Some ex'
    /\ exp_data ex' = Some r
    /\ frames w' !! r = Some t
    /\ Forall2 (fun line row => row_cells cast d line = Some row) rest (rows t).
Proof.
  intros He Hsrc Hfile Hmeta Hrows Hn Hd Hf.
  destruct (read_csv_rows cast other d convert_dict names rest Hn Hd Hf Hrows)
    as (rs & Hread & Hcells).
  pose proof (readFile_loads cast other w e ex src d (Some sentinel) convert_dict names _ rest
                (meta ++ [sentinel]) rs
                He Hsrc Hfile (scan_header_sentinel sentinel meta first rest [] Hmeta) Hread Hn)
    as Hrun.
  destruct (loaded_world_exp w e ex (meta ++ [sentinel]) names rs He) as [Hex Hfr].
  eexists _, _, _, _. split; [exact Hrun|].
  split; [exact Hex|]. split; [reflexivity|]. split; [exact Hfr|]. exact Hcells.
Qed.

Lemma readFile_skips_line_after_sentinel_witness :
  exists (w' : world) (ex' : SpectExp) (r : ref) (t : DataFrame),
    SpectExp.readFile cast_digits no_other_reader 3 TAB (Some (text_line "BEGIN"))
                      measure_dtypes [WL; "Measure"] demo_world
    = (inr tt, w')
    /\ exps w' !! 3 = Some ex'
    /\ exp_data ex' = Some r
    /\ frames w' !! r = Some t
    /\ Forall2 (fun line row => row_cells cast_digits TAB line = Some row)
               [data_row "3" "4"; data_row "5" "6"] (rows t).
Proof.
  apply (readFile_skips_line_after_sentinel cast_digits no_other_reader demo_world 3
           (unloaded_exp "spectrum.txt")
           "spectrum.txt" TAB (text_line "BEGIN") measure_dtypes [WL; "Measure"]
           [text_line "meta1"; text_line "meta2"] (data_row "1" "2")
           [data_row "3" "4"; data_row "5" "6"]); reflexivity.
Defined.

(** X2.  When no line of the file but possibly the last is the sentinel
    (so also for an empty file), the loop ends before the reader is called:
    [readFile] raises [UnboundLocalError], and by then it has stored every
    line of the file as the metadata of the experiment.  Nothing else of
    the store changes; the experiment keeps the data it had. *)
Theorem readFile_sentinel_not_followed (cast : string -> option float)
        (other : ascii -> list string -> option (list (string * dtype)) -> list string
                 -> result (list (list float)))
        (w : world) (e : ref)
        (ex : SpectExp) (src : string) (d : ascii) (sentinel : string)
        (convert_dict : option (list (string * dtype)))
        (names lines : list string) :
  exps w !! e = Some ex -> exp_sourceFile ex = Some src ->
  lookup_file (files w) src = Some lines ->
  forallb (fun l => negb (String.eqb l sentinel)) (removelast lines) = true ->
  SpectExp.readFile cast other e d (Some sentinel) convert_dict names w
  = (inl unbound_read, with_exps w (<[e := set_meta ex lines]> (exps w))).
Proof.
  intros He Hsrc Hfile Hno. unfold SpectExp.readFile.
  run_with (getSource_run w e ex He). rewrite Hsrc.
  run_with (read_lines_run w src lines Hfile).
  rewrite (scan_header_unmet sentinel lines [] Hno). cbn [app].
  run_with (setMetaInfo_run w e ex lines He). reflexivity.
Qed.

Lemma readFile_sentinel_not_followed_witness :
  SpectExp.readFile cast_digits no_other_reader 3 TAB (Some (text_line "START"))
                    measure_dtypes [WL; "Measure"] demo_world
  = (inl unbound_read,
     with_exps demo_world
       (<[3 := set_meta (unloaded_exp "spectrum.txt")
                 [text_line "meta1"; text_line "meta2"; text_line "BEGIN";
                  data_row "1" "2"; data_row "3" "4"; data_row "5" "6"]]> (exps demo_world))).
Proof.
  apply (readFile_sentinel_not_followed cast_digits no_other_reader demo_world 3
           (unloaded_exp "spectrum.txt")
           "spectrum.txt" TAB (text_line "START") measure_dtypes [WL; "Measure"]); reflexivity.
Defined.

(** X3.  Without a sentinel the whole file goes to the reader: under two
    column names that differ and a dictionary that asks for float64 under
    both, when every line is a well-formed row, the experiment is loaded
    with empty metadata and a table of one row per line, in file order,
    labelled [Wavelength] and the second name given; when that name is not
    [Wavelength] itself, the table is one [Compose] accepts. *)
Theorem readFile_whole_file (cast : string -> option float)
        (other : ascii -> list string -> option (list (string * dtype)) -> list string
                 -> result (list (list float)))
        (w : world) (e : ref)
        (ex : SpectExp) (src : string) (d : ascii)
        (convert_dict : option (list (string * dtype))) (names lines : list string) :
  exps w !! e = Some ex -> exp_sourceFile ex = Some src ->
  lookup_file (files w) src = Some lines ->
  forallb (row_ok cast d) lines = true ->
  length names = 2 -> distinct names = true -> all_float64 convert_dict names = true ->
  exists (w' : world) (ex' : SpectExp) (r : ref) (t : DataFrame),
    SpectExp.readFile cast other e d None convert_dict names w = (inr tt, w')
    /\ exps w' !! e = Some ex'
    /\ exp_metaInfo ex' = Some []
    /\ exp_data ex' = Some r
    /\ frames w' !! r = Some t
    /\ columns t = [WL; nth 1 names ""]
    /\ Forall2 (fun line row => row_cells cast d line = Some row) lines (rows t)
    /\ (String.eqb (nth 1 names "") WL = false -> exp_table_ok t = true).
Proof.
  intros He Hsrc Hfile Hrows Hn Hd Hf.
  destruct (read_csv_rows cast other d convert_dict names lines Hn Hd Hf Hrows)
    as (rs & Hread & Hcells).
  pose proof (readFile_loads cast other w e ex src d None convert_dict names lines lines [] rs
                He Hsrc Hfile (conj eq_refl eq_refl) Hread Hn) as Hrun.
  destruct (loaded_world_exp w e ex [] names rs He) as [Hex Hfr].
  eexists _, _, _, _. split; [exact Hrun|].
  split; [exact Hex|]. split; [reflexivity|]. split; [reflexivity|].
  split; [exact Hfr|]. split; [reflexivity|]. split; [exact Hcells|].
  intros Hname. unfold exp_table_ok, keyed, frame_rect. cbn [columns rows length has_label existsb].
  rewrite Hname. cbn.
  assert (Hrect : forallb (fun r : list float => (length r =? 2)%nat) rs = true).
  { clear -Hcells. induction Hcells as [|l r ls rs Hr _ IH]; [reflexivity|].
    cbn [forallb]. rewrite (row_cells_length _ _ _ _ Hr), IH. reflexivity. }
  rewrite Hrect. reflexivity.
Qed.

Lemma readFile_whole_file_witness :
  exists (w' : world) (ex' : SpectExp) (r : ref) (t : DataFrame),
    SpectExp.readFile cast_digits no_other_reader 0 TAB None measure_dtypes [WL; "Measure"]
                      table_world
    = (inr tt, w')
    /\ exps w' !! 0 = Some ex'
    /\ exp_metaInfo ex' = Some []
    /\ exp_data ex' = Some r
    /\ frames w' !! r = Some t
    /\ columns t = [WL; "Measure"]
    /\ Forall2 (fun line row => row_cells cast_digits TAB line = Some row)
               [data_row "1" "2"; data_row "3" "4"; data_row "5" "6"] (rows t)
    /\ (String.eqb "Measure" WL = false -> exp_table_ok t = true).
Proof.
  apply (readFile_whole_file cast_digits no_other_reader table_world 0 (unloaded_exp "table.txt")
           "table.txt" TAB measure_dtypes [WL; "Measure"]); reflexivity.
Defined.

Lemma store_keeps_tables (e : ref) (df : DataFrame) (meta : list string)
      (w : world) (r : result unit) (w' : world) :
  (let* pandas_read := alloc_frame df in
   SpectExp.setMetaInfo e meta ;; SpectExp.setData e pandas_read) w = (r, w') ->
  keeps_tables w w'.
Proof.
  assert (Hold : forall fs : list DataFrame,
             forall l f, frames w !! l = Some f -> length fs = S (length (frames w)) ->
                         take (length (frames w)) fs = frames w -> fs !! l = Some f).
  { intros fs l f Hl _ Htake. rewrite <- Htake in Hl.
    rewrite lookup_take_Some in Hl. tauto. }
  unfold alloc_frame. intros H.
  apply bind_inv in H as [(x & [=] & _)|(pr & w1 & [= <- <-] & H)].
  apply bind_inv in H as [(x & H & _)|([] & w2 & H1 & H)].
  - unfold SpectExp.setMetaInfo, bind, get_exp, put_exp in H. cbn [exps with_frames] in H.
    destruct (exps w !! e); [discriminate|]. injection H as _ <-. split; auto.
    intros l f Hl. cbn [frames with_frames with_exps]. apply lookup_app_l_Some. exact Hl.
  - assert (Hw2 : groups w2 = groups w /\ frames w2 = frames w ++ [df]).
    { unfold SpectExp.setMetaInfo, bind, get_exp, put_exp in H1. cbn [exps with_frames] in H1.
      destruct (exps w !! e); [|discriminate]. injection H1 as <-. auto. }
    destruct Hw2 as [Hg2 Hf2].
    unfold SpectExp.setData in H.
    apply bind_inv in H as [(x & H & _)|(f0 & w3 & H3 & H)].
    { apply reads_get_frame in H. subst w'. split; auto.
      intros l f Hl. rewrite Hf2. apply lookup_app_l_Some. exact Hl. }
    apply reads_get_frame in H3. subst w3.
    apply bind_inv in H as [(x & H & _)|([] & w3 & H3 & H)].
    { unfold assert, ret, raise in H. destruct (_ =? _)%nat; [discriminate|]. injection H as _ <-.
      split; auto. intros l f Hl. rewrite Hf2. apply lookup_app_l_Some. exact Hl. }
    assert (w3 = w2) as ->.
    { unfold assert, ret, raise in H3. destruct (_ =? _)%nat; [|discriminate].
      injection H3 as <-. reflexivity. }
    assert (Hkeep : forall w4 x, set_columns (length (frames w)) [WL; nth 1 (columns f0) ""] w2 = (x, w4) ->
                                 groups w4 = groups w /\ exps w4 = exps w2
                                 /\ forall l f, frames w !! l = Some f -> frames w4 !! l = Some f).
    { intros w4 x Hs. apply set_columns_inv in Hs as [->|(f1 & _ & _ & ->)].
      - repeat split; auto. intros l f Hl. rewrite Hf2. apply lookup_app_l_Some. exact Hl.
      - repeat split; auto. intros l f Hl. cbn [frames with_frames].
        rewrite list_lookup_insert_ne by (apply lookup_lt_Some in Hl; lia).
        rewrite Hf2. apply lookup_app_l_Some. exact Hl. }
    apply bind_inv in H as [(x & H & _)|([] & w4 & H4 & H)].
    { destruct (Hkeep _ _ H) as (G & _ & F). split; auto. }
    destruct (Hkeep _ _ H4) as (G & _ & F).
    unfold bind, get_exp, put_exp in H.
    destruct (exps w4 !! e); injection H as _ <-; split; auto.
Qed.

Lemma readFile_keeps_tables (cast : string -> option float)
      (other : ascii -> list string -> option (list (string * dtype)) -> list string
                 -> result (list (list float)))
      (e : ref) (d : ascii)
      (begin_line : option string) (convert_dict : option (list (string * dtype)))
      (names : list string) (w : world) (r : result unit) (w' : world) :
  SpectExp.readFile cast other e d begin_line convert_dict names w = (r, w') -> keeps_tables w w'.
Proof.
  assert (Hrefl : keeps_tables w w) by (split; auto).
  unfold SpectExp.readFile. intros H.
  destruct begin_line as [s|].
  - apply bind_inv in H as [(x & H & _)|(src & w1 & H1 & H)].
    { unfold SpectExp.getSource in H.
      apply (reads_bind _ _ (reads_get_exp e) (fun a => reads_ret _)) in H. subst. exact Hrefl. }
    unfold SpectExp.getSource in H1.
    apply (reads_bind _ _ (reads_get_exp e) (fun a => reads_ret _)) in H1. subst w1.
    apply bind_inv in H as [(x & H & _)|(lines & w1 & H2 & H)].
    { unfold read_lines in H. destruct src as [q|]; [destruct (lookup_file _ _)|];
        injection H as _ <-; exact Hrefl. }
    assert (w1 = w) as ->.
    { unfold read_lines in H2. destruct src as [q|]; [destruct (lookup_file _ _)|];
        injection H2 as _ <-; reflexivity. }
    destruct (scan_header s lines false []) as [meta [rest|]].
    + apply bind_inv in H as [(x & H & _)|(df & w1 & H3 & H)].
      { apply reads_lift in H. subst. exact Hrefl. }
      apply reads_lift in H3. subst w1. eapply store_keeps_tables; eauto.
    + apply bind_inv in H as [(x & H & _)|([] & w1 & H3 & H)].
      * unfold SpectExp.setMetaInfo, bind, get_exp, put_exp in H.
        destruct (exps w !! e); [discriminate|]. injection H as _ <-. exact Hrefl.
      * injection H as _ <-.
        unfold SpectExp.setMetaInfo, bind, get_exp, put_exp in H3.
        destruct (exps w !! e); [|discriminate]. injection H3 as <-. split; auto.
  - apply bind_inv in H as [(x & H & _)|(src & w1 & H1 & H)].
    { unfold SpectExp.getSource in H.
      apply (reads_bind _ _ (reads_get_exp e) (fun a => reads_ret _)) in H. subst. exact Hrefl. }
    unfold SpectExp.getSource in H1.
    apply (reads_bind _ _ (reads_get_exp e) (fun a => reads_ret _)) in H1. subst w1.
    apply bind_inv in H as [(x & H & _)|([] & w1 & H0 & H)].
    { apply reads_lift in H. subst. exact Hrefl. }
    apply reads_lift in H0. subst w1.
    apply bind_inv in H as [(x & H & _)|(lines & w1 & H2 & H)].
    { unfold read_path in H. destruct src as [q|]; [destruct (lookup_file _ _)|];
        injection H as _ <-; exact Hrefl. }
    assert (w1 = w) as ->.
    { unfold read_path in H2. destruct src as [q|]; [destruct (lookup_file _ _)|];
        injection H2 as _ <-; reflexivity. }
    apply bind_inv in H as [(x & H & _)|(df & w1 & H3 & H)].
    { apply reads_lift in H. subst. exact Hrefl. }
    apply reads_lift in H3. subst w1. eapply store_keeps_tables; eauto.
Qed.

(** X4.  Loading an experiment, whether it succeeds or raises, changes no
    group and no frame that existed: a group that was composed before one
    of its experiments is loaded again still answers [isComposed()] with
    [True] and keeps the composed table and the statistics it had; they
    are not brought up to date. *)
Theorem readFile_keeps_group_tables (cast : string -> option float)
        (other : ascii -> list string -> option (list (string * dtype)) -> list string
                 -> result (list (list float)))
        (e : ref) (d : ascii)
        (begin_line : option string) (convert_dict : option (list (string * dtype)))
        (names : list string)
        (w : world) (r : result unit) (w' : world) :
  SpectExp.readFile cast other e d begin_line convert_dict names w = (r, w') ->
  groups w' = groups w
  /\ (forall g, group_composed w' g = group_composed w g)
  /\ (forall g t, composed_table w g = Some t -> composed_table w' g = Some t)
  /\ (forall g s, stats_table w g = Some s -> stats_table w' g = Some s).
Proof.
  intros H. destruct (readFile_keeps_tables _ _ _ _ _ _ _ _ _ _ H) as [Hg Hf].
  split; [exact Hg|]. split; [|split].
  - intros g. unfold group_composed, SpectGroup.isComposed, SpectGroup.getData, bind, get_group, ret.
    rewrite Hg. destruct (groups w !! g); reflexivity.
  - intros g t. unfold composed_table. rewrite Hg.
    destruct (groups w !! g) as [grp|]; [|discriminate].
    destruct (grp_data grp); [|discriminate]. apply Hf.
  - intros g s. unfold stats_table. rewrite Hg.
    destruct (groups w !! g) as [grp|]; [|discriminate].
    destruct (grp_stats grp); [|discriminate]. apply Hf.
Qed.

Lemma readFile_keeps_group_tables_witness :
  composed_table
    (snd (SpectExp.readFile cast_digits no_other_reader 3 TAB (Some (text_line "BEGIN"))
                            measure_dtypes [WL; "Measure"] parent_ready)) 0
  = Some {| columns := [WL; "Exp_0"; "Exp_1"; "Exp_2"];
            rows := [[2; 20; 21; 22]; [3; 30; 31; 32]]%float |}.
Proof.
  refine (proj1 (proj2 (proj2 (readFile_keeps_group_tables cast_digits no_other_reader 3 TAB
                                 (Some (text_line "BEGIN")) measure_dtypes [WL; "Measure"]
                                 parent_ready (inr tt) _ _))) 0 _ _).
  - vm_compute. reflexivity.
  - vm_compute. reflexivity.
Defined.

(** X5.  With a number of column names other than two, a file the reader
    accepts is still not loaded: [setData] refuses the table with an
    [AssertionError].  By then the metadata have been stored, so the call
    is not all-or-nothing: the experiment keeps its old data and has new
    metadata. *)
Theorem readFile_wrong_names_keeps_metadata (cast : string -> option float)
        (other : ascii -> list string -> option (list (string * dtype)) -> list string
                 -> result (list (list float)))
        (w : world) (e : ref)
        (ex : SpectExp) (src : string) (d : ascii) (begin_line : option string)
        (convert_dict : option (list (string * dtype)))
        (names lines given : list string) (df : DataFrame) :
  exps w !! e = Some ex -> exp_sourceFile ex = Some src ->
  lookup_file (files w) src = Some lines ->
  reader_input begin_line lines = Some given ->
  read_csv cast other d names convert_dict given = inr df ->
  length names <> 2 ->
  exists (exc : pyexc) (w' : world),
    SpectExp.readFile cast other e d begin_line convert_dict names w = (inl exc, w')
    /\ exc_type exc = AssertionError
    /\ exps w' !! e = Some (set_meta ex (header_meta begin_line lines))
    /\ exp_data (set_meta ex (header_meta begin_line lines)) = exp_data ex
    /\ (forall e', e' <> e -> exps w' !! e' = exps w !! e')
    /\ groups w' = groups w.
Proof.
  intros He Hsrc Hfile Hin Hread Hn.
  pose proof (read_csv_columns cast other d convert_dict names given df Hread) as Hcols.
  pose proof (lookup_lt_Some _ _ _ He) as Hlt.
  assert (Htail : forall meta,
             (let* pandas_read := alloc_frame df in
              SpectExp.setMetaInfo e meta ;; SpectExp.setData e pandas_read) w
             = (inl (Raise AssertionError
                       "The new data must have two columns. One for wavelength, the other for the measurement."),
                with_exps (with_frames w (frames w ++ [df])) (<[e := set_meta ex meta]> (exps w)))).
  { intros meta. unfold alloc_frame. run_pure.
    set (w1 := with_frames w (frames w ++ [df])).
    run_with (setMetaInfo_run w1 e ex meta He).
    unfold SpectExp.setData.
    erewrite bind_ok by (apply get_frame_run; cbn [frames with_exps w1 with_frames]; apply lookup_at_end).
    cbv beta. rewrite Hcols. apply Nat.eqb_neq in Hn. rewrite Hn. reflexivity. }
  exists (Raise AssertionError
            "The new data must have two columns. One for wavelength, the other for the measurement."),
         (with_exps (with_frames w (frames w ++ [df]))
                    (<[e := set_meta ex (header_meta begin_line lines)]> (exps w))).
  split.
  - unfold SpectExp.readFile.
    destruct begin_line as [s|]; cbn [reader_input header_meta] in *.
    + run_with (getSource_run w e ex He). rewrite Hsrc.
      run_with (read_lines_run w src lines Hfile).
      destruct (scan_header s lines false []) as [meta rest]. cbn [snd fst] in *. subst rest.
      unfold lift. rewrite Hread. run_pure. apply Htail.
    + injection Hin as <-.
      run_with (getSource_run w e ex He). rewrite Hsrc.
      unfold lift. rewrite (read_csv_names _ _ _ _ _ _ _ Hread). run_pure.
      run_with (read_path_run w src lines Hfile).
      rewrite Hread. run_pure. apply Htail.
  - split; [reflexivity|]. cbn [exps with_exps]. split; [|split; [reflexivity|split]].
    + apply list_lookup_insert_eq. exact Hlt.
    + intros e' Hne. apply list_lookup_insert_ne. congruence.
    + reflexivity.
Qed.

Lemma readFile_wrong_names_keeps_metadata_witness :
  exists (exc : pyexc) (w' : world),
    SpectExp.readFile cast_digits no_other_reader 0 TAB None
                      (Some [(WL, Float64); ("Measure", Float64); ("Extra", Float64)])
                      [WL; "Measure"; "Extra"] table_world
    = (inl exc, w')
    /\ exc_type exc = AssertionError
    /\ exps w' !! 0 = Some (set_meta (unloaded_exp "table.txt") [])
    /\ exp_data (set_meta (unloaded_exp "table.txt") []) = None
    /\ (forall e', e' <> 0 -> exps w' !! e' = exps table_world !! e')
    /\ groups w' = groups table_world.
Proof.
  apply (readFile_wrong_names_keeps_metadata cast_digits no_other_reader table_world 0
           (unloaded_exp "table.txt") "table.txt" TAB None
           (Some [(WL, Float64); ("Measure", Float64); ("Extra", Float64)])
           [WL; "Measure"; "Extra"]
           [data_row "1" "2"; data_row "3" "4"; data_row "5" "6"]
           [data_row "1" "2"; data_row "3" "4"; data_row "5" "6"]
           {| columns := [WL; "Measure"; "Extra"];
              rows := [[1; 2; PrimFloat.nan]; [3; 4; PrimFloat.nan]; [5; 6; PrimFloat.nan]]%float |});
    try reflexivity.
  cbn. lia.
Defined.

(** ** Groups without experiments, and groups of one *)

(** X6.  A group with no experiment cannot be composed: [reduce] has
    nothing to start from, so [Compose()] raises a [TypeError], and so does
    [genStats()] on such a group when it has no data; the store is
    unchanged. *)
Theorem Compose_empty_group (w : world) (g : ref) (grp : SpectGroup) :
  groups w !! g = Some grp -> grp_expList grp = [] ->
  SpectGroup.Compose g w = (inl empty_reduce, w)
  /\ (grp_data grp = None -> SpectGroup.genStats g w = (inl empty_reduce, w)).
Proof.
  intros Hg He.
  assert (HC : SpectGroup.Compose g w = (inl empty_reduce, w)).
  { unfold SpectGroup.Compose, SpectGroup.getExpList.
    unfold bind at 1 2, get_group, ret. rewrite Hg, He. cbn [length seq].
    unfold SpectGroup.Compose_. cbn [SpectGroup.check_loaded]. run_pure.
    unfold SpectGroup.getExpList, bind at 1 2, get_group, ret. rewrite Hg, He.
    cbn [SpectGroup.data_of]. run_pure. reflexivity. }
  split; [exact HC|]. intros Hd.
  unfold SpectGroup.genStats. run_with (isComposed_run w g grp Hg). rewrite Hd.
  rewrite (bind_err _ _ _ _ _ HC). reflexivity.
Qed.

Lemma Compose_empty_group_witness :
  SpectGroup.Compose 3 empty_group_world = (inl empty_reduce, empty_group_world)
  /\ SpectGroup.genStats 3 empty_group_world = (inl empty_reduce, empty_group_world).
Proof.
  destruct (Compose_empty_group empty_group_world 3
              {| grp_expList := []; grp_plotConf := 1; grp_data := None; grp_stats := None;
                 grp_outPath := None; grp_name := None |} eq_refl eq_refl) as [HC HS].
  exact (conj HC (HS eq_refl)).
Defined.

(** A group of one experiment is composed on the experiment's own frame. *)
Lemma Compose_single_run (w : world) (g : ref) (grp : SpectGroup) (e : ref)
        (ex : SpectExp) (d : ref) (f : DataFrame) :
  groups w !! g = Some grp -> grp_expList grp = [e] ->
  exps w !! e = Some ex -> exp_data ex = Some d -> frames w !! d = Some f ->
  length (columns f) = 2 ->
  exists w' : world,
    SpectGroup.Compose g w = (inr tt, w')
    /\ groups w' !! g = Some (set_data grp d)
    /\ exp_frame_ref w' e = Some d
    /\ frames w' !! d = Some {| columns := [WL; "Exp_0"]; rows := rows f |}
    /\ length (frames w') = length (frames w).
Proof.
  intros Hg He Hex Hd Hf Hl.
  assert (Hds : loaded_refs w (grp_expList grp) = Some [d]).
  { rewrite He. cbn [loaded_refs]. unfold exp_frame_ref. rewrite Hex, Hd. reflexivity. }
  pose proof (lookup_lt_Some _ _ _ Hg) as Hgl.
  pose proof (lookup_lt_Some _ _ _ Hf) as Hfl.
  exists (with_groups (with_frames w (<[d := {| columns := [WL; "Exp_0"]; rows := rows f |}]> (frames w)))
                      (<[g := set_data grp d]> (groups w))).
  split; [|split; [|split; [|split]]].
  - unfold SpectGroup.Compose, SpectGroup.getExpList, bind at 1 2, get_group, ret. rewrite Hg.
    unfold SpectGroup.Compose_, bind at 1. rewrite (check_loaded_pass w g grp [d] Hg Hds).
    unfold bind at 1, SpectGroup.getExpList, bind at 1, get_group, ret. rewrite Hg.
    unfold bind at 1. rewrite (data_of_run _ _ _ Hds). rewrite He.
    cbn [map SpectGroup.reduce_merge length seq]. unfold bind at 1, ret.
    unfold bind at 1.
    rewrite (set_columns_run w d f [WL; exp_label 0] Hf) by (rewrite Hl; reflexivity).
    rewrite (group_setData_run _ g grp d {| columns := [WL; exp_label 0]; rows := rows f |});
      [reflexivity| |reflexivity|exact Hg].
    cbn [frames with_frames]. apply list_lookup_insert_eq. exact Hfl.
  - cbn [groups with_groups]. apply list_lookup_insert_eq. exact Hgl.
  - unfold exp_frame_ref. cbn [exps with_groups with_frames]. rewrite Hex. exact Hd.
  - cbn [frames with_groups with_frames]. apply list_lookup_insert_eq. exact Hfl.
  - cbn [frames with_groups with_frames]. apply length_insert.
Qed.

(** X7.  Composing a group of one loaded experiment makes no new table:
    [reduce] hands back the experiment's own frame, which is relabelled
    [Wavelength], [Exp_0] and becomes the data of the group.  The
    experiment and the group then hold the same frame, and the label the
    experiment's value column had is lost. *)
Theorem Compose_single_shares_frame (w : world) (g : ref) (grp : SpectGroup) (e : ref)
        (ex : SpectExp) (d : ref) (f : DataFrame) :
  groups w !! g = Some grp -> grp_expList grp = [e] ->
  exps w !! e = Some ex -> exp_data ex = Some d -> frames w !! d = Some f ->
  length (columns f) = 2 ->
  exists w' : world,
    SpectGroup.Compose g w = (inr tt, w')
    /\ groups w' !! g = Some (set_data grp d)
    /\ exp_frame_ref w' e = Some d
    /\ frames w' !! d = Some {| columns := [WL; "Exp_0"]; rows := rows f |}
    /\ length (frames w') = length (frames w).
Proof. exact (Compose_single_run w g grp e ex d f). Qed.

Lemma Compose_single_shares_frame_witness :
  exists w' : world,
    SpectGroup.Compose 0 (world_of [[[1; 10]; [2; 20]]%float]) = (inr tt, w')
    /\ groups w' !! 0 = Some (set_data (group_of [0] "Run") 0)
    /\ exp_frame_ref w' 0 = Some 0
    /\ frames w' !! 0 = Some {| columns := [WL; "Exp_0"]; rows := [[1; 10]; [2; 20]]%float |}
    /\ length (frames w') = 1.
Proof.
  exact (Compose_single_shares_frame (world_of [[[1; 10]; [2; 20]]%float]) 0 (group_of [0] "Run") 0
           (loaded_exp 0) 0 (measure_table [[1; 10]; [2; 20]]%float)
           eq_refl eq_refl eq_refl eq_refl eq_refl eq_refl).
Defined.

(** X8.  Whatever their outcome, [Compose()] and [genStats()] change no
    experiment object, and no frame loses or changes a row or a cell or
    gets another number of columns: all they may do to an existing frame
    is relabel it. *)
Theorem group_methods_keep_experiments (g : ref) (w : world) (r : result unit) (w' : world) :
  SpectGroup.Compose g w = (r, w') \/ SpectGroup.genStats g w = (r, w') ->
  exps w' = exps w
  /\ (forall e, exp_frame_ref w' e = exp_frame_ref w e)
  /\ (forall l f, frames w !! l = Some f ->
                  exists f', frames w' !! l = Some f'
                             /\ rows f' = rows f
                             /\ length (columns f') = length (columns f)).
Proof.
  intros H.
  assert (Ht : touches_only g w w').
  { destruct H as [H|H]; [eapply Compose_touches|eapply genStats_touches]; eauto. }
  destruct Ht as (_ & He & Hf). split; [exact He|]. split.
  - intros e. unfold exp_frame_ref. rewrite He. reflexivity.
  - intros l f Hl. destruct (Hf l f Hl) as (f' & Hl' & [->|[Hc ->]]).
    + exists f. auto.
    + eexists. split; [exact Hl'|]. split; [reflexivity|]. rewrite Hc. reflexivity.
Qed.

Lemma group_methods_keep_experiments_witness :
  exps (snd (SpectGroup.genStats 0 demo_world)) = exps demo_world.
Proof.
  exact (proj1 (group_methods_keep_experiments 0 demo_world
                  (fst (SpectGroup.genStats 0 demo_world)) (snd (SpectGroup.genStats 0 demo_world))
                  (or_intror (surjective_pairing _)))).
Defined.

(** ** What the setters and getters of a group refuse *)

Lemma check_exps_first_bad (pre : list ref) (v : pyval) (post : list pyval) (k : nat) :
  is_exp v = false ->
  SpectGroup.check_exps (map PyExp pre ++ v :: post) k
  = inl (Raise TypeError (not_exp_msg v (k + length pre))).
Proof.
  intros Hv. revert k. induction pre as [|p pre IH]; intros k.
  - cbn [map app length]. rewrite Nat.add_0_r. destruct v; try reflexivity. discriminate.
  - cbn [map app length SpectGroup.check_exps]. rewrite (IH (S k)).
    replace (S k + length pre) with (k + S (length pre)) by lia. reflexivity.
Qed.

(** X9.  A list with a value that is no experiment is refused by
    [setExpList] with a [TypeError] that names the first such position,
    and such a value is refused by [addExp] with an [AssertionError]; in
    both cases the group keeps its experiments and its caches. *)
Theorem mutators_reject_other_values (w : world) (g : ref) (pre : list ref) (v : pyval)
        (post : list pyval) :
  is_exp v = false ->
  SpectGroup.setExpList g (map PyExp pre ++ v :: post) w
  = (inl (Raise TypeError (not_exp_msg v (length pre))), w)
  /\ SpectGroup.addExp g v w
     = (inl (Raise AssertionError
               (String.append "Expected a spectral experiment but got " (type_name v))), w).
Proof.
  intros Hv. split.
  - unfold SpectGroup.setExpList, bind, lift.
    rewrite (check_exps_first_bad pre v post 0 Hv). reflexivity.
  - destruct v; try reflexivity. discriminate.
Qed.

Lemma mutators_reject_other_values_witness :
  SpectGroup.setExpList 0 (map PyExp [0; 1] ++ PyStr "spectrum.txt" :: [PyExp 2]) parent_ready
  = (inl (Raise TypeError (not_exp_msg (PyStr "spectrum.txt") 2)), parent_ready)
  /\ SpectGroup.addExp 0 (PyStr "spectrum.txt") parent_ready
     = (inl (Raise AssertionError
               (String.append "Expected a spectral experiment but got "
                              (type_name (PyStr "spectrum.txt")))), parent_ready).
Proof.
  exact (mutators_reject_other_values parent_ready 0 [0; 1] (PyStr "spectrum.txt") [PyExp 2] eq_refl).
Defined.

Lemma list_getitem_norm {A} (l : list A) (z : Z) :
  index_ok (length l) z ->
  exists x, l !! norm_index (length l) z = Some x /\ list_getitem l (PyInt z) = inr x.
Proof.
  unfold index_ok, norm_index, list_getitem. intros Hz.
  set (z' := if (z <? 0)%Z then (z + Z.of_nat (length l))%Z else z).
  assert (Hz' : (0 <= z' < Z.of_nat (length l))%Z).
  { unfold z'. destruct (Z.ltb_spec z 0); lia. }
  destruct (Z.ltb_spec z' 0) as [Hneg|_]; [lia|].
  destruct (lookup_lt_is_Some_2 l (Z.to_nat z') ltac:(lia)) as [x Hx].
  exists x. rewrite Hx. auto.
Qed.

Lemma getExpList_at_in_range (l : list ref) (zs : list Z) (k : nat) (w : world) :
  Forall (index_ok (length l)) zs ->
  exists sel, SpectGroup.getExpList_at l (map PyInt zs) k w = (inr sel, w)
              /\ Forall2 (fun z e => l !! norm_index (length l) z = Some e) zs sel.
Proof.
  intros H. revert k. induction H as [|z zs Hz Hzs IH]; intros k.
  - exists []. split; [reflexivity|constructor].
  - destruct (IH (S k)) as (sel & Hrun & Hsel).
    destruct (list_getitem_norm l z Hz) as (e & He & Hget).
    exists (e :: sel). split; [|constructor; assumption].
    cbn [map SpectGroup.getExpList_at is_int]. unfold assert at 1. run_pure.
    destruct (Z.ltb_spec z (Z.of_nat (length l))) as [_|Hge]; [|unfold index_ok in Hz; lia].
    unfold assert. run_pure. unfold lift. rewrite Hget.
    run_pure. rewrite (bind_ok _ _ _ _ _ Hrun). reflexivity.
Qed.

(** X10.  [getExpList(colNums)] returns the experiments at the positions
    given, in that order, when every index is an integer that names a
    position; a negative index is accepted and counts from the end of the
    list.  An index equal to the length of the list or larger stops the
    call at its position with an [AssertionError]; one further below zero
    than the list is long passes the assertion and fails in the list
    access with an [IndexError].  The store is never changed. *)
Theorem getExpList_cols_bounds (w : world) (g : ref) (grp : SpectGroup) (zs : list Z) :
  groups w !! g = Some grp ->
  Forall (index_ok (length (grp_expList grp))) zs ->
  (exists sel, SpectGroup.getExpList_cols g (map PyInt zs) w = (inr sel, w)
               /\ Forall2 (fun z e => grp_expList grp !! norm_index (length (grp_expList grp)) z
                                      = Some e) zs sel)
  /\ (forall (z : Z) (post : list pyval),
         (Z.of_nat (length (grp_expList grp)) <= z)%Z ->
         SpectGroup.getExpList_cols g (map PyInt zs ++ PyInt z :: post) w
         = (inl (Raise AssertionError (out_of_range_msg (length zs))), w))
  /\ (forall (z : Z) (post : list pyval),
         (z < - Z.of_nat (length (grp_expList grp)))%Z ->
         SpectGroup.getExpList_cols g (map PyInt zs ++ PyInt z :: post) w
         = (inl (Raise IndexError "list index out of range"), w)).
Proof.
  intros Hg Hzs.
  set (l := grp_expList grp) in *.
  assert (Hpre : forall (tail : list pyval) (k : nat) (exc : pyexc),
             SpectGroup.getExpList_at l tail (k + length zs) w = (inl exc, w) ->
             SpectGroup.getExpList_at l (map PyInt zs ++ tail) k w = (inl exc, w)).
  { intros tail k exc. revert k. induction Hzs as [|z zs Hz Hzs IH]; intros k Htail.
    - cbn [map app length] in *. rewrite Nat.add_0_r in Htail. exact Htail.
    - destruct (list_getitem_norm l z Hz) as (e & He & Hget).
      cbn [map app SpectGroup.getExpList_at is_int]. unfold assert at 1. run_pure.
      destruct (Z.ltb_spec z (Z.of_nat (length l))) as [_|Hge]; [|unfold index_ok in Hz; lia].
      unfold assert. run_pure. unfold lift. rewrite Hget. run_pure.
      rewrite (bind_err _ _ _ _ _ (IH (S k) ltac:(cbn [length] in Htail;
        replace (S k + length zs) with (k + S (length zs)) by lia; exact Htail))).
      reflexivity. }
  split; [|split].
  - destruct (getExpList_at_in_range l zs 0 w Hzs) as (sel & Hrun & Hsel).
    exists sel. split; [|exact Hsel].
    unfold SpectGroup.getExpList_cols, bind, get_group. rewrite Hg. exact Hrun.
  - intros z post Hz. unfold SpectGroup.getExpList_cols, bind at 1, get_group. rewrite Hg.
    apply Hpre. cbn [SpectGroup.getExpList_at is_int Nat.add]. unfold assert at 1. run_pure.
    destruct (Z.ltb_spec z (Z.of_nat (length l))) as [Hlt|_]; [fold l in Hz; lia|].
    reflexivity.
  - intros z post Hz. unfold SpectGroup.getExpList_cols, bind at 1, get_group. rewrite Hg.
    apply Hpre. cbn [SpectGroup.getExpList_at is_int Nat.add]. unfold assert at 1. run_pure.
    destruct (Z.ltb_spec z (Z.of_nat (length l))) as [_|Hge]; [|fold l in Hz; lia].
    unfold assert. run_pure. unfold lift, list_getitem.
    destruct (Z.ltb_spec z 0) as [_|Hge]; [|fold l in Hz; lia].
    destruct (Z.ltb_spec (z + Z.of_nat (length l)) 0) as [_|Hge]; [|fold l in Hz; lia].
    reflexivity.
Qed.

Lemma getExpList_cols_bounds_witness :
  (exists sel, SpectGroup.getExpList_cols 0 (map PyInt [2; -1; 0; -3]%Z) demo_world
               = (inr sel, demo_world)
               /\ Forall2 (fun z e => [0; 1; 2] !! norm_index 3 z = Some e) [2; -1; 0; -3]%Z sel)
  /\ (forall (z : Z) (post : list pyval),
         (3 <= z)%Z ->
         SpectGroup.getExpList_cols 0 (map PyInt [2; -1; 0; -3]%Z ++ PyInt z :: post) demo_world
         = (inl (Raise AssertionError (out_of_range_msg 4)), demo_world))
  /\ (forall (z : Z) (post : list pyval),
         (z < -3)%Z ->
         SpectGroup.getExpList_cols 0 (map PyInt [2; -1; 0; -3]%Z ++ PyInt z :: post) demo_world
         = (inl (Raise IndexError "list index out of range"), demo_world)).
Proof.
  apply (getExpList_cols_bounds demo_world 0 (group_of [0; 1; 2] "Run") [2; -1; 0; -3]%Z eq_refl).
  repeat constructor; cbn; lia.
Defined.

(** ** The root constructor *)

Lemma check_exps_all (es : list ref) (k : nat) : SpectGroup.check_exps (map PyExp es) k = inr es.
Proof.
  revert k. induction es as [|e es IH]; intros k; cbn; [reflexivity|]. rewrite IH. reflexivity.
Qed.

(** X11.  [SpectGroup(expList, config, outputPath, name)] with a list of
    experiments and the path of an existing directory returns a new group
    that holds these experiments in this order, the configurator, the path
    and the name, and is neither composed nor has statistics; no other
    group, no experiment and no frame is changed.  When the path names no
    directory the constructor raises a [ValueError] and the groups that
    existed are as they were. *)
Theorem init_builds_group (w : world) (es : list ref) (c : ref) (p n : string) :
  (existsb (String.eqb p) (dirs w) = true ->
   exists w' : world,
     SpectGroup.init (PyList (map PyExp es)) (PyConf c) (PyStr p) (PyStr n) w
     = (inr (length (groups w)), w')
     /\ groups w' = groups w ++ [built_group es c p n]
     /\ exps w' = exps w /\ frames w' = frames w)
  /\ (existsb (String.eqb p) (dirs w) = false ->
      exists (msg : string) (w' : world),
        SpectGroup.init (PyList (map PyExp es)) (PyConf c) (PyStr p) (PyStr n) w
        = (inl (Raise ValueError msg), w')
        /\ (forall g grp, groups w !! g = Some grp -> groups w' !! g = Some grp)
        /\ exps w' = exps w /\ frames w' = frames w).
Proof.
  set (at_end := fun x : SpectGroup =>
                   with_groups (with_confs w (S (confs w))) (groups w ++ [x])).
  set (self := length (groups w)).
  assert (Hnew : SpectGroup.new w
                 = (inr self, at_end {| grp_expList := []; grp_plotConf := confs w;
                                        grp_data := None; grp_stats := None;
                                        grp_outPath := None; grp_name := None |}))
    by reflexivity.
  assert (Hget : forall x, get_group self (at_end x) = (inr x, at_end x)).
  { intros x. unfold get_group, at_end, self. cbn [groups with_groups].
    rewrite lookup_at_end. reflexivity. }
  assert (Hput : forall x y, put_group self y (at_end x) = (inr tt, at_end y)).
  { intros x y. unfold put_group, at_end, self. cbn [groups with_groups].
    rewrite insert_at_end. reflexivity. }
  assert (Hlist : forall x,
             SpectGroup.setExpList self (map PyExp es) (at_end x)
             = (inr tt, at_end {| grp_expList := es; grp_plotConf := grp_plotConf x;
                                  grp_data := None; grp_stats := None;
                                  grp_outPath := grp_outPath x; grp_name := grp_name x |})).
  { intros x. unfold SpectGroup.setExpList, lift. rewrite check_exps_all. run_pure.
    run_with (Hget x). apply Hput. }
  assert (Hconf : forall x,
             SpectGroup.setPlotConf self (PyConf c) (at_end x)
             = (inr tt, at_end {| grp_expList := grp_expList x; grp_plotConf := c;
                                  grp_data := grp_data x; grp_stats := grp_stats x;
                                  grp_outPath := grp_outPath x; grp_name := grp_name x |})).
  { intros x. unfold SpectGroup.setPlotConf. run_with (Hget x). apply Hput. }
  assert (Hname : forall x,
             SpectGroup.setName self (PyStr n) (at_end x)
             = (inr tt, at_end {| grp_expList := grp_expList x; grp_plotConf := grp_plotConf x;
                                  grp_data := grp_data x; grp_stats := grp_stats x;
                                  grp_outPath := grp_outPath x; grp_name := Some n |})).
  { intros x. unfold SpectGroup.setName. run_with (Hget x). apply Hput. }
  split.
  - intros Hd. exists (at_end (built_group es c p n)).
    split; [|repeat split].
    cbn [SpectGroup.init]. run_with Hnew. run_with (Hlist {| grp_expList := []; grp_plotConf := confs w;
                                        grp_data := None; grp_stats := None;
                                        grp_outPath := None; grp_name := None |}).
    cbn [grp_plotConf grp_outPath grp_name].
    erewrite bind_ok by apply Hconf. cbv beta.
    cbn [grp_expList grp_data grp_stats grp_outPath grp_name].
    erewrite bind_ok.
    2:{ unfold SpectGroup.setOutPath. cbn [dirs at_end with_groups with_confs]. rewrite Hd.
        erewrite bind_ok by apply Hget. cbv beta. apply Hput. }
    cbv beta. cbn [grp_expList grp_plotConf grp_data grp_stats grp_name].
    erewrite bind_ok by apply Hname. reflexivity.
  - intros Hd.
    exists (if existsb (fun q => String.eqb (fst q) p) (files w)
            then "The source path needs to lead to a directory"
            else "The new Output dir does not exist"),
           (at_end {| grp_expList := es; grp_plotConf := c; grp_data := None; grp_stats := None;
                      grp_outPath := None; grp_name := None |}).
    split; [|repeat split].
    + cbn [SpectGroup.init]. run_with Hnew.
      run_with (Hlist {| grp_expList := []; grp_plotConf := confs w;
                         grp_data := None; grp_stats := None;
                         grp_outPath := None; grp_name := None |}).
      cbn [grp_plotConf grp_outPath grp_name].
      erewrite bind_ok by apply Hconf. cbv beta.
      cbn [grp_expList grp_data grp_stats grp_outPath grp_name].
      erewrite bind_err; [reflexivity|].
      unfold SpectGroup.setOutPath. cbn [dirs files at_end with_groups with_confs]. rewrite Hd.
      destruct (existsb _ (files w)); reflexivity.
    + intros g grp Hg. cbn [groups at_end with_groups]. apply lookup_app_l_Some. exact Hg.
Qed.

Lemma init_builds_group_witness :
  exists w' : world,
    SpectGroup.init (PyList (map PyExp [2; 0])) (PyConf 0) (PyStr "out") (PyStr "Pair") demo_world
    = (inr 3, w')
    /\ groups w' = groups demo_world ++ [built_group [2; 0] 0 "out" "Pair"]
    /\ exps w' = exps demo_world /\ frames w' = frames demo_world.
Proof. exact (proj1 (init_builds_group demo_world [2; 0] 0 "out" "Pair") eq_refl). Defined.

(** ** Subgroups *)

(** X12.  [genSubgroup] builds a subgroup for no definition at all: the
    empty definition returns the empty list, and every other definition
    raises, a [TypeError] from indexing the experiment list with a list, or
    an [AssertionError] when the first index set holds a value that is no
    integer.  The store is never changed. *)
Theorem genSubgroup_never_builds (w : world) (g : ref) (grp : SpectGroup)
        (groupDef : list (list pyval)) :
  groups w !! g = Some grp ->
  exists r : result (list ref),
    SpectGroup.genSubgroup g groupDef w = (r, w)
    /\ (groupDef = [] -> r = inr [])
    /\ (groupDef <> [] ->
        exists exc, r = inl exc /\ (exc_type exc = TypeError \/ exc_type exc = AssertionError)).
Proof.
  intros Hg. destruct groupDef as [|idxs rest].
  - exists (inr []). split; [reflexivity|]. split; [reflexivity|congruence].
  - eexists. split; [apply (genSubgroup_raises w g grp idxs rest Hg)|].
    split; [discriminate|]. intros _. eexists. split; [reflexivity|].
    destruct (forallb is_int idxs); [left|right]; reflexivity.
Qed.

Lemma genSubgroup_never_builds_witness :
  exists exc : pyexc,
    SpectGroup.genSubgroup 0 [[PyInt 0]; [PyInt 1; PyInt 2]] demo_world = (inl exc, demo_world)
    /\ (exc_type exc = TypeError \/ exc_type exc = AssertionError).
Proof.
  destruct (genSubgroup_never_builds demo_world 0 (group_of [0; 1; 2] "Run")
              [[PyInt 0]; [PyInt 1; PyInt 2]] eq_refl) as (r & Hrun & _ & Hexc).
  destruct (Hexc ltac:(discriminate)) as (exc & -> & Hkind).
  exists exc. split; [exact Hrun|exact Hkind].
Defined.

(** ** The composed table in general *)

(** What [Compose] does on loaded experiments, with the join it folds. *)
Lemma Compose_joins (w : world) (g : ref) (grp : SpectGroup) (fs : list DataFrame) :
  groups w !! g = Some grp ->
  loaded_frames w (grp_expList grp) = Some fs ->
  fs <> [] ->
  forallb exp_table_ok fs = true ->
  suffixes_fit fs = true ->
  exists (w' : world) (f : DataFrame) (rest : list DataFrame) (m : DataFrame),
    fs = f :: rest
    /\ merge_all f (map Some rest) = inr m
    /\ keyed m = true
    /\ length (columns m) = S (length fs)
    /\ SpectGroup.Compose g w = (inr tt, w')
    /\ composed_table w' g
       = Some {| columns := WL :: map exp_label (seq 0 (length fs)); rows := rows m |}.
Proof.
  intros Hg Hl Hne Hok Hfit. unfold loaded_frames in Hl.
  destruct (loaded_refs w (grp_expList grp)) as [ds|] eqn:Hds; [|discriminate].
  destruct (Compose_run w g grp ds fs Hg Hds Hl Hne Hok Hfit) as (t & Ht & Hrun).
  destruct (compose_table_ok fs Hne Hok Hfit) as (f & rest & m & Hfs & Hm & Hkm & Hlm & Ht').
  exists (composed_world w g grp ds t), f, rest, m.
  repeat split; auto.
  rewrite (composed_world_table w g grp ds fs t Hg Hl). congruence.
Qed.

Lemma str_of_nat_inj (a b : nat) : str_of_nat a = str_of_nat b -> a = b.
Proof.
  unfold str_of_nat. intros H.
  assert (Hu : Nat.to_uint a = Nat.to_uint b).
  { apply (f_equal NilEmpty.uint_of_string) in H. rewrite !NilEmpty.usu in H. congruence. }
  apply (f_equal Nat.of_uint) in Hu. rewrite !DecimalNat.Unsigned.of_to in Hu. exact Hu.
Qed.

Lemma exp_labels_NoDup (n k : nat) : NoDup (WL :: map exp_label (seq k n)).
Proof.
  apply NoDup_cons_2.
  - intros Hin. apply list_elem_of_In in Hin.
    pose proof (exp_labels_not_key (seq k n)) as Hno. unfold has_label in Hno.
    assert (Hex : existsb (fun c => String.eqb c WL) (map exp_label (seq k n)) = true).
    { apply existsb_exists. exists WL. split; [exact Hin|apply String.eqb_refl]. }
    congruence.
  - assert (Hinj : Inj eq eq exp_label).
    { intros a b H. unfold exp_label in H. cbn in H. injection H as H.
      apply str_of_nat_inj. exact H. }
    apply (NoDup_fmap_2 exp_label). apply NoDup_seq.
Qed.

(** X13.  When the tables of the experiments can be joined (the suffix
    of the join makes no label repeat), the table [Compose()] stores has
    one column per experiment besides the key column, under pairwise
    distinct labels, and every one of its rows has a cell for each of
    them. *)
Theorem Compose_table_shape (w : world) (g : ref) (grp : SpectGroup) (fs : list DataFrame) :
  groups w !! g = Some grp ->
  loaded_frames w (grp_expList grp) = Some fs ->
  fs <> [] ->
  forallb exp_table_ok fs = true ->
  suffixes_fit fs = true ->
  exists (w' : world) (t : DataFrame),
    SpectGroup.Compose g w = (inr tt, w')
    /\ composed_table w' g = Some t
    /\ NoDup (columns t)
    /\ length (columns t) = S (length fs)
    /\ Forall (fun r => length r = S (length fs)) (rows t).
Proof.
  intros Hg Hl Hne Hok Hfit.
  destruct (Compose_joins w g grp fs Hg Hl Hne Hok Hfit)
    as (w' & f & rest & m & _ & _ & Hk & Hlen & Hrun & Ht).
  eexists _, _. split; [exact Hrun|]. split; [exact Ht|]. cbn [columns rows].
  split; [apply exp_labels_NoDup|].
  split; [cbn [length]; rewrite length_map, length_seq; reflexivity|].
  destruct (keyed_inv _ Hk) as (_ & _ & _ & Hrect). unfold frame_rect in Hrect.
  apply List.Forall_forall. intros r Hr. rewrite forallb_forall in Hrect.
  specialize (Hrect r Hr). apply Nat.eqb_eq in Hrect. congruence.
Qed.

Lemma Compose_table_shape_witness :
  exists (w' : world) (t : DataFrame),
    SpectGroup.Compose 0 demo_world = (inr tt, w')
    /\ composed_table w' 0 = Some t
    /\ NoDup (columns t)
    /\ length (columns t) = 4
    /\ Forall (fun r => length r = 4) (rows t).
Proof.
  exact (Compose_table_shape demo_world 0 (group_of [0; 1; 2] "Run")
           [measure_table [[1; 10]; [2; 20]; [3; 30]]%float;
            measure_table [[2; 21]; [3; 31]; [4; 41]]%float;
            measure_table [[1; 12]; [2; 22]; [3; 32]; [4; 42]]%float]
           eq_refl eq_refl ltac:(discriminate) eq_refl eq_refl).
Defined.

(** The rows of a join, one by one. *)
Lemma join_rows_In (xs ys : list (list float)) (r : list float) :
  In r (join_rows xs ys) <->
  exists rx ry, In rx xs /\ In ry ys /\ key_eqb (cell rx 0) (cell ry 0) = true
                /\ r = rx ++ delete 0 ry.
Proof.
  unfold join_rows. rewrite in_flat_map. split.
  - intros (rx & Hrx & Hr). apply in_map_iff in Hr as (ry & <- & Hry).
    apply filter_In in Hry as [Hry Hk]. exists rx, ry. auto.
  - intros (rx & ry & Hrx & Hry & Hk & ->). exists rx. split; [exact Hrx|].
    apply in_map_iff. exists ry. split; [reflexivity|]. apply filter_In. auto.
Qed.

Lemma cell_app_l (rx tail : list float) (i : nat) :
  i < length rx -> cell (rx ++ tail) i = cell rx i.
Proof. intros H. unfold cell. apply app_nth1. exact H. Qed.

Lemma keyed_row_length (f : DataFrame) (r : list float) :
  keyed f = true -> In r (rows f) -> length r = length (columns f).
Proof.
  intros Hk Hr. destruct (keyed_inv _ Hk) as (_ & _ & _ & Hrect). unfold frame_rect in Hrect.
  rewrite forallb_forall in Hrect. specialize (Hrect r Hr). apply Nat.eqb_eq in Hrect. exact Hrect.
Qed.

Lemma merge_step (acc f m : DataFrame) :
  keyed acc = true -> exp_table_ok f = true -> merge acc f = inr m ->
  keyed m = true
  /\ length (columns m) = S (length (columns acc))
  /\ forall r, In r (rows m) <->
               exists rx ry, In rx (rows acc) /\ In ry (rows f)
                             /\ key_eqb (cell rx 0) (cell ry 0) = true
                             /\ r = rx ++ [cell ry 1]
                             /\ length rx = length (columns acc).
Proof.
  intros Hacc Hf Hm. destruct (merge_keyed acc f m Hacc Hf Hm) as (Hk & Hl & Hr).
  repeat split; auto.
  - rewrite Hr. intros H. apply join_rows_In in H as (rx & ry & Hrx & Hry & Hkey & ->).
    exists rx, ry. repeat split; auto.
    + f_equal.
      pose proof (keyed_row_length f ry (exp_table_ok_keyed _ Hf) Hry) as Hlen.
      unfold exp_table_ok in Hf. apply andb_true_iff in Hf as [_ Hf]. apply Nat.eqb_eq in Hf.
      rewrite Hf in Hlen. destruct ry as [|a [|b [|? ?]]]; try discriminate. reflexivity.
    + apply keyed_row_length; assumption.
  - rewrite Hr. intros (rx & ry & Hrx & Hry & Hkey & -> & _). apply join_rows_In.
    exists rx, ry. repeat split; auto. f_equal.
    pose proof (keyed_row_length f ry (exp_table_ok_keyed _ Hf) Hry) as Hlen.
    unfold exp_table_ok in Hf. apply andb_true_iff in Hf as [_ Hf]. apply Nat.eqb_eq in Hf.
    rewrite Hf in Hlen. destruct ry as [|a [|b [|? ?]]]; try discriminate. reflexivity.
Qed.

Lemma key_mem_In (k : float) (f : DataFrame) :
  key_mem k (key_column f) = true <-> exists ry, In ry (rows f) /\ key_eqb k (cell ry 0) = true.
Proof.
  unfold key_mem, key_column. rewrite existsb_exists. split.
  - intros (x & Hx & Hk). apply in_map_iff in Hx as (ry & <- & Hry). eauto.
  - intros (ry & Hry & Hk). exists (cell ry 0). split; [|exact Hk].
    apply in_map_iff. eauto.
Qed.

(** The keys of a fold of joins: those of the first table that every
    other table holds, whatever their multiplicity. *)
Lemma merge_all_keys (fs : list DataFrame) :
  forall acc m, keyed acc = true -> forallb exp_table_ok fs = true ->
    merge_all acc (map Some fs) = inr m ->
    forall k, In k (key_column m) <->
              In k (key_column acc) /\ Forall (fun f => key_mem k (key_column f) = true) fs.
Proof.
  induction fs as [|f fs IH]; intros acc m Hacc Hfs Hm k.
  - cbn in Hm. injection Hm as <-. split; [intros H; split; [exact H|constructor]|tauto].
  - cbn [forallb] in Hfs. apply andb_true_iff in Hfs as [Hf Hfs].
    cbn [map merge_all merge_obj] in Hm.
    destruct (merge acc f) as [err|m1] eqn:Hm1; [discriminate|].
    destruct (merge_step acc f m1 Hacc Hf Hm1) as (Hk1 & _ & Hrows).
    rewrite (IH m1 m Hk1 Hfs Hm k).
    assert (Hstep : In k (key_column m1) <-> In k (key_column acc) /\ key_mem k (key_column f) = true).
    { unfold key_column at 1 2. rewrite !in_map_iff. split.
      - intros (r & <- & Hr). apply Hrows in Hr as (rx & ry & Hrx & Hry & Hkey & -> & Hlen).
        assert (Hpos : 0 < length rx).
        { rewrite Hlen. destruct (keyed_inv _ Hacc) as (vs & -> & _). cbn. lia. }
        rewrite (cell_app_l rx _ 0 Hpos). split; [eauto|].
        apply key_mem_In. eauto.
      - intros [(rx & <- & Hrx) Hmem]. apply key_mem_In in Hmem as (ry & Hry & Hkey).
        exists (rx ++ [cell ry 1]). split.
        + apply cell_app_l. rewrite (keyed_row_length acc rx Hacc Hrx).
          destruct (keyed_inv _ Hacc) as (vs & -> & _). cbn. lia.
        + apply Hrows. exists rx, ry. repeat split; auto.
          apply keyed_row_length; assumption. }
    rewrite Hstep. split.
    + intros [[H1 H2] H3]. split; [exact H1|constructor; assumption].
    + intros [H1 H2]. inversion H2; subst. tauto.
Qed.

(** X14.  Without any assumption on repeated keys, when the tables of
    the experiments can be joined (the suffix of the join makes no label
    repeat): a key is in the key column of the composed table exactly when
    it is in the key column of the first experiment and every other
    experiment has an equal key. *)
Theorem Compose_keys_common (w : world) (g : ref) (grp : SpectGroup) (fs : list DataFrame) :
  groups w !! g = Some grp ->
  loaded_frames w (grp_expList grp) = Some fs ->
  fs <> [] ->
  forallb exp_table_ok fs = true ->
  suffixes_fit fs = true ->
  exists (w' : world) (t : DataFrame),
    SpectGroup.Compose g w = (inr tt, w')
    /\ composed_table w' g = Some t
    /\ forall k, In k (key_column t) <-> In k (key_inter (map key_column fs)).
Proof.
  intros Hg Hl Hne Hok Hfit.
  destruct (Compose_joins w g grp fs Hg Hl Hne Hok Hfit)
    as (w' & f & rest & m & -> & Hm & _ & _ & Hrun & Ht).
  eexists _, _. split; [exact Hrun|]. split; [exact Ht|]. intros k.
  cbn [forallb] in Hok. apply andb_true_iff in Hok as [Hf Hrest].
  change (key_column {| columns := WL :: map exp_label (seq 0 (length (f :: rest)));
                        rows := rows m |}) with (key_column m).
  pose proof (merge_all_keys rest f m (exp_table_ok_keyed _ Hf) Hrest Hm k) as Hkeys.
  pose proof (key_inter_spec (key_column f) (map key_column rest) k) as Hinter.
  pose proof (List.Forall_map key_column (fun c => key_mem k c = true) rest) as Hmap.
  cbn [map]. tauto.
Qed.

Lemma Compose_keys_common_witness :
  exists (w' : world) (t : DataFrame),
    SpectGroup.Compose 0 (world_of [[[1; 10]; [1; 11]; [2; 20]]; [[1; 12]; [3; 30]; [1; 13]]]%float)
    = (inr tt, w')
    /\ composed_table w' 0 = Some t
    /\ forall k, In k (key_column t) <-> In k [1; 1]%float.
Proof.
  exact (Compose_keys_common
           (world_of [[[1; 10]; [1; 11]; [2; 20]]; [[1; 12]; [3; 30]; [1; 13]]]%float) 0
           (group_of [0; 1] "Run")
           [measure_table [[1; 10]; [1; 11]; [2; 20]]%float;
            measure_table [[1; 12]; [3; 30]; [1; 13]]%float]
           eq_refl eq_refl ltac:(discriminate) eq_refl eq_refl).
Defined.

(** The cells of a fold of joins come from the tables joined. *)
Lemma merge_all_cells (rest : list DataFrame) :
  forall (acc : DataFrame) (pre : list DataFrame) (m : DataFrame),
    keyed acc = true -> length (columns acc) = S (length pre) ->
    cells_from acc pre ->
    forallb exp_table_ok rest = true ->
    merge_all acc (map Some rest) = inr m ->
    cells_from m (pre ++ rest).
Proof.
  induction rest as [|f rest IH]; intros acc pre m Hacc Hlen Hpre Hrest Hm.
  - cbn in Hm. injection Hm as <-. rewrite app_nil_r. exact Hpre.
  - cbn [forallb] in Hrest. apply andb_true_iff in Hrest as [Hf Hrest].
    cbn [map merge_all merge_obj] in Hm.
    destruct (merge acc f) as [err|m1] eqn:Hm1; [discriminate|].
    destruct (merge_step acc f m1 Hacc Hf Hm1) as (Hk1 & Hl1 & Hrows).
    replace (pre ++ f :: rest) with ((pre ++ [f]) ++ rest) by (rewrite <- app_assoc; reflexivity).
    apply (IH m1 (pre ++ [f]) m Hk1); auto.
    + rewrite Hl1, Hlen, length_app. cbn. lia.
    + intros r Hr i fi Hi. apply Hrows in Hr as (rx & ry & Hrx & Hry & Hkey & -> & Hlx).
      assert (Hpos : 0 < length rx) by (rewrite Hlx, Hlen; lia).
      unfold cell_from. rewrite (cell_app_l rx _ 0 Hpos).
      destruct (lookup_app_Some pre [f] i fi) as [Hcase _].
      destruct (Hcase Hi) as [Hi'|[Hge Hi']].
      * destruct (Hpre rx Hrx i fi Hi') as (ri & Hri & Hk & Hc).
        exists ri. split; [exact Hri|]. split; [exact Hk|].
        rewrite cell_app_l; [exact Hc|].
        apply lookup_lt_Some in Hi'. rewrite Hlx, Hlen. lia.
      * assert (i = length pre) as ->.
        { apply lookup_lt_Some in Hi'. cbn in Hi'. lia. }
        rewrite Nat.sub_diag in Hi'. injection Hi' as <-.
        exists ry. split; [exact Hry|]. split; [exact Hkey|].
        unfold cell. rewrite app_nth2 by (rewrite Hlx, Hlen; lia).
        rewrite Hlx, Hlen, Nat.sub_diag. reflexivity.
Qed.

(** X15.  When the tables of the experiments can be joined (the suffix
    of the join makes no label repeat), every row of the composed table is
    made of rows of the experiments: for the experiment at position i there
    is a row of its table with an equal key whose value is the cell of the
    composed row in column i + 1.  No cell of a composed table is computed
    or invented. *)
Theorem Compose_cells_from_experiments (w : world) (g : ref) (grp : SpectGroup)
        (fs : list DataFrame) :
  groups w !! g = Some grp ->
  loaded_frames w (grp_expList grp) = Some fs ->
  fs <> [] ->
  forallb exp_table_ok fs = true ->
  suffixes_fit fs = true ->
  exists (w' : world) (t : DataFrame),
    SpectGroup.Compose g w = (inr tt, w')
    /\ composed_table w' g = Some t
    /\ cells_from t fs.
Proof.
  intros Hg Hl Hne Hok Hfit.
  destruct (Compose_joins w g grp fs Hg Hl Hne Hok Hfit)
    as (w' & f & rest & m & -> & Hm & _ & _ & Hrun & Ht).
  eexists _, _. split; [exact Hrun|]. split; [exact Ht|].
  cbn [forallb] in Hok. apply andb_true_iff in Hok as [Hf Hrest].
  assert (H0 : cells_from f [f]).
  { intros r Hr i fi Hi. destruct i as [|i]; [|destruct i; discriminate].
    injection Hi as <-. exists r. split; [exact Hr|]. split; [apply key_eqb_refl|reflexivity]. }
  assert (Hl0 : length (columns f) = S (length [f])).
  { unfold exp_table_ok in Hf. apply andb_true_iff in Hf as [_ Hf]. apply Nat.eqb_eq in Hf.
    exact Hf. }
  exact (merge_all_cells rest f [f] m (exp_table_ok_keyed _ Hf) Hl0 H0 Hrest Hm).
Qed.

Lemma Compose_cells_from_experiments_witness :
  exists (w' : world) (t : DataFrame),
    SpectGroup.Compose 0 demo_world = (inr tt, w')
    /\ composed_table w' 0 = Some t
    /\ cells_from t [measure_table [[1; 10]; [2; 20]; [3; 30]]%float;
                     measure_table [[2; 21]; [3; 31]; [4; 41]]%float;
                     measure_table [[1; 12]; [2; 22]; [3; 32]; [4; 42]]%float].
Proof.
  exact (Compose_cells_from_experiments demo_world 0 (group_of [0; 1; 2] "Run")
           [measure_table [[1; 10]; [2; 20]; [3; 30]]%float;
            measure_table [[2; 21]; [3; 31]; [4; 41]]%float;
            measure_table [[1; 12]; [2; 22]; [3; 32]; [4; 42]]%float]
           eq_refl eq_refl ltac:(discriminate) eq_refl eq_refl).
Defined.

(** ** Statistics again, and loading before composing *)

(** X16.  [genStats()] on a composed group can be repeated: the second
    call computes the same statistics from the same data, which it leaves
    as it is, and stores them in a new frame. *)
Theorem genStats_twice_same_stats (w : world) (g : ref) (grp : SpectGroup) (d : ref)
        (t : DataFrame) :
  groups w !! g = Some grp -> grp_data grp = Some d -> frames w !! d = Some t ->
  keyed t = true ->
  exists (w1 w2 : world),
    SpectGroup.genStats g w = (inr tt, w1)
    /\ SpectGroup.genStats g w1 = (inr tt, w2)
    /\ stats_table w1 g = Some (stats_of t)
    /\ stats_table w2 g = Some (stats_of t)
    /\ composed_table w2 g = Some t
    /\ length (frames w2) = S (S (length (frames w))).
Proof.
  intros Hg Hd Hf Hk.
  destruct (genStats_on_composed w g grp d t Hg Hd Hf Hk) as (Hrun1 & _ & Hs1).
  set (w1 := stats_world w g grp t) in *.
  assert (Hg1 : groups w1 !! g = Some (set_stats grp (length (frames w)))).
  { unfold w1, stats_world. cbn [groups with_groups]. apply list_lookup_insert_eq.
    eapply lookup_lt_Some; eauto. }
  assert (Hf1 : frames w1 !! d = Some t).
  { unfold w1, stats_world. cbn [frames with_groups with_frames]. apply lookup_app_l_Some. exact Hf. }
  destruct (genStats_on_composed w1 g _ d t Hg1 Hd Hf1 Hk) as (Hrun2 & Hc2 & Hs2).
  exists w1, (stats_world w1 g (set_stats grp (length (frames w))) t).
  repeat split; auto.
  subst w1. unfold stats_world. cbn [frames with_groups with_frames].
  rewrite !length_app. cbn [length]. lia.
Qed.

Lemma genStats_twice_same_stats_witness :
  exists (w1 w2 : world),
    SpectGroup.genStats 0 composed_demo = (inr tt, w1)
    /\ SpectGroup.genStats 0 w1 = (inr tt, w2)
    /\ stats_table w1 0
       = Some (stats_of {| columns := [WL; "Exp_0"; "Exp_1"; "Exp_2"];
                           rows := [[2; 20; 21; 22]; [3; 30; 31; 32]]%float |})
    /\ stats_table w2 0
       = Some (stats_of {| columns := [WL; "Exp_0"; "Exp_1"; "Exp_2"];
                           rows := [[2; 20; 21; 22]; [3; 30; 31; 32]]%float |})
    /\ composed_table w2 0
       = Some {| columns := [WL; "Exp_0"; "Exp_1"; "Exp_2"];
                 rows := [[2; 20; 21; 22]; [3; 30; 31; 32]]%float |}
    /\ length (frames w2) = S (S (length (frames composed_demo))).
Proof.
  exact (genStats_twice_same_stats composed_demo 0 (set_data (group_of [0; 1; 2] "Run") 3) 3
           {| columns := [WL; "Exp_0"; "Exp_1"; "Exp_2"];
              rows := [[2; 20; 21; 22]; [3; 30; 31; 32]]%float |}
           eq_refl eq_refl eq_refl eq_refl).
Defined.

(** X17.  Loading and composing fit together: for a group of one
    experiment whose file holds well-formed rows only, [readFile] without a
    sentinel, with two column names that differ and a dictionary that asks
    for float64 under both, followed by [Compose()] succeeds, and the
    composed table has the labels [Wavelength] and [Exp_0] and one row per
    line of the file, with the cells of that line. *)
Theorem load_then_compose (cast : string -> option float)
        (other : ascii -> list string -> option (list (string * dtype)) -> list string
                 -> result (list (list float)))
        (w : world) (g : ref)
        (grp : SpectGroup) (e : ref) (ex : SpectExp) (src : string) (d : ascii)
        (convert_dict : option (list (string * dtype))) (names lines : list string) :
  groups w !! g = Some grp -> grp_expList grp = [e] ->
  exps w !! e = Some ex -> exp_sourceFile ex = Some src ->
  lookup_file (files w) src = Some lines ->
  forallb (row_ok cast d) lines = true ->
  length names = 2 -> distinct names = true -> all_float64 convert_dict names = true ->
  exists (w1 w2 : world) (t : DataFrame),
    SpectExp.readFile cast other e d None convert_dict names w = (inr tt, w1)
    /\ SpectGroup.Compose g w1 = (inr tt, w2)
    /\ composed_table w2 g = Some t
    /\ columns t = [WL; "Exp_0"]
    /\ Forall2 (fun line row => row_cells cast d line = Some row) lines (rows t).
Proof.
  intros Hg He Hex Hsrc Hfile Hrows Hn Hd Hf.
  destruct (read_csv_rows cast other d convert_dict names lines Hn Hd Hf Hrows)
    as (rs & Hread & Hcells).
  pose proof (readFile_loads cast other w e ex src d None convert_dict names lines lines [] rs
                Hex Hsrc Hfile (conj eq_refl eq_refl) Hread Hn) as Hrun.
  destruct (loaded_world_exp w e ex [] names rs Hex) as [Hex1 Hfr1].
  set (w1 := loaded_world w e ex [] names rs) in *.
  assert (Hg1 : groups w1 !! g = Some grp) by exact Hg.
  destruct (Compose_single_run w1 g grp e _ (length (frames w)) _ Hg1 He Hex1 eq_refl Hfr1 eq_refl)
    as (w2 & Hrun2 & Hg2 & _ & Hf2 & _).
  exists w1, w2, {| columns := [WL; "Exp_0"]; rows := rs |}.
  split; [exact Hrun|]. split; [exact Hrun2|]. split; [|split; [reflexivity|exact Hcells]].
  unfold composed_table. rewrite Hg2. cbn [grp_data set_data]. exact Hf2.
Qed.

Lemma load_then_compose_witness :
  exists (w1 w2 : world) (t : DataFrame),
    SpectExp.readFile cast_digits no_other_reader 0 TAB None measure_dtypes [WL; "Measure"]
                      table_world
    = (inr tt, w1)
    /\ SpectGroup.Compose 0 w1 = (inr tt, w2)
    /\ composed_table w2 0 = Some t
    /\ columns t = [WL; "Exp_0"]
    /\ Forall2 (fun line row => row_cells cast_digits TAB line = Some row)
               [data_row "1" "2"; data_row "3" "4"; data_row "5" "6"] (rows t).
Proof.
  apply (load_then_compose cast_digits no_other_reader table_world 0 (group_of [0] "Single") 0
           (unloaded_exp "table.txt") "table.txt" TAB measure_dtypes [WL; "Measure"]);
    reflexivity.
Defined.

(** ** The setters of a plot configurator *)

Lemma setAxisTitles_from_strings (ss : list string) :
  forall (titles : list pyval) (k : nat),
    k + length ss <= length titles ->
    plotConf.setAxisTitles_from titles (map PyStr ss) k
    = (inr tt, take k titles ++ map PyStr ss ++ drop (k + length ss) titles).
Proof.
  induction ss as [|s ss IH]; intros titles k Hk.
  - cbn [map app plotConf.setAxisTitles_from length]. rewrite Nat.add_0_r, take_drop. reflexivity.
  - cbn [map plotConf.setAxisTitles_from plotConf.is_str negb length] in *.
    unfold plotConf.list_setitem.
    destruct (Nat.ltb_spec k (length titles)) as [Hlt|Hge]; [|lia].
    rewrite IH by (rewrite length_insert; lia). f_equal.
    rewrite (take_S_r _ _ (PyStr s)) by (apply list_lookup_insert_eq; exact Hlt).
    rewrite take_insert_ge by lia. rewrite drop_insert_lt by lia.
    rewrite <- app_assoc. cbn [app]. replace (S k + length ss) with (k + S (length ss)) by lia.
    reflexivity.
Qed.

(** X18.  [setAxisTitles] writes the titles it is given over the first
    entries of the list and keeps the others: one title sets the x axis
    only.  It is not all-or-nothing: when an entry is no string (so also
    [None], the default it cannot restore) the call raises a [ValueError],
    and the strings before that entry have been written.  A list of more
    than two entries is refused and nothing is written. *)
Theorem setAxisTitles_writes_in_place (self : plotConf.conf) :
  length (plotConf.axis_titles self) = 2 ->
  (forall ss : list string,
      length ss <= 2 ->
      plotConf.setAxisTitles self (PyList (map PyStr ss))
      = (inr tt, {| plotConf.title := plotConf.title self;
                    plotConf.axis_titles := overwrite (map PyStr ss) (plotConf.axis_titles self);
                    plotConf.axis_ranges := plotConf.axis_ranges self |}))
  /\ (forall (ss : list string) (v : pyval) (post : list pyval),
         length (map PyStr ss ++ v :: post) <= 2 -> plotConf.is_str v = false ->
         exists msg,
           plotConf.setAxisTitles self (PyList (map PyStr ss ++ v :: post))
           = (inl (Raise ValueError msg),
              {| plotConf.title := plotConf.title self;
                 plotConf.axis_titles := overwrite (map PyStr ss) (plotConf.axis_titles self);
                 plotConf.axis_ranges := plotConf.axis_ranges self |}))
  /\ (forall l : list pyval,
         2 < length l ->
         exists msg, plotConf.setAxisTitles self (PyList l) = (inl (Raise ValueError msg), self)).
Proof.
  intros Hlen. split; [|split].
  - intros ss Hss. unfold plotConf.setAxisTitles. rewrite length_map.
    destruct (Nat.ltb_spec 2 (length ss)) as [Hgt|_]; [lia|].
    rewrite setAxisTitles_from_strings by (cbn; lia).
    cbn [take app Nat.add]. unfold overwrite. rewrite length_map. reflexivity.
  - intros ss v post Hl Hv. unfold plotConf.setAxisTitles.
    destruct (Nat.ltb_spec 2 (length (map PyStr ss ++ v :: post))) as [Hgt|_]; [lia|].
    rewrite length_app, length_map in Hl. cbn [length] in Hl.
    assert (Hrun : forall titles k,
               k + length ss <= length titles ->
               exists msg,
                 plotConf.setAxisTitles_from titles (map PyStr ss ++ v :: post) k
                 = (inl (Raise ValueError msg),
                    take k titles ++ map PyStr ss ++ drop (k + length ss) titles)).
    { clear Hl. induction ss as [|s ss IH]; intros titles k Hk.
      - cbn [map app plotConf.setAxisTitles_from length]. rewrite Hv. cbn [negb].
        rewrite Nat.add_0_r, take_drop. eauto.
      - cbn [map app plotConf.setAxisTitles_from plotConf.is_str negb length] in *.
        unfold plotConf.list_setitem.
        destruct (Nat.ltb_spec k (length titles)) as [Hlt|Hge]; [|lia].
        destruct (IH (<[k := PyStr s]> titles) (S k)) as [msg Hmsg];
          [rewrite length_insert; lia|].
        exists msg. rewrite Hmsg. f_equal.
        rewrite (take_S_r _ _ (PyStr s)) by (apply list_lookup_insert_eq; exact Hlt).
        rewrite take_insert_ge by lia. rewrite drop_insert_lt by lia.
        rewrite <- app_assoc. cbn [app].
        replace (S k + length ss) with (k + S (length ss)) by lia. reflexivity. }
    destruct (Hrun (plotConf.axis_titles self) 0 ltac:(lia)) as [msg Hmsg].
    exists msg. rewrite Hmsg. cbn [take app Nat.add]. unfold overwrite. rewrite length_map.
    reflexivity.
  - intros l Hl. unfold plotConf.setAxisTitles.
    destruct (Nat.ltb_spec 2 (length l)) as [_|Hle]; [|lia]. eauto.
Qed.

Lemma setAxisTitles_writes_in_place_witness :
  (forall ss : list string,
      length ss <= 2 ->
      plotConf.setAxisTitles plotConf.new (PyList (map PyStr ss))
      = (inr tt, {| plotConf.title := PyNone;
                    plotConf.axis_titles := overwrite (map PyStr ss) [PyNone; PyNone];
                    plotConf.axis_ranges := plotConf.axis_ranges plotConf.new |}))
  /\ (forall (ss : list string) (v : pyval) (post : list pyval),
         length (map PyStr ss ++ v :: post) <= 2 -> plotConf.is_str v = false ->
         exists msg,
           plotConf.setAxisTitles plotConf.new (PyList (map PyStr ss ++ v :: post))
           = (inl (Raise ValueError msg),
              {| plotConf.title := PyNone;
                 plotConf.axis_titles := overwrite (map PyStr ss) [PyNone; PyNone];
                 plotConf.axis_ranges := plotConf.axis_ranges plotConf.new |}))
  /\ (forall l : list pyval,
         2 < length l ->
         exists msg,
           plotConf.setAxisTitles plotConf.new (PyList l) = (inl (Raise ValueError msg), plotConf.new)).
Proof. exact (setAxisTitles_writes_in_place plotConf.new eq_refl). Defined.

(** X19.  [setAxisRanges] tests the ends of a range with [not] applied to
    a pair of booleans, which is never true: the ends are not checked at
    all.  Any list of at most two two-element lists is accepted and
    written over the first ranges, whatever the ends are, strings and
    [None] included. *)
Theorem setAxisRanges_accepts_any_ends (self : plotConf.conf) (ps : list (pyval * pyval)) :
  length (plotConf.axis_ranges self) = 2 ->
  length ps <= 2 ->
  plotConf.setAxisRanges self (PyList (map range_pair ps))
  = (inr tt, {| plotConf.title := plotConf.title self;
                plotConf.axis_titles := plotConf.axis_titles self;
                plotConf.axis_ranges := overwrite (map range_pair ps) (plotConf.axis_ranges self) |}).
Proof.
  intros Hlen Hps. unfold plotConf.setAxisRanges. rewrite length_map.
  destruct (Nat.ltb_spec 2 (length ps)) as [Hgt|_]; [lia|].
  assert (Hrun : forall ranges total k,
             k + length ps <= length ranges ->
             plotConf.setAxisRanges_from ranges (map range_pair ps) total k
             = (inr tt, take k ranges ++ map range_pair ps ++ drop (k + length ps) ranges)).
  { clear. induction ps as [|p ps IH]; intros ranges total k Hk.
    - cbn [map app plotConf.setAxisRanges_from length]. rewrite Nat.add_0_r, take_drop. reflexivity.
    - cbn [map plotConf.setAxisRanges_from length] in *.
      cbn [range_pair plotConf.py_len length Nat.eqb negb plotConf.pair_truth].
      unfold plotConf.list_setitem.
      destruct (Nat.ltb_spec k (length ranges)) as [Hlt|Hge]; [|lia].
      rewrite IH by (rewrite length_insert; lia). f_equal.
      rewrite (take_S_r _ _ (PyList [p.1; p.2])) by (apply list_lookup_insert_eq; exact Hlt).
      rewrite take_insert_ge by lia. rewrite drop_insert_lt by lia.
      rewrite <- app_assoc. cbn [app]. replace (S k + length ps) with (k + S (length ps)) by lia.
      reflexivity. }
  rewrite Hrun by (cbn; lia). cbn [take app Nat.add]. unfold overwrite. rewrite length_map.
  reflexivity.
Qed.

Lemma setAxisRanges_accepts_any_ends_witness :
  plotConf.setAxisRanges plotConf.new (PyList (map range_pair [(PyStr "low", PyNone)]))
  = (inr tt, {| plotConf.title := PyNone;
                plotConf.axis_titles := [PyNone; PyNone];
                plotConf.axis_ranges := [PyList [PyStr "low"; PyNone]; PyList [PyNone; PyNone]] |}).
Proof.
  exact (setAxisRanges_accepts_any_ends plotConf.new [(PyStr "low", PyNone)] eq_refl
           ltac:(cbn; lia)).
Defined.

Lemma setAxisTitles_from_length (todo : list pyval) :
  forall titles k r titles',
    plotConf.setAxisTitles_from titles todo k = (r, titles') -> length titles' = length titles.
Proof.
  induction todo as [|v todo IH]; intros titles k r titles'; cbn [plotConf.setAxisTitles_from].
  - intros [= _ <-]. reflexivity.
  - destruct (negb (plotConf.is_str v)); [intros [= _ <-]; reflexivity|].
    unfold plotConf.list_setitem. destruct (k <? length titles)%nat.
    + intros H. apply IH in H. rewrite length_insert in H. exact H.
    + intros [= _ <-]. reflexivity.
Qed.

Lemma setAxisRanges_from_ok (todo : list pyval) :
  forall ranges total k r ranges',
    Forall (fun v => plotConf.py_len v = inr 2) ranges ->
    plotConf.setAxisRanges_from ranges todo total k = (r, ranges') ->
    length ranges' = length ranges /\ Forall (fun v => plotConf.py_len v = inr 2) ranges'.
Proof.
  induction todo as [|v todo IH]; intros ranges total k r ranges' Hok;
    cbn [plotConf.setAxisRanges_from].
  - intros [= _ <-]. auto.
  - destruct (plotConf.py_len v) as [e|n] eqn:Hn; [intros [= _ <-]; auto|].
    destruct (Nat.eqb_spec n 2) as [->|Hne]; cbn [negb]; [|intros [= _ <-]; auto].
    cbn [plotConf.pair_truth negb]. unfold plotConf.list_setitem.
    destruct (k <? length ranges)%nat; [|intros [= _ <-]; auto].
    intros H. apply IH in H.
    + rewrite length_insert in H. exact H.
    + apply Forall_insert; assumption.
Qed.

(** X20.  Whatever they are given and whether they return or raise, the
    three setters keep the shape the plot operations rely on: two axis
    titles, two axis ranges, and two ends for every range.  The default
    configurator has this shape. *)
Theorem setters_keep_shape (self : plotConf.conf) (v : pyval) :
  conf_ok self ->
  conf_ok plotConf.new
  /\ conf_ok (snd (plotConf.setTitle self v))
  /\ conf_ok (snd (plotConf.setAxisTitles self v))
  /\ conf_ok (snd (plotConf.setAxisRanges self v)).
Proof.
  intros (Ht & Hr & Hp). split; [|split; [|split]].
  - repeat split; repeat constructor.
  - unfold plotConf.setTitle. destruct (_ || _); cbn [snd]; repeat split; assumption.
  - unfold plotConf.setAxisTitles. destruct v; cbn [snd]; try (repeat split; assumption).
    destruct (2 <? length l)%nat; cbn [snd]; [repeat split; assumption|].
    destruct (plotConf.setAxisTitles_from (plotConf.axis_titles self) l 0) as [r ts] eqn:E.
    cbn [snd]. apply setAxisTitles_from_length in E. repeat split; cbn; try assumption. congruence.
  - unfold plotConf.setAxisRanges. destruct v; cbn [snd]; try (repeat split; assumption).
    destruct (2 <? length l)%nat; cbn [snd]; [repeat split; assumption|].
    destruct (plotConf.setAxisRanges_from (plotConf.axis_ranges self) l (length l) 0)
      as [r rs] eqn:E.
    cbn [snd]. apply (setAxisRanges_from_ok _ _ _ _ _ _ Hp) in E as [E1 E2].
    repeat split; cbn; try assumption. congruence.
Qed.

Lemma setters_keep_shape_witness :
  conf_ok plotConf.new
  /\ conf_ok (snd (plotConf.setTitle plotConf.new (PyInt 3)))
  /\ conf_ok (snd (plotConf.setAxisTitles plotConf.new (PyInt 3)))
  /\ conf_ok (snd (plotConf.setAxisRanges plotConf.new (PyInt 3))).
Proof.
  apply (setters_keep_shape plotConf.new (PyInt 3)).
  repeat split; repeat constructor.
Defined.

(** ** Output names *)

Lemma first_field_no_separator (c : ascii) (s : string) :
  has_char c (nth 0 (split_on c s) "") = false.
Proof.
  induction s as [|a s IH]; [reflexivity|].
  cbn [split_on]. destruct (Ascii.eqb a c) eqn:Ha; [reflexivity|].
  destruct (split_on c s) as [|f fs] eqn:E.
  - cbn. rewrite Ha. reflexivity.
  - cbn [nth] in *. cbn [has_char]. rewrite Ha, IH. reflexivity.
Qed.

Lemma has_char_append (c : ascii) (a b : string) :
  has_char c (String.append a b) = has_char c a || has_char c b.
Proof.
  induction a as [|x a IH]; [reflexivity|].
  change (has_char c (String x (String.append a b))
          = (Ascii.eqb x c || has_char c a) || has_char c b).
  cbn [has_char]. rewrite IH. apply orb_assoc.
Qed.

(** X21.  The output name of an experiment that has a name is the name, a
    dot and the save format.  For an experiment without a name it is the
    file name of the source up to its first dot, followed by the save
    format with no dot between them: with the format [png], which holds
    no dot, the output name has no extension at all. *)
Theorem outputNameGen_names (w : world) (e : ref) (ex : SpectExp) :
  exps w !! e = Some ex ->
  (forall name, exp_name ex = Some name ->
                outputNameGen e w
                = (inr (String.append name (String.append "." (exp_saveFormat ex))), w))
  /\ (forall src, exp_name ex = None -> exp_sourceFile ex = Some src ->
                  exists out, outputNameGen e w = (inr out, w)
                              /\ out = String.append (nth 0 (split_on "." (path_name src)) "")
                                                     (exp_saveFormat ex)
                              /\ (has_char "." (exp_saveFormat ex) = false ->
                                  has_char "." out = false)).
Proof.
  intros He. split.
  - intros name Hn. unfold outputNameGen, bind, get_exp, ret. rewrite He, Hn. reflexivity.
  - intros src Hn Hs. eexists. split; [|split; [reflexivity|]].
    + unfold outputNameGen, bind, get_exp, ret. rewrite He, Hn, Hs. reflexivity.
    + intros Hf. rewrite has_char_append, first_field_no_separator, Hf. reflexivity.
Qed.

Lemma outputNameGen_names_witness :
  exists out, outputNameGen 3 demo_world = (inr out, demo_world)
              /\ out = "spectrumpng"
              /\ has_char "." out = false.
Proof.
  destruct (proj2 (outputNameGen_names demo_world 3 (unloaded_exp "spectrum.txt") eq_refl)
              "spectrum.txt" eq_refl eq_refl) as (out & Hrun & Hout & Hdot).
  exists out. split; [exact Hrun|]. split; [exact Hout|exact (Hdot eq_refl)].
Defined.

(** ** Adding an experiment, then composing *)

(** X22.  [addExp] followed by [Compose()] composes the longer list: when
    the experiments of the group and the new one are loaded and their
    tables can be joined (the suffix of the join makes no label repeat),
    the table stored is the one composed from all their tables, with one
    more value column than experiments the group had, whatever data the
    group held before. *)
Theorem addExp_then_Compose (w : world) (g : ref) (grp : SpectGroup) (e : ref)
        (fs : list DataFrame) :
  groups w !! g = Some grp ->
  loaded_frames w (grp_expList grp ++ [e]) = Some fs ->
  forallb exp_table_ok fs = true ->
  suffixes_fit fs = true ->
  exists (w1 w2 : world) (t : DataFrame),
    SpectGroup.addExp g (PyExp e) w = (inr tt, w1)
    /\ SpectGroup.Compose g w1 = (inr tt, w2)
    /\ composed_table w2 g = Some t
    /\ compose_table fs = Some t
    /\ columns t = WL :: map exp_label (seq 0 (S (length (grp_expList grp)))).
Proof.
  intros Hg Hl Hok Hfit.
  set (w1 := with_groups w (<[g := add_exp grp e]> (groups w))).
  assert (Hadd : SpectGroup.addExp g (PyExp e) w = (inr tt, w1)).
  { unfold SpectGroup.addExp, bind, get_group, put_group. rewrite Hg. reflexivity. }
  assert (Hg1 : groups w1 !! g = Some (add_exp grp e)).
  { unfold w1. cbn [groups with_groups]. apply list_lookup_insert_eq. eapply lookup_lt_Some; eauto. }
  assert (Hl1 : loaded_frames w1 (grp_expList (add_exp grp e)) = Some fs).
  { unfold loaded_frames in *. cbn [grp_expList add_exp].
    rewrite (loaded_refs_exps w w1 _ eq_refl).
    destruct (loaded_refs w (grp_expList grp ++ [e])) as [ds|]; [|discriminate].
    apply (lookup_frames_app w w1 ds fs []); [|exact Hl].
    unfold w1. cbn [frames with_groups]. rewrite app_nil_r. reflexivity. }
  assert (Hlen : length fs = S (length (grp_expList grp))).
  { unfold loaded_frames in Hl.
    destruct (loaded_refs w (grp_expList grp ++ [e])) as [ds|] eqn:Hds; [|discriminate].
    rewrite (lookup_frames_length _ _ _ Hl), (loaded_refs_length _ _ _ Hds), length_app.
    cbn. lia. }
  assert (Hne : fs <> []) by (destruct fs; [discriminate|congruence]).
  destruct (Compose_joins w1 g (add_exp grp e) fs Hg1 Hl1 Hne Hok Hfit)
    as (w2 & f & rest & m & Hfs & Hm & _ & _ & Hrun & Ht).
  eexists w1, w2, _. split; [exact Hadd|]. split; [exact Hrun|]. split; [exact Ht|]. split.
  - rewrite Hfs. unfold compose_table. rewrite Hm, <- Hfs. reflexivity.
  - cbn [columns]. rewrite Hlen. reflexivity.
Qed.

Lemma addExp_then_Compose_witness :
  exists (w1 w2 : world) (t : DataFrame),
    SpectGroup.addExp 1 (PyExp 2) parent_ready = (inr tt, w1)
    /\ SpectGroup.Compose 1 w1 = (inr tt, w2)
    /\ composed_table w2 1 = Some t
    /\ compose_table [{| columns := [WL; "Measure"]; rows := [[1; 10]; [2; 20]; [3; 30]]%float |};
                      {| columns := [WL; "Measure"]; rows := [[2; 21]; [3; 31]; [4; 41]]%float |};
                      {| columns := [WL; "Measure"];
                         rows := [[1; 12]; [2; 22]; [3; 32]; [4; 42]]%float |}] = Some t
    /\ columns t = WL :: map exp_label (seq 0 3).
Proof.
  exact (addExp_then_Compose parent_ready 1 (group_of [0; 1] "Subgroup #1 of Run") 2
           [measure_table [[1; 10]; [2; 20]; [3; 30]]%float;
            measure_table [[2; 21]; [3; 31]; [4; 41]]%float;
            measure_table [[1; 12]; [2; 22]; [3; 32]; [4; 42]]%float]
           eq_refl eq_refl eq_refl eq_refl).
Defined.

(** X23.  Composing two or more experiments whose tables can be joined
    (the suffix of the join makes no label repeat) puts the join in a new
    frame and changes nothing else: the frames of the experiments are as
    they were, labels included.  (A group of one experiment is different:
    its frame is relabelled.) *)
Theorem Compose_many_new_frame (w : world) (g : ref) (grp : SpectGroup) (fs : list DataFrame) :
  groups w !! g = Some grp ->
  loaded_frames w (grp_expList grp) = Some fs ->
  2 <= length fs ->
  forallb exp_table_ok fs = true ->
  suffixes_fit fs = true ->
  exists (w' : world) (t : DataFrame),
    SpectGroup.Compose g w = (inr tt, w')
    /\ composed_table w' g = Some t
    /\ frames w' = frames w ++ [t]
    /\ exps w' = exps w
    /\ loaded_frames w' (grp_expList grp) = Some fs.
Proof.
  intros Hg Hl Hlen Hok Hfit. pose proof Hl as Hl0. unfold loaded_frames in Hl.
  destruct (loaded_refs w (grp_expList grp)) as [ds|] eqn:Hds; [|discriminate].
  assert (Hne : fs <> []) by (destruct fs; [cbn in Hlen; lia|congruence]).
  destruct (Compose_run w g grp ds fs Hg Hds Hl Hne Hok Hfit) as (t & Ht & Hrun).
  pose proof (lookup_frames_length _ _ _ Hl) as Hlds.
  exists (composed_world w g grp ds t), t.
  split; [exact Hrun|]. split; [eapply composed_world_table; eauto|].
  destruct ds as [|d0 [|d1 ds']]; [cbn in Hlds; lia|cbn in Hlds; lia|].
  unfold composed_world. cbn [frames exps with_groups with_frames].
  split; [reflexivity|]. split; [reflexivity|].
  unfold loaded_frames.
  match goal with
  | |- context [loaded_refs ?w' _] =>
    replace (loaded_refs w' (grp_expList grp)) with (Some (d0 :: d1 :: ds'))
      by (rewrite <- Hds; symmetry; apply loaded_refs_exps; reflexivity)
  end.
  apply (lookup_frames_app w _ _ fs [t]); [reflexivity|exact Hl].
Qed.

Lemma Compose_many_new_frame_witness :
  exists (w' : world) (t : DataFrame),
    SpectGroup.Compose 1 demo_world = (inr tt, w')
    /\ composed_table w' 1 = Some t
    /\ frames w' = frames demo_world ++ [t]
    /\ exps w' = exps demo_world
    /\ loaded_frames w' [0; 1]
       = Some [measure_table [[1; 10]; [2; 20]; [3; 30]]%float;
               measure_table [[2; 21]; [3; 31]; [4; 41]]%float].
Proof.
  exact (Compose_many_new_frame demo_world 1 (group_of [0; 1] "Subgroup #1 of Run")
           [measure_table [[1; 10]; [2; 20]; [3; 30]]%float;
            measure_table [[2; 21]; [3; 31]; [4; 41]]%float]
           eq_refl eq_refl ltac:(cbn; lia) eq_refl eq_refl).
Defined.
